(** * hhd: the virtual controller event translation layer

    A shallow embedding of [hhd.controller.virtual.uinput.UInputDevice]
    (src/hhd/controller/virtual/uinput/__init__.py) and the properties its
    specification states about [open], [close], [consume] and [produce].

    Conventions of the embedding:
    - A Python number is an int ([Z]) or a float (an IEEE 754 binary64
      value, [spec_float] at precision 53); [*] and [+] are exact on two
      ints and round to the nearest float, ties to even, as soon as one
      operand is a float; [int(x)] truncates toward zero.
    - A dict is a [gmap]; an attribute that [__init__] does not create is
      [Unset] until a method assigns it, and reading it raises
      [AttributeError].
    - The evdev device is a record holding what was written to it and what
      can still be read from it; the calls on it are recorded in order.
      Its [write] takes C ints and raises [OverflowError] for anything
      else; a timestamp written to it comes back on its read side.
    - An exception ends the call: the model returns [Raise e] and does not
      keep what the call had done before the exception. *)

From Stdlib Require Import ZArith SpecFloat Ascii.
From stdpp Require Import base gmap strings list fin_maps.

Local Open Scope string_scope.
Local Open Scope Z_scope.
Local Open Scope list_scope.

(** ** Python values and outcomes *)

(** The exceptions a call can end with, all of them subclasses of
    [Exception]. *)
Inductive PyExn :=
| AttributeError (attribute : string)
| OverflowError
| TypeError
| ValueError
| OtherException (description : string).

Inductive result (A : Type) :=
| Ok (a : A)
| Raise (e : PyExn).
Arguments Ok {A} a.
Arguments Raise {A} e.

#[global] Instance result_ret : MRet result := fun A a => Ok a.

#[global] Instance result_bind : MBind result := fun A B k r =>
  match r with
  | Ok a => k a
  | Raise e => Raise e
  end.

(** An instance attribute: absent until first assigned. *)
Inductive attr (A : Type) :=
| Unset
| Attr (a : A).
Arguments Unset {A}.
Arguments Attr {A} a.

Definition getattr {A} (name : string) (x : attr A) : result A :=
  match x with
  | Attr a => Ok a
  | Unset => Raise (AttributeError name)
  end.

(** ** Python numbers *)

(** The format of a Python float. *)
Definition prec : Z := 53.
Definition emax : Z := 1024.

Inductive PyNum :=
| PyInt (n : Z)
| PyFloat (x : spec_float).

Coercion PyInt : Z >-> PyNum.

(** The float nearest to an int, infinite when the int is out of range. *)
Definition float_of_Z (n : Z) : spec_float :=
  binary_normalize prec emax n 0 false.

(** [float(x)], which is also what [*] and [+] do to an int operand that
    stands beside a float: an int too large for a float raises. *)
Definition py_float (x : PyNum) : result spec_float :=
  match x with
  | PyFloat f => Ok f
  | PyInt n =>
      match float_of_Z n with
      | S754_infinity _ => Raise OverflowError
      | f => Ok f
      end
  end.

(** [x * y] *)
Definition py_mul (x y : PyNum) : result PyNum :=
  match x, y with
  | PyInt a, PyInt b => Ok (PyInt (a * b))
  | _, _ =>
      a ← py_float x; b ← py_float y; Ok (PyFloat (SFmul prec emax a b))
  end.

(** [x + y] *)
Definition py_add (x y : PyNum) : result PyNum :=
  match x, y with
  | PyInt a, PyInt b => Ok (PyInt (a + b))
  | _, _ =>
      a ← py_float x; b ← py_float y; Ok (PyFloat (SFadd prec emax a b))
  end.

(** [int(x)]: truncation toward zero; a NaN and the infinities raise. *)
Definition py_int (x : PyNum) : result Z :=
  match x with
  | PyInt n => Ok n
  | PyFloat S754_nan => Raise ValueError
  | PyFloat (S754_infinity _) => Raise OverflowError
  | PyFloat (S754_zero _) => Ok 0
  | PyFloat (S754_finite s m e) =>
      Ok (cond_Zopp s
            (if 0 <=? e then Z.pos m * 2 ^ e else Z.pos m `div` 2 ^ (- e)))
  end.

(** [str | bool], the type of [output_imu_timestamps]. *)
Inductive StrOrBool :=
| PyBool (b : bool)
| PyStr (s : string).

(** [x is True] *)
Definition is_True (x : StrOrBool) : bool :=
  match x with
  | PyBool true => true
  | _ => false
  end.

(** [code == x] for a string [code]: a string never equals a bool. *)
Definition str_eq (code : string) (x : StrOrBool) : bool :=
  match x with
  | PyStr s => bool_decide (code = s)
  | PyBool _ => false
  end.

(** Truth value of [x], as in [not x] and [if x]. *)
Definition truthy (x : StrOrBool) : bool :=
  match x with
  | PyBool b => b
  | PyStr s => negb (bool_decide (s = EmptyString))
  end.

(** ** Abstract events (hhd.controller.base.Event) *)

Inductive EvType := axis | button | configuration | rumble_t.

#[global] Instance EvType_eq_dec : EqDecision EvType.
Proof. solve_decision. Defined.

#[global] Instance EvType_countable : Countable EvType.
Proof.
  refine (inj_countable'
    (fun t => match t with
              | axis => 0%nat | button => 1%nat
              | configuration => 2%nat | rumble_t => 3%nat end)
    (fun n => match n with
              | 0%nat => axis | 1%nat => button
              | 2%nat => configuration | _ => rumble_t end) _).
  intros []; reflexivity.
Defined.

(** The dict [{"type": ..., "code": ..., "value": ...}], one constructor
    per ["type"]. *)
Inductive Event :=
| AxisEvent (code : string) (value : PyNum)
| ButtonEvent (code : string) (value : bool)
| ConfigurationEvent (code : string) (value : PyNum)
| RumbleEvent (code : string) (weak_magnitude strong_magnitude : PyNum).

Definition ev_type (ev : Event) : EvType :=
  match ev with
  | AxisEvent _ _ => axis
  | ButtonEvent _ _ => button
  | ConfigurationEvent _ _ => configuration
  | RumbleEvent _ _ _ => rumble_t
  end.

Definition ev_code (ev : Event) : string :=
  match ev with
  | AxisEvent c _ | ButtonEvent c _ | ConfigurationEvent c _
  | RumbleEvent c _ _ => c
  end.

(** [key = (ev["type"], ev["code"])] *)
Definition ev_key (ev : Event) : EvType * string := (ev_type ev, ev_code ev).

(** ** The evdev device *)

(** Modelled from the spec: the type [AX] of const.py, which is not among
    the sources; the spec's AxisMapping is
    {device_axis_id, scale, offset, bounds:(min,max)|none}. *)
Record AX := {
  ax_id : Z;
  scale : PyNum;
  offset : PyNum;
  bounds : option (Z * Z);
}.

Record InputEvent := {
  ie_type : Z;
  ie_code : Z;
  ie_value : Z;
}.

Record ff_rumble_effect := {
  strong_magnitude : Z;
  weak_magnitude : Z;
}.

Record ff_effect := {
  ff_type : Z;
  u_ff_rumble_effect : ff_rumble_effect;
}.

(** [evdev.ff.UInputUpload], the object [begin_upload] returns and
    [end_upload] hands back. *)
Record UInputUpload := {
  request_id : Z;
  retval : Z;
  effect : ff_effect;
}.

(** A call on the device that the operating system observes. *)
Inductive DevOp :=
| Write (etype code value : Z)
| Syn
| EndUpload (request_id retval : Z)
| EndErase (request_id retval : Z).

#[global] Instance DevOp_eq_dec : EqDecision DevOp.
Proof. solve_decision. Defined.

(** An open [evdev.UInput] (or [UInputMonkey]) object.
    [readable] is what the descriptor still holds: [can_read] is true while
    it is not empty and each [read()] takes its first batch.
    For the request [request_id], [begin_upload] answers with the effect
    [ff_requests request_id] and the result [ff_retval request_id], both
    filled in by the kernel. *)
Record Device := {
  dev_fd : Z;
  written : list DevOp;
  readable : list (list InputEvent);
  ff_requests : Z -> ff_effect;
  ff_retval : Z -> Z;
}.

(** [self.dev.begin_upload(request_id)] *)
Definition begin_upload (d : Device) (id : Z) : UInputUpload :=
  {| request_id := id; retval := ff_retval d id; effect := ff_requests d id |}.

(** The values evdev's [write] takes: it parses its arguments as C ints. *)
Definition c_int (n : Z) : bool := (- 2 ^ 31 <=? n) && (n <? 2 ^ 31).

(** The keyword arguments both constructors of the device take. *)
Record CtorArgs := {
  a_events : list (Z * list Z);
  a_name : string;
  a_vendor : Z;
  a_product : Z;
  a_bustype : Z;
  a_phys : string;
  a_input_props : list Z;
}.

(** ** The instance *)

(** The arguments of [__init__]. *)
Record Config := {
  capabilities : list (Z * list Z);
  btn_map : gmap string Z;
  axis_map : gmap string AX;
  vid : Z;
  pid : Z;
  bus : Z;
  name : string;
  phys : string;
  output_imu_timestamps : StrOrBool;
  output_timestamps : bool;
  input_props : list Z;
  ignore_cmds : bool;
  uniq : option string;
}.

Record UInputDevice := {
  conf : Config;
  dev : option Device;
  ofs : Z;
  sys_ofs : Z;
  rumble : option Event;
  fd : attr (option Z);
  input : attr unit;
  touchpad_aspect : attr PyNum;
  touch_id : attr Z;
}.

(** [__init__]: [fd], [input], [touchpad_aspect] and [touch_id] are not
    assigned. *)
Definition init (c : Config) : UInputDevice :=
  {| conf := c; dev := None; ofs := 0; sys_ofs := 0; rumble := None;
     fd := Unset; input := Unset; touchpad_aspect := Unset;
     touch_id := Unset |}.

Inductive LogRecord :=
| Info_opening (device_name : string)
| Error_monkey_patch_failed (e : PyExn)
| Warn_rumble_not_uploaded (ev : InputEvent)
| Info_unhandled_event (ev : InputEvent).


(** ** consume *)

(** The locals of [consume] ([wrote], [ts]) together with what its loop
    reads and assigns on [self]: [touchpad_aspect], [touch_id], and the
    calls made on [self.dev] so far in this call. *)
Record Frame := {
  wrote : gmap (EvType * string) Z;
  ts : Z;
  aspect : attr PyNum;
  tid : attr Z;
  out : list DevOp;
}.

(** [min(max(val, ax.bounds[0]), ax.bounds[1])] under [if ax.bounds]. *)
Definition clamp (b : option (Z * Z)) (val : Z) : Z :=
  match b with
  | Some (lo, hi) => Z.min (Z.max val lo) hi
  | None => val
  end.

(** [1 if value else 0]; also the value a bool has as a dict entry. *)
Definition bit (b : bool) : Z := if b then 1 else 0.

Definition imu_codes : list string := ["accel_ts"; "gyro_ts"; "imu_ts"].

(** [self.dev.write(etype, code, value)]: the three arguments are parsed
    in this order as C ints, an int out of range raising [OverflowError]
    and a float [TypeError]; what is accepted is one more call on the
    device. *)
Definition dev_write (etype code : Z) (value : PyNum) (fr : Frame)
  : result Frame :=
  if negb (c_int etype && c_int code) then Raise OverflowError else
  match value with
  | PyFloat _ => Raise TypeError
  | PyInt v =>
      if c_int v then
        Ok {| wrote := wrote fr; ts := ts fr; aspect := aspect fr;
              tid := tid fr; out := out fr ++ [Write etype code v] |}
      else Raise OverflowError
  end.

(** [int(ax.scale * value + ax.offset)], with the product by
    [self.touchpad_aspect] for [touchpad_x]. *)
Definition axis_int (a : attr PyNum) (ax : AX) (code : string)
    (value : PyNum) : result Z :=
  if bool_decide (code = "touchpad_x") then
    a ← getattr "touchpad_aspect" a;
    x ← py_mul (scale ax) value;
    y ← py_add x (offset ax);
    z ← py_mul a y;
    py_int z
  else
    x ← py_mul (scale ax) value;
    y ← py_add x (offset ax);
    py_int y.

Section Translation.

(** [B] of const.py: the number evdev gives to an event-code name. *)
Variable B : string -> Z.

Definition is_imu_ts (c : Config) (code : string) : bool :=
  (is_True (output_imu_timestamps c) && bool_decide (code ∈ imu_codes))
  || str_eq code (output_imu_timestamps c).

(** The body of [for ev in reversed(events)]. *)
Definition consume_ev (c : Config) (fr : Frame) (ev : Event)
  : result Frame :=
  let key := ev_key ev in
  if bool_decide (is_Some (wrote fr !! key)) then Ok fr else
  match ev with
  | AxisEvent code value =>
      match axis_map c !! code with
      | Some ax =>
          v ← axis_int (aspect fr) ax code value;
          let val := clamp (bounds ax) v in
          fr1 ← dev_write (B "EV_ABS") (ax_id ax) (PyInt val) fr;
          let fr2 :=
            {| wrote := <[key := val]> (wrote fr1); ts := ts fr1;
               aspect := aspect fr1; tid := tid fr1; out := out fr1 |} in
          if bool_decide (code = "touchpad_x") then
            dev_write (B "EV_ABS") (B "ABS_MT_POSITION_X") (PyInt val) fr2
          else if bool_decide (code = "touchpad_y") then
            dev_write (B "EV_ABS") (B "ABS_MT_POSITION_Y") (PyInt val) fr2
          else Ok fr2
      | None =>
          if is_imu_ts c code then
            match value with
            | PyInt n =>
                let t := (n `div` 1000) `mod` 2 ^ 32 in
                fr1 ← dev_write (B "EV_MSC") (B "MSC_TIMESTAMP") (PyInt t) fr;
                Ok {| wrote := <[key := t]> (wrote fr1); ts := t;
                      aspect := aspect fr1; tid := tid fr1;
                      out := out fr1 |} : result Frame
            | PyFloat _ =>
                (* [//] and [%] on a float give a float, and [write]
                   takes none, whatever its value *)
                dev_write (B "EV_MSC") (B "MSC_TIMESTAMP") value fr
            end
          else Ok fr
      end
  | ButtonEvent code value =>
      match btn_map c !! code with
      | Some b =>
          fr1 ← (if bool_decide (code = "touchpad_touch") then
                   id ← (if value then getattr "touch_id" (tid fr)
                         else Ok (-1));
                   f1 ← dev_write (B "EV_ABS") (B "ABS_MT_TRACKING_ID")
                          (PyInt id) fr;
                   f2 ← dev_write (B "EV_KEY") (B "BTN_TOOL_FINGER")
                          (PyInt (bit value)) f1;
                   t ← getattr "touch_id" (tid f2);
                   let t1 := t + 1 in
                   Ok {| wrote := wrote f2; ts := ts f2;
                         aspect := aspect f2;
                         tid := Attr (if 500 <? t1 then 1 else t1);
                         out := out f2 |}
                 else Ok fr);
          fr2 ← dev_write (B "EV_KEY") b (PyInt (bit value)) fr1;
          Ok {| wrote := <[key := bit value]> (wrote fr2); ts := ts fr2;
                aspect := aspect fr2; tid := tid fr2; out := out fr2 |}
      | None => Ok fr
      end
  | ConfigurationEvent code value =>
      if bool_decide (code = "touchpad_aspect_ratio") then
        a ← py_float value;
        Ok {| wrote := wrote fr; ts := ts fr; aspect := Attr (PyFloat a);
              tid := tid fr; out := out fr |}
      else Ok fr
  | RumbleEvent _ _ _ => Ok fr
  end.

(** The loop, over the events in the order it visits them. *)
Fixpoint consume_loop (c : Config) (fr : Frame) (evs : list Event)
  : result Frame :=
  match evs with
  | [] => Ok fr
  | ev :: rest => fr' ← consume_ev c fr ev; consume_loop c fr' rest
  end.

(** [wrote] as a condition: the dict is not empty. *)
Definition any_wrote (fr : Frame) : bool :=
  negb (bool_decide (wrote fr = ∅)).

(** The two statements after the loop; [now] is what
    [time.perf_counter_ns()] returns. *)
Definition consume_end (c : Config) (now : Z) (fr : Frame)
  : result Frame :=
  fr1 ← (if any_wrote fr && output_timestamps c then
           let t := (now `div` 1000) `mod` 2 ^ 32 in
           dev_write (B "EV_MSC") (B "MSC_TIMESTAMP") (PyInt t)
             {| wrote := wrote fr; ts := t; aspect := aspect fr;
                tid := tid fr; out := out fr |}
         else Ok fr);
  if any_wrote fr1
     && (negb (truthy (output_imu_timestamps c))
         || negb (bool_decide (ts fr1 = 0))) then
    Ok {| wrote := wrote fr1; ts := ts fr1; aspect := aspect fr1;
          tid := tid fr1; out := out fr1 ++ [Syn] |}
  else Ok fr1.

Definition enter (self : UInputDevice) : Frame :=
  {| wrote := ∅; ts := 0; aspect := touchpad_aspect self;
     tid := touch_id self; out := [] |}.

(** Everything [consume] does once [self.dev] is known to be set. *)
Definition consume_frame (now : Z) (self : UInputDevice)
    (events : list Event) : result Frame :=
  fr ← consume_loop (conf self) (enter self) (reverse events);
  consume_end (conf self) now fr.

(** What the device hands back for reading: a timestamp written to it is
    fed back (the comments in [open] and in [produce]). *)
Definition feedback (op : DevOp) : option (list InputEvent) :=
  match op with
  | Write etype code value =>
      if bool_decide (etype = B "EV_MSC")
         && bool_decide (code = B "MSC_TIMESTAMP")
      then Some [{| ie_type := etype; ie_code := code; ie_value := value |}]
      else None
  | _ => None
  end.

(** The device after the calls [ops]. *)
Definition dev_emit (d : Device) (ops : list DevOp) : Device :=
  {| dev_fd := dev_fd d; written := written d ++ ops;
     readable := readable d ++ omap feedback ops;
     ff_requests := ff_requests d; ff_retval := ff_retval d |}.

Definition consume (now : Z) (self : UInputDevice) (events : list Event)
  : result UInputDevice :=
  match dev self with
  | None => Ok self
  | Some d =>
      fr ← consume_frame now self events;
      Ok {| conf := conf self; dev := Some (dev_emit d (out fr));
            ofs := ofs self; sys_ofs := sys_ofs self;
            rumble := rumble self; fd := fd self; input := input self;
            touchpad_aspect := aspect fr; touch_id := tid fr |}
  end.

(** ** close *)

(** [self.dev.close()] ends the device; the object is dropped with it. *)
Definition close (self : UInputDevice) (exit : bool)
  : UInputDevice * bool :=
  ({| conf := conf self; dev := None; ofs := ofs self;
      sys_ofs := sys_ofs self; rumble := rumble self; fd := Attr None;
      input := Attr tt; touchpad_aspect := touchpad_aspect self;
      touch_id := touch_id self |}, true).

(** ** open *)

(** The two constructors: [UInputMonkey] of monkey.py, which is not among
    the sources, and evdev's [UInput].  Both take [ctor_args]; only the
    first takes [uniq]. *)
Variable UInputMonkey : CtorArgs -> option string -> result Device.
Variable UInput : CtorArgs -> result Device.

Definition ctor_args (c : Config) : CtorArgs :=
  {| a_events := capabilities c; a_name := name c; a_vendor := vid c;
     a_product := pid c; a_bustype := bus c; a_phys := phys c;
     a_input_props := input_props c |}.

(** What [open] does after [self.dev] is assigned. *)
Definition opened (self : UInputDevice) (d : Device)
  : UInputDevice * list Z :=
  ({| conf := conf self; dev := Some d; ofs := ofs self;
      sys_ofs := sys_ofs self; rumble := rumble self;
      fd := Attr (Some (dev_fd d)); input := input self;
      touchpad_aspect := Attr (PyInt 1); touch_id := Attr 1 |},
   if ignore_cmds (conf self) then [] else [dev_fd d]).

Definition open (self : UInputDevice)
  : result (UInputDevice * list Z) * list LogRecord :=
  let log := [Info_opening (name (conf self))] in
  match UInputMonkey (ctor_args (conf self)) (uniq (conf self)) with
  | Ok d => (Ok (opened self d), log)
  | Raise e =>
      let log := log ++ [Error_monkey_patch_failed e] in
      match UInput (ctor_args (conf self)) with
      | Ok d => (Ok (opened self d), log)
      | Raise e' => (Raise e', log)
      end
  end.

(** ** produce *)

(** [self.rumble], [out], the calls made on the device and the log
    records, while the descriptor is drained. *)
Record Drain := {
  d_rumble : option Event;
  d_out : list Event;
  d_ops : list DevOp;
  d_log : list LogRecord;
}.

(** [x / 0xFFFF] for a magnitude, a 16-bit field of the effect: on ints
    that a float holds exactly the quotient is the IEEE quotient of the
    two as floats. *)
Definition magnitude (x : Z) : PyNum :=
  PyFloat (SFdiv prec emax (float_of_Z x) (float_of_Z 65535)).

Definition uploaded (data : ff_rumble_effect) : Event :=
  RumbleEvent "main" (magnitude (weak_magnitude data))
    (magnitude (strong_magnitude data)).

Definition rumble_off : Event := RumbleEvent "main" 0 0.

(** The body of [for ev in self.dev.read()]. *)
Definition produce_ev (d : Device) (st : Drain) (ev : InputEvent)
  : Drain :=
  if bool_decide (ie_type ev = B "EV_MSC")
     && bool_decide (ie_code ev = B "MSC_TIMESTAMP") then st
  else if bool_decide (ie_type ev = B "EV_UINPUT") then
    if bool_decide (ie_code ev = B "UI_FF_UPLOAD") then
      let upload := begin_upload d (ie_value ev) in
      {| d_rumble :=
           if bool_decide (ff_type (effect upload) = B "FF_RUMBLE") then
             Some (uploaded (u_ff_rumble_effect (effect upload)))
           else d_rumble st;
         d_out := d_out st;
         d_ops := d_ops st
                  ++ [EndUpload (request_id upload) (retval upload)];
         d_log := d_log st |}
    else if bool_decide (ie_code ev = B "UI_FF_ERASE") then
      {| d_rumble := d_rumble st; d_out := d_out st;
         d_ops := d_ops st ++ [EndErase (ie_value ev) 0];
         d_log := d_log st |}
    else st
  else if bool_decide (ie_type ev = B "EV_FF")
          && negb (bool_decide (ie_value ev = 0)) then
    match d_rumble st with
    | Some r =>
        {| d_rumble := d_rumble st; d_out := d_out st ++ [r];
           d_ops := d_ops st; d_log := d_log st |}
    | None =>
        {| d_rumble := d_rumble st; d_out := d_out st; d_ops := d_ops st;
           d_log := d_log st ++ [Warn_rumble_not_uploaded ev] |}
    end
  else if bool_decide (ie_type ev = B "EV_FF")
          && bool_decide (ie_value ev = 0) then
    {| d_rumble := d_rumble st; d_out := d_out st ++ [rumble_off];
       d_ops := d_ops st; d_log := d_log st |}
  else
    {| d_rumble := d_rumble st; d_out := d_out st; d_ops := d_ops st;
       d_log := d_log st ++ [Info_unhandled_event ev] |}.

(** [while can_read(self.fd): for ev in self.dev.read(): ...] *)
Definition drain (d : Device) (r : option Event) : Drain :=
  fold_left (fun st batch => fold_left (produce_ev d) batch st)
    (readable d)
    {| d_rumble := r; d_out := []; d_ops := []; d_log := [] |}.

Definition produce (self : UInputDevice) (fds : list Z)
  : result (UInputDevice * list Event * list LogRecord) :=
  if ignore_cmds (conf self) then Ok (self, [], []) else
  f ← getattr "fd" (fd self);
  match f with
  | None => Ok (self, [], [])
  | Some n =>
      if bool_decide (n = 0) || negb (bool_decide (n ∈ fds)) then
        Ok (self, [], [])
      else
        match dev self with
        | None => Ok (self, [], [])
        | Some d =>
            let st := drain d (rumble self) in
            Ok ({| conf := conf self;
                   dev := Some {| dev_fd := dev_fd d;
                                  written := written d ++ d_ops st;
                                  readable := [];
                                  ff_requests := ff_requests d;
                                  ff_retval := ff_retval d |};
                   ofs := ofs self; sys_ofs := sys_ofs self;
                   rumble := d_rumble st; fd := fd self;
                   input := input self;
                   touchpad_aspect := touchpad_aspect self;
                   touch_id := touch_id self |},
                d_out st, d_log st)
        end
  end.

End Translation.

(** ** A concrete device, for evaluating the definitions *)

Module Sample.

(** The numbers of linux/input-event-codes.h and linux/uinput.h for the
    names this file uses. *)
Definition ecodes : list (string * Z) :=
  [("EV_KEY", 1); ("EV_ABS", 3); ("EV_MSC", 4); ("EV_FF", 21);
   ("EV_UINPUT", 257); ("MSC_TIMESTAMP", 5); ("ABS_X", 0); ("ABS_Y", 1);
   ("ABS_MT_POSITION_X", 53); ("ABS_MT_POSITION_Y", 54);
   ("ABS_MT_TRACKING_ID", 57); ("BTN_TOOL_FINGER", 325);
   ("BTN_SOUTH", 304); ("BTN_TOUCH", 330); ("UI_FF_UPLOAD", 1);
   ("UI_FF_ERASE", 2); ("FF_RUMBLE", 80)].

Fixpoint assoc (l : list (string * Z)) (k : string) : Z :=
  match l with
  | [] => 0
  | (k', v) :: rest => if bool_decide (k = k') then v else assoc rest k
  end.

Definition B : string -> Z := assoc ecodes.

Definition buttons : gmap string Z :=
  <["a" := B "BTN_SOUTH"]> (<["touchpad_touch" := B "BTN_TOUCH"]> ∅).

Definition axes : gmap string AX :=
  <["left_stick_x" :=
      {| ax_id := B "ABS_X"; scale := 1; offset := 0;
         bounds := Some (-32767, 32767) |}]>
  (<["touchpad_x" :=
      {| ax_id := B "ABS_X"; scale := 1023; offset := 0;
         bounds := Some (0, 2048) |}]>
  (<["touchpad_y" :=
      {| ax_id := B "ABS_Y"; scale := 1023; offset := 0;
         bounds := Some (0, 2048) |}]>
  (<["rs_raw" :=
      {| ax_id := 2; scale := 10; offset := 5; bounds := None |}]> ∅))).

Definition config (imu : StrOrBool) (timestamps : bool) : Config :=
  {| capabilities := []; btn_map := buttons; axis_map := axes;
     vid := 0x5335; pid := 0x01; bus := 0x03;
     name := "Handheld Daemon Controller"; phys := "phys-hhd-gamepad";
     output_imu_timestamps := imu; output_timestamps := timestamps;
     input_props := []; ignore_cmds := false; uniq := None |}.

(** A device that hands out one rumble effect for every upload, with
    the results [answers]. *)
Definition answering (answers : Z -> Z) (pending : list (list InputEvent))
  : Device :=
  {| dev_fd := 7; written := []; readable := pending;
     ff_requests := fun _ =>
       {| ff_type := B "FF_RUMBLE";
          u_ff_rumble_effect :=
            {| strong_magnitude := 32768; weak_magnitude := 65535 |} |};
     ff_retval := answers |}.

Definition device (pending : list (list InputEvent)) : Device :=
  answering (fun _ => 0) pending.

(** The instance after a successful [open]. *)
Definition fresh (c : Config) (d : Device) : UInputDevice :=
  {| conf := c; dev := Some d; ofs := 0; sys_ofs := 0; rumble := None;
     fd := Attr (Some (dev_fd d)); input := Unset;
     touchpad_aspect := Attr (PyInt 1); touch_id := Attr 1 |}.

Definition plain : UInputDevice :=
  fresh (config (PyBool false) false) (device []).

(** The float a decimal literal [n/d] stands for, for small [n] and [d]:
    the float nearest to the quotient. *)
Definition decimal (n d : Z) : PyNum :=
  PyFloat (SFdiv prec emax (float_of_Z n) (float_of_Z d)).

End Sample.


(** ** Vocabulary of the statements *)

(** The keys [consume] translates: a mapped axis, a sensor timestamp that
    is switched on, a mapped button. *)
Definition key_written (c : Config) (k : EvType * string) : bool :=
  match k.1 with
  | axis => bool_decide (is_Some (axis_map c !! k.2)) || is_imu_ts c k.2
  | button => bool_decide (is_Some (btn_map c !! k.2))
  | _ => false
  end.

Definition writable (c : Config) (ev : Event) : bool :=
  key_written c (ev_key ev).

(** An axis code that is taken as a sensor timestamp. *)
Definition sensor_ts (c : Config) (code : string) : Prop :=
  axis_map c !! code = None ∧ is_imu_ts c code = true.

Definition is_write (op : DevOp) : bool :=
  match op with
  | Write _ _ _ => true
  | _ => false
  end.

(** A call on the device whose arguments evdev accepts. *)
Definition fits (op : DevOp) : bool :=
  match op with
  | Write etype code value => c_int etype && c_int code && c_int value
  | _ => true
  end.
Arguments fits : simpl never.

(** The event is the upload of a rumble effect, as [produce] reads it. *)
Definition is_rumble_upload (B : string -> Z) (d : Device) (ev : InputEvent)
  : bool :=
  negb (bool_decide (ie_type ev = B "EV_MSC")
        && bool_decide (ie_code ev = B "MSC_TIMESTAMP"))
  && bool_decide (ie_type ev = B "EV_UINPUT")
  && bool_decide (ie_code ev = B "UI_FF_UPLOAD")
  && bool_decide (ff_type (ff_requests d (ie_value ev)) = B "FF_RUMBLE").

(** The locals of [produce] before the first event is read. *)
Definition drain_start (r : option Event) : Drain :=
  {| d_rumble := r; d_out := []; d_ops := []; d_log := [] |}.

(** What holds of an instance whenever it has a device: [open] has left
    the descriptor and both touch attributes, and [touch_id] is between 1
    and 500. *)
Definition ready (self : UInputDevice) : Prop :=
  ∀ d, dev self = Some d →
       fd self = Attr (Some (dev_fd d))
       ∧ (∃ a, touchpad_aspect self = Attr a)
       ∧ (∃ t, touch_id self = Attr t ∧ 1 ≤ t ≤ 500).

Definition aspect_key : EvType * string :=
  (configuration, "touchpad_aspect_ratio").

Definition touch_key : EvType * string := (button, "touchpad_touch").

(** A sensor timestamp is among the keys written. *)
Definition stamped (c : Config) (fr : Frame) : Prop :=
  ∃ code, sensor_ts c code ∧ is_Some (wrote fr !! (axis, code)).

(** [touch_id] after [self.touch_id += 1] and the test against 500. *)
Definition next_touch_id (t : Z) : Z := if 500 <? t + 1 then 1 else t + 1.

(** [(n // 1000) % 2**32] on an int: nanoseconds as microseconds within
    32 bits. *)
Definition microseconds (n : Z) : Z := (n `div` 1000) `mod` 2 ^ 32.

Section Vocabulary.

Variable B : string -> Z.

(** What the statements after the loop of [consume] append. *)
Definition closing (c : Config) (now : Z) (fr : Frame) : list DevOp :=
  let stamp := any_wrote fr && output_timestamps c in
  let t := if stamp then (now `div` 1000) `mod` 2 ^ 32 else ts fr in
  (if stamp then [Write (B "EV_MSC") (B "MSC_TIMESTAMP") t] else [])
  ++ (if any_wrote fr
         && (negb (truthy (output_imu_timestamps c))
             || negb (bool_decide (t = 0)))
      then [Syn] else []).

(** The copy of a touch axis on the multi-touch position axis. *)
Definition mirror (code : string) (val : Z) : list DevOp :=
  if bool_decide (code = "touchpad_x") then
    [Write (B "EV_ABS") (B "ABS_MT_POSITION_X") val]
  else if bool_decide (code = "touchpad_y") then
    [Write (B "EV_ABS") (B "ABS_MT_POSITION_Y") val]
  else [].

(** The two writes that go before the button write of [touchpad_touch]:
    the tracking id and the tool flag. *)
Definition finger (t : Z) (value : bool) : list DevOp :=
  [Write (B "EV_ABS") (B "ABS_MT_TRACKING_ID") (if value then t else -1);
   Write (B "EV_KEY") (B "BTN_TOOL_FINGER") (bit value)].

(** The values written on the tracking-id axis, in order. *)
Definition tracking_ids (ops : list DevOp) : list Z :=
  omap (fun op =>
          match op with
          | Write t code v =>
              if bool_decide (t = B "EV_ABS")
                 && bool_decide (code = B "ABS_MT_TRACKING_ID")
              then Some v else None
          | _ => None
          end) ops.

(** A timestamp as the device hands it back. *)
Definition echo (v : Z) : InputEvent :=
  {| ie_type := B "EV_MSC"; ie_code := B "MSC_TIMESTAMP"; ie_value := v |}.

(** The values of the timestamps among the calls, in order. *)
Definition timestamps (ops : list DevOp) : list Z :=
  omap (fun op =>
          match op with
          | Write t code v =>
              if bool_decide (t = B "EV_MSC")
                 && bool_decide (code = B "MSC_TIMESTAMP")
              then Some v else None
          | _ => None
          end) ops.

(** What the body appends for an event it translates: the one write of
    the event, after the tracking id and the tool flag when the event is
    [touchpad_touch], before the copy on the multi-touch axis when it is
    [touchpad_x] or [touchpad_y]. *)
Definition own_write (c : Config) (fr : Frame) (e : Event)
    (step : list DevOp) : Prop :=
  match e with
  | AxisEvent code raw =>
      match axis_map c !! code with
      | Some ax =>
          ∃ v, axis_int (aspect fr) ax code raw = Ok v
               ∧ step
                 = Write (B "EV_ABS") (ax_id ax) (clamp (bounds ax) v)
                   :: mirror code (clamp (bounds ax) v)
      | None =>
          ∃ n, raw = PyInt n
               ∧ step
                 = [Write (B "EV_MSC") (B "MSC_TIMESTAMP")
                      ((n `div` 1000) `mod` 2 ^ 32)]
      end
  | ButtonEvent code v =>
      ∃ b, btn_map c !! code = Some b
           ∧ if bool_decide (code = "touchpad_touch") then
               ∃ t, tid fr = Attr t
                    ∧ step
                      = [Write (B "EV_ABS") (B "ABS_MT_TRACKING_ID")
                           (if v then t else -1);
                         Write (B "EV_KEY") (B "BTN_TOOL_FINGER") (bit v);
                         Write (B "EV_KEY") b (bit v)]
             else step = [Write (B "EV_KEY") b (bit v)]
  | _ => False
  end.

(** What the body of the loop of [consume] has done when it returns: it
    has skipped the event, translated it with the writes the device has
    accepted, taken a new aspect ratio, or passed the event over. *)
Inductive translated (c : Config) (fr : Frame) : Event → Frame → Prop :=
| translated_skip ev :
    is_Some (wrote fr !! ev_key ev) → translated c fr ev fr
| translated_axis code value ax v :
    wrote fr !! (axis, code) = None →
    axis_map c !! code = Some ax →
    axis_int (aspect fr) ax code value = Ok v →
    forallb fits
      (Write (B "EV_ABS") (ax_id ax) (clamp (bounds ax) v)
       :: mirror code (clamp (bounds ax) v)) = true →
    translated c fr (AxisEvent code value)
      {| wrote := <[(axis, code) := clamp (bounds ax) v]> (wrote fr);
         ts := ts fr; aspect := aspect fr; tid := tid fr;
         out := out fr
                ++ Write (B "EV_ABS") (ax_id ax) (clamp (bounds ax) v)
                   :: mirror code (clamp (bounds ax) v) |}
| translated_ts code n :
    wrote fr !! (axis, code) = None →
    axis_map c !! code = None →
    is_imu_ts c code = true →
    fits (Write (B "EV_MSC") (B "MSC_TIMESTAMP") (microseconds n)) = true →
    translated c fr (AxisEvent code (PyInt n))
      {| wrote := <[(axis, code) := microseconds n]> (wrote fr);
         ts := microseconds n; aspect := aspect fr; tid := tid fr;
         out := out fr
                ++ [Write (B "EV_MSC") (B "MSC_TIMESTAMP")
                      (microseconds n)] |}
| translated_button code value b :
    wrote fr !! (button, code) = None →
    btn_map c !! code = Some b →
    code ≠ "touchpad_touch" →
    fits (Write (B "EV_KEY") b (bit value)) = true →
    translated c fr (ButtonEvent code value)
      {| wrote := <[(button, code) := bit value]> (wrote fr);
         ts := ts fr; aspect := aspect fr; tid := tid fr;
         out := out fr ++ [Write (B "EV_KEY") b (bit value)] |}
| translated_touch value b t :
    wrote fr !! touch_key = None →
    btn_map c !! "touchpad_touch" = Some b →
    tid fr = Attr t →
    forallb fits (finger t value ++ [Write (B "EV_KEY") b (bit value)])
    = true →
    translated c fr (ButtonEvent "touchpad_touch" value)
      {| wrote := <[touch_key := bit value]> (wrote fr);
         ts := ts fr; aspect := aspect fr;
         tid := Attr (next_touch_id t);
         out := out fr
                ++ finger t value ++ [Write (B "EV_KEY") b (bit value)] |}
| translated_aspect value a :
    wrote fr !! aspect_key = None →
    py_float value = Ok a →
    translated c fr (ConfigurationEvent "touchpad_aspect_ratio" value)
      {| wrote := wrote fr; ts := ts fr; aspect := Attr (PyFloat a);
         tid := tid fr; out := out fr |}
| translated_ignored ev :
    wrote fr !! ev_key ev = None →
    writable c ev = false →
    (∀ value, ev ≠ ConfigurationEvent "touchpad_aspect_ratio" value) →
    translated c fr ev fr.

End Vocabulary.

(** What [consume] may call the device with: a write on the absolute or
    the key category, a 32-bit timestamp, or the synchronization. *)
Definition consume_op (B : string -> Z) (op : DevOp) : Prop :=
  match op with
  | Write t code v =>
      t = B "EV_ABS" ∨ t = B "EV_KEY"
      ∨ (t = B "EV_MSC" ∧ code = B "MSC_TIMESTAMP" ∧ 0 ≤ v < 2 ^ 32)
  | Syn => True
  | _ => False
  end.

(** The exceptions of a number that cannot be converted or written. *)
Definition numeric (e : PyExn) : Prop :=
  e = OverflowError ∨ e = TypeError ∨ e = ValueError.

(** A timestamp that the device echoes back. *)
Definition is_echo (B : string -> Z) (ev : InputEvent) : bool :=
  bool_decide (ie_type ev = B "EV_MSC")
  && bool_decide (ie_code ev = B "MSC_TIMESTAMP").

(** The acknowledgement [produce] owes for an event it reads: for an
    upload, what [begin_upload] answered, handed back as it is; for an
    erase, the result 0. *)
Definition ack (B : string -> Z) (d : Device) (ev : InputEvent)
  : option DevOp :=
  if is_echo B ev then None
  else if bool_decide (ie_type ev = B "EV_UINPUT") then
    if bool_decide (ie_code ev = B "UI_FF_UPLOAD") then
      Some (EndUpload (ie_value ev) (ff_retval d (ie_value ev)))
    else if bool_decide (ie_code ev = B "UI_FF_ERASE") then
      Some (EndErase (ie_value ev) 0)
    else None
  else None.

(** The same instance holding another device. *)
Definition with_dev (self : UInputDevice) (d : Device) : UInputDevice :=
  {| conf := conf self; dev := Some d; ofs := ofs self;
     sys_ofs := sys_ofs self; rumble := rumble self; fd := fd self;
     input := input self; touchpad_aspect := touchpad_aspect self;
     touch_id := touch_id self |}.

(** The same device holding other events for reading. *)
Definition with_readable (d : Device) (pending : list (list InputEvent))
  : Device :=
  {| dev_fd := dev_fd d; written := written d; readable := pending;
     ff_requests := ff_requests d; ff_retval := ff_retval d |}.

(** [0.0 <= f <= 1.0] on a float *)
Definition unit_float (f : spec_float) : bool :=
  SFleb (S754_zero false) f && SFleb f (float_of_Z 1).

(** [0 <= x <= 1] *)
Definition unit_interval (x : PyNum) : Prop :=
  match x with
  | PyInt n => 0 ≤ n ≤ 1
  | PyFloat f => unit_float f = true
  end.

(** A rumble event as the rest of the daemon expects it: code [main] and
    both magnitudes between 0 and 1. *)
Definition normalized (ev : Event) : Prop :=
  match ev with
  | RumbleEvent code w s =>
      code = "main" ∧ unit_interval w ∧ unit_interval s
  | _ => False
  end.

(** The magnitudes of every effect the device can hand out are 16-bit. *)
Definition magnitudes_16bit (d : Device) : Prop :=
  ∀ id,
    0 ≤ weak_magnitude (u_ff_rumble_effect (ff_requests d id)) ≤ 65535
    ∧ 0 ≤ strong_magnitude (u_ff_rumble_effect (ff_requests d id)) ≤ 65535.

(** Calls of [consume] one after the other, each with the reading of the
    clock it gets. *)
Fixpoint consume_calls (B : string -> Z) (self : UInputDevice)
    (calls : list (Z * list Event)) : result UInputDevice :=
  match calls with
  | [] => Ok self
  | (now, evs) :: rest =>
      self' ← consume B now self evs; consume_calls B self' rest
  end.

(** The sample instance with events waiting to be read. *)
Definition reading (pending : list (list InputEvent)) : UInputDevice :=
  Sample.fresh (Sample.config (PyBool false) false) (Sample.device pending).

(** ** hhd.plugins.bootc: the branch of an image reference *)

Module Bootc.

(** [s.startswith(sub)] *)
Fixpoint starts_with (sub s : string) : bool :=
  match sub, s with
  | EmptyString, _ => true
  | String a sub', String b s' => bool_decide (a = b) && starts_with sub' s'
  | String _ _, EmptyString => false
  end.

(** [sub in s].  A string is its bytes here; for text in UTF-8 a byte
    sequence occurs in another exactly when the text does. *)
Fixpoint str_in (sub s : string) : bool :=
  starts_with sub s
  || match s with
     | EmptyString => false
     | String _ s' => str_in sub s'
     end.

(** [s.rindex(c)] for a character [c]: the highest index it occurs at;
    [ValueError] when it does not occur. *)
Fixpoint rindex (c : ascii) (s : string) : result nat :=
  match s with
  | EmptyString => Raise (OtherException "ValueError")
  | String a s' =>
      match rindex c s' with
      | Ok i => Ok (S i)
      | Raise e => if bool_decide (a = c) then Ok 0%nat else Raise e
      end
  end.

(** [s[n:]] *)
Fixpoint slice_from (n : nat) (s : string) : string :=
  match n, s with
  | O, _ => s
  | S n', String _ s' => slice_from n' s'
  | S _, EmptyString => EmptyString
  end.

(** [next(iter(branches))]: the first key of the dict; [StopIteration]
    when it is empty. *)
Definition first_branch (branches : list (string * string))
  : result (option string) :=
  match branches with
  | (k, _) :: _ => Ok (Some k)
  | [] => Raise (OtherException "StopIteration")
  end.

(** [get_branch]; [branches] is the dict as its items in insertion order,
    a result of [None] is Python's [None]. *)
Definition get_branch (ref : string) (branches : list (string * string))
    (fallback : bool) : result (option string) :=
  if negb (str_in ":" ref) then first_branch branches
  else
    i ← rindex ":"%char ref;
    let curr_tag := slice_from (i + 1) ref in
    match find (λ branch, str_in branch curr_tag) branches.*1 with
    | Some branch => Ok (Some branch)
    | None => if negb fallback then Ok None else first_branch branches
    end.

(** [BRANCHES] as [BootcPlugin.__init__] splits its default. *)
Definition default_branches : list (string * string) :=
  [("stable", "Stable"); ("testing", "Testing"); ("unstable", "Unstable")].

End Bootc.

(** ** hhd.plugins.settings: configuration values *)

Module Settings.

#[local] Unset Elimination Schemes.

(** What [yaml.safe_load] returns and [Config] holds: a dict is its items
    in insertion order, with strings for keys. *)
Inductive value :=
| VNone
| VBool (b : bool)
| VInt (z : Z)
| VFloat (x : spec_float)
| VStr (s : string)
| VList (l : list value)
| VMap (items : list (string * value)).

#[local] Set Elimination Schemes.

(** [v is None] *)
Definition is_none (v : value) : bool :=
  match v with
  | VNone => true
  | _ => false
  end.

(** [d.get(k, None)] as an option. *)
Fixpoint dict_get (k : string) (d : list (string * value)) : option value :=
  match d with
  | [] => None
  | (k', v) :: rest => if bool_decide (k = k') then Some v else dict_get k rest
  end.

(** [d[k] = v]: in place when the key is there, at the end otherwise. *)
Fixpoint dict_set (k : string) (v : value) (d : list (string * value))
  : list (string * value) :=
  match d with
  | [] => [(k, v)]
  | (k', v') :: rest =>
      if bool_decide (k = k') then (k, v) :: rest
      else (k', v') :: dict_set k v rest
  end.

(** The loop [for k, l in ...: if l is not None: out[k] = l], from
    [out]. *)
Definition collect (pairs out : list (string * value))
  : list (string * value) :=
  fold_left (λ out kl, if is_none kl.2 then out else dict_set kl.1 kl.2 out)
    pairs out.

(** [strip_defaults]; the recursive calls of the loop are made first, over
    the items in their order, and their results are then put in [out]. *)
Fixpoint strip_defaults (c : value) : value :=
  match c with
  | VStr s =>
      if bool_decide (s = "default") || bool_decide (s = "unset") then VNone
      else c
  | VMap items =>
      match collect (map (λ '(k, v), (k, strip_defaults v)) items) [] with
      | [] => VNone
      | out => VMap out
      end
  | _ => c
  end.

(** A value without placeholder: not [None], not ["default"] or ["unset"],
    and when a dict, not empty and with such values only.  Lists are not
    looked into, as [strip_defaults] does not look into them. *)
Fixpoint clean (v : value) : bool :=
  match v with
  | VNone => false
  | VStr s => negb (bool_decide (s = "default") || bool_decide (s = "unset"))
  | VMap items =>
      match items with
      | [] => false
      | _ => forallb (λ '(_, v), clean v) items
      end
  | _ => true
  end.

(** The keys of every dict are distinct, as they are in a Python dict. *)
Fixpoint dict_like (v : value) : Prop :=
  match v with
  | VMap items =>
      NoDup items.*1
      ∧ (fix all (items : list (string * value)) : Prop :=
           match items with
           | [] => True
           | (_, v) :: rest => dict_like v ∧ all rest
           end) items
  | _ => True
  end.

End Settings.

(** ** hhd.plugins.settings: merge_dicts *)

Module SettingsMerge.

Import Settings.

(** [del d[k]] *)
Fixpoint dict_del (k : string) (d : list (string * value))
  : list (string * value) :=
  match d with
  | [] => []
  | (k', v) :: rest =>
      if bool_decide (k = k') then rest else (k', v) :: dict_del k rest
  end.

(** [for k in list(out.keys()): if out[k] is None: del out[k]] *)
Definition prune (out : list (string * value)) : list (string * value) :=
  fold_left
    (λ out k,
       match dict_get k out with
       | Some VNone => dict_del k out
       | _ => out
       end)
    out.*1 out.

(** [merge_dicts]: [b] laid over [a]. *)
Fixpoint merge_dicts (a b : value) {struct b} : value :=
  match b with
  | VMap bitems =>
      let out :=
        match a with
        | VMap aitems =>
            fold_left
              (λ out '(k, v),
                 dict_set k
                   (merge_dicts (default VNone (dict_get k out)) v) out)
              bitems aitems
        | _ =>
            fold_left (λ out '(k, v), dict_set k (merge_dicts VNone v) out)
              bitems []
        end in
      match prune out with
      | [] => VNone
      | out => VMap out
      end
  | _ => b
  end.

(** Reading a key of what [merge_dicts] returns, [None] standing for the
    empty dict. *)
Definition lookup (k : string) (v : value) : option value :=
  match v with
  | VMap items => dict_get k items
  | _ => None
  end.

(** A value as the entry of a dict that holds no [None]. *)
Definition entry (v : value) : option value :=
  if is_none v then None else Some v.

End SettingsMerge.

(** ** hhd.plugins.settings: standard_validator *)

Module SettingsValidate.

Import Settings.

(** The truth value of a value, as in [not value]. *)
Definition truth (v : value) : bool :=
  match v with
  | VNone => false
  | VBool b => b
  | VInt z => negb (bool_decide (z = 0))
  | VFloat (S754_zero _) => false
  | VFloat _ => true
  | VStr s => negb (bool_decide (s = EmptyString))
  | VList l => negb (bool_decide (l = []))
  | VMap items => negb (bool_decide (items.*1 = []))
  end.

(** [isinstance(v, (int, float))]; a [bool] is an [int]. *)
Definition is_number (v : value) : bool :=
  match v with
  | VBool _ | VInt _ | VFloat _ => true
  | _ => false
  end.

(** [isinstance(v, str)] *)
Definition is_str (v : value) : bool :=
  match v with
  | VStr _ => true
  | _ => false
  end.

(** [standard_validator]; a result of [None] is the end of the function
    reached without a [return]. *)
Definition standard_validator (tags : list string) (config value : value)
  : result (option bool) :=
  if bool_decide ("progress" ∈ tags) then
    if negb (truth value) then Ok (Some false) else
    match value with
    | VMap items =>
        if match dict_get "value" items with
           | Some x => negb (is_number x)
           | None => false
           end
        then Ok (Some false)
        else if bool_decide (dict_get "max" items = None)
                && bool_decide (is_Some (dict_get "value" items))
        then Ok (Some false)
        else
          match dict_get "max" items with
          | None => Raise (OtherException "KeyError")
          | Some m =>
              if negb (is_number m) then Ok (Some false)
              else if match dict_get "unit" items with
                      | Some u => negb (is_str u)
                      | None => false
                      end
              then Ok (Some false)
              else if match dict_get "text" items with
                      | Some t => negb (is_str t)
                      | None => false
                      end
              then Ok (Some false)
              else Ok None
          end
    | _ => Ok (Some false)
    end
  else Ok None.

End SettingsValidate.


(** ** The loop of consume, one event at a time *)

Section ConsumeStep.

Variable B : string -> Z.
Variable c : Config.

Lemma dev_write_Ok etype code value fr fr' :
  dev_write etype code value fr = Ok fr'
  ↔ ∃ n, value = PyInt n
         ∧ fits (Write etype code n) = true
         ∧ fr' = {| wrote := wrote fr; ts := ts fr; aspect := aspect fr;
                    tid := tid fr;
                    out := out fr ++ [Write etype code n] |}.
Proof.
  unfold dev_write, fits. split.
  - destruct (c_int etype && c_int code); simpl; [|done].
    destruct value as [n|x]; [|done].
    destruct (c_int n) eqn:Hn; [|done]. intros [= <-]. by exists n.
  - intros (n & -> & Hf & ->).
    apply andb_true_iff in Hf as [-> ->]. done.
Qed.

Lemma dev_write_int etype code n fr :
  fits (Write etype code n) = true →
  dev_write etype code (PyInt n) fr
  = Ok {| wrote := wrote fr; ts := ts fr; aspect := aspect fr;
          tid := tid fr; out := out fr ++ [Write etype code n] |}.
Proof. intros H. apply dev_write_Ok. by exists n. Qed.

Lemma dev_write_refused etype code n fr :
  fits (Write etype code n) = false →
  dev_write etype code (PyInt n) fr = Raise OverflowError.
Proof.
  unfold dev_write, fits.
  destruct (c_int etype && c_int code); simpl; [|done]. by intros ->.
Qed.

Lemma writable_axis code v ax :
  axis_map c !! code = Some ax → writable c (AxisEvent code v) = true.
Proof.
  intros H. unfold writable, key_written. simpl. rewrite H.
  by rewrite bool_decide_eq_true_2 by eauto.
Qed.

Lemma writable_ts code v :
  is_imu_ts c code = true → writable c (AxisEvent code v) = true.
Proof.
  intros H. unfold writable, key_written. simpl. rewrite H.
  apply orb_true_r.
Qed.

Lemma writable_button code v b :
  btn_map c !! code = Some b → writable c (ButtonEvent code v) = true.
Proof.
  intros H. unfold writable, key_written. simpl. rewrite H.
  by rewrite bool_decide_eq_true_2 by eauto.
Qed.

Lemma unwritable_axis code v :
  axis_map c !! code = None → is_imu_ts c code = false →
  writable c (AxisEvent code v) = false.
Proof.
  intros H1 H2. unfold writable, key_written. simpl. rewrite H1, H2.
  rewrite bool_decide_eq_false_2; [done|]. by intros [? ?].
Qed.

Lemma unwritable_button code v :
  btn_map c !! code = None → writable c (ButtonEvent code v) = false.
Proof.
  intros H. unfold writable, key_written. simpl. rewrite H.
  rewrite bool_decide_eq_false_2; [done|]. by intros [? ?].
Qed.

Lemma mirror_x val :
  mirror B "touchpad_x" val
  = [Write (B "EV_ABS") (B "ABS_MT_POSITION_X") val].
Proof. done. Qed.

Lemma mirror_y val :
  mirror B "touchpad_y" val
  = [Write (B "EV_ABS") (B "ABS_MT_POSITION_Y") val].
Proof. done. Qed.

Lemma mirror_other code val :
  code ≠ "touchpad_x" → code ≠ "touchpad_y" → mirror B code val = [].
Proof.
  intros Hx Hy. unfold mirror. by rewrite !bool_decide_eq_false_2.
Qed.

(** When the body returns, it has done what [translated] says. *)
Lemma consume_ev_Ok fr ev fr' :
  consume_ev B c fr ev = Ok fr' → translated B c fr ev fr'.
Proof.
  unfold consume_ev. case_bool_decide as Hk.
  { intros [= <-]. by apply translated_skip. }
  apply eq_None_not_Some in Hk.
  destruct ev as [code v|code v|code v|code w s]; unfold ev_key in *;
    simpl in Hk; simpl.
  - destruct (axis_map c !! code) as [ax|] eqn:Hax.
    + destruct (axis_int (aspect fr) ax code v) as [n|e] eqn:Hn; simpl;
        [|done].
      destruct (dev_write _ _ _ fr) as [fr1|e] eqn:H1; simpl; [|done].
      apply dev_write_Ok in H1 as (n1 & [= <-] & F1 & ->). simpl.
      case_bool_decide as Hx; [|case_bool_decide as Hy].
      * subst code. intros H2.
        apply dev_write_Ok in H2 as (n2 & [= <-] & F2 & ->).
        simpl. rewrite <- app_assoc. simpl.
        pose proof (translated_axis B c fr _ v ax n Hk Hax Hn) as T.
        rewrite mirror_x in T. apply T. simpl in *. by rewrite F1, F2.
      * subst code. intros H2.
        apply dev_write_Ok in H2 as (n2 & [= <-] & F2 & ->).
        simpl. rewrite <- app_assoc. simpl.
        pose proof (translated_axis B c fr _ v ax n Hk Hax Hn) as T.
        rewrite mirror_y in T. apply T. simpl in *. by rewrite F1, F2.
      * intros [= <-]. simpl.
        pose proof (translated_axis B c fr _ v ax n Hk Hax Hn) as T.
        rewrite mirror_other in T by done. apply T. simpl in *.
        by rewrite F1.
    + destruct (is_imu_ts c code) eqn:Hts.
      * destruct v as [n|x].
        -- destruct (dev_write _ _ _ fr) as [fr1|e] eqn:H1; simpl; [|done].
           apply dev_write_Ok in H1 as (n1 & [= <-] & F1 & ->).
           intros [= <-]. simpl. by apply translated_ts.
        -- intros H1. by apply dev_write_Ok in H1 as (n1 & ? & _).
      * intros [= <-]. apply translated_ignored; [done| |done].
        by apply unwritable_axis.
  - destruct (btn_map c !! code) as [b|] eqn:Hb.
    + case_bool_decide as Ht.
      * subst code.
        destruct (tid fr) as [|t] eqn:Htid.
        { destruct v; simpl; [done|].
          destruct (dev_write _ _ _ fr) as [f1|e] eqn:H1; simpl; [|done].
          apply dev_write_Ok in H1 as (n1 & [= <-] & F1 & ->).
          destruct (dev_write _ _ _ _) as [f2|e] eqn:H2; simpl; [|done].
          apply dev_write_Ok in H2 as (n2 & [= <-] & F2 & ->). simpl.
          by rewrite Htid. }
        assert ((if v then getattr "touch_id" (Attr t) else Ok (-1))
                = Ok (if v then t else -1)) as -> by (by destruct v).
        simpl.
        destruct (dev_write _ _ _ fr) as [f1|e] eqn:H1; simpl; [|done].
        apply dev_write_Ok in H1 as (n1 & [= <-] & F1 & ->).
        destruct (dev_write _ _ _ _) as [f2|e] eqn:H2; simpl; [|done].
        apply dev_write_Ok in H2 as (n2 & [= <-] & F2 & ->). simpl.
        rewrite Htid. simpl.
        destruct (dev_write _ _ _ _) as [f3|e] eqn:H3; simpl; [|done].
        apply dev_write_Ok in H3 as (n3 & [= <-] & F3 & ->). simpl.
        intros [= <-]. rewrite <- !app_assoc. simpl.
        apply (translated_touch B c fr v b t); try done.
        simpl in *. by rewrite F1, F2, F3.
      * simpl.
        destruct (dev_write _ _ _ _) as [f3|e] eqn:H3; simpl; [|done].
        apply dev_write_Ok in H3 as (n3 & [= <-] & F3 & ->). simpl.
        intros [= <-]. by apply translated_button.
    + intros [= <-]. apply translated_ignored; [done| |done].
      by apply unwritable_button.
  - case_bool_decide as Ha.
    + subst code. destruct (py_float v) as [a|e] eqn:Hf; simpl; [|done].
      intros [= <-]. by apply translated_aspect.
    + intros [= <-]. apply translated_ignored; [done|done|].
      intros v' [= ? _]. done.
  - intros [= <-]. by apply translated_ignored.
Qed.

(** And in each case of [translated] it returns. *)
Lemma translated_Ok fr ev fr' :
  translated B c fr ev fr' → consume_ev B c fr ev = Ok fr'.
Proof.
  intros H. unfold consume_ev.
  destruct H as [ev Hs|code v ax n Hk Hax Hn Hf|code n Hk Hax Hts Hf
                 |code v b Hk Hb Hne Hf|v b t Hk Hb Ht Hf|v a Hk Ha
                 |ev Hk Hw Hne].
  - by rewrite bool_decide_eq_true_2.
  - rewrite bool_decide_eq_false_2
      by (unfold ev_key; simpl; rewrite Hk; by intros [? ?]).
    rewrite Hax, Hn. simpl in *.
    apply andb_true_iff in Hf as [F1 Hm].
    rewrite dev_write_int by done. simpl. unfold ev_key. simpl.
    unfold mirror in *. case_bool_decide; [|case_bool_decide].
    + simpl in Hm. rewrite andb_true_r in Hm.
      rewrite dev_write_int by done. simpl. by rewrite <- app_assoc.
    + simpl in Hm. rewrite andb_true_r in Hm.
      rewrite dev_write_int by done. simpl. by rewrite <- app_assoc.
    + done.
  - rewrite bool_decide_eq_false_2
      by (unfold ev_key; simpl; rewrite Hk; by intros [? ?]).
    rewrite Hax, Hts. rewrite dev_write_int by done. done.
  - rewrite bool_decide_eq_false_2
      by (unfold ev_key; simpl; rewrite Hk; by intros [? ?]).
    rewrite Hb. rewrite bool_decide_eq_false_2 by done. simpl.
    rewrite dev_write_int by done. done.
  - rewrite bool_decide_eq_false_2
      by (unfold ev_key; simpl; fold touch_key; rewrite Hk; by intros [? ?]).
    rewrite Hb. rewrite bool_decide_eq_true_2 by done. rewrite Ht.
    assert ((if v then getattr "touch_id" (Attr t) else Ok (-1))
            = Ok (if v then t else -1)) as -> by (by destruct v).
    simpl in *.
    apply andb_true_iff in Hf as [F1 Hf].
    apply andb_true_iff in Hf as [F2 Hf].
    rewrite andb_true_r in Hf.
    rewrite dev_write_int by done. simpl.
    rewrite dev_write_int by done. simpl. rewrite Ht. simpl.
    rewrite dev_write_int by done. simpl.
    by rewrite <- !app_assoc.
  - rewrite bool_decide_eq_false_2
      by (unfold ev_key; simpl; fold aspect_key; rewrite Hk; by intros [? ?]).
    rewrite bool_decide_eq_true_2 by done. by rewrite Ha.
  - rewrite bool_decide_eq_false_2 by (rewrite Hk; by intros [? ?]).
    destruct ev as [code v|code v|code v|code w s].
    + destruct (axis_map c !! code) as [ax|] eqn:Hax.
      { by rewrite (writable_axis code v ax Hax) in Hw. }
      destruct (is_imu_ts c code) eqn:Hts; [|done].
      by rewrite (writable_ts code v Hts) in Hw.
    + destruct (btn_map c !! code) as [b|] eqn:Hb; [|done].
      by rewrite (writable_button code v b Hb) in Hw.
    + case_bool_decide as Ha; [|done]. subst code. by destruct (Hne v).
    + done.
Qed.

Lemma consume_loop_app fr l1 l2 :
  consume_loop B c fr (l1 ++ l2)
  = (fr' ← consume_loop B c fr l1; consume_loop B c fr' l2).
Proof.
  revert fr. induction l1 as [|ev l1 IH]; intros fr; simpl; [done|].
  destruct (consume_ev B c fr ev) as [fr'|e]; simpl; [apply IH|done].
Qed.

(** An event whose key is in [wrote] is skipped. *)
Lemma consume_ev_skip fr ev :
  is_Some (wrote fr !! ev_key ev) → consume_ev B c fr ev = Ok fr.
Proof.
  intros H. unfold consume_ev. rewrite bool_decide_eq_true_2; done.
Qed.

Lemma insert_key_iff (m : gmap (EvType * string) Z) key v k (w : bool) :
  w = true →
  is_Some (<[key := v]> m !! k) ↔ is_Some (m !! k) ∨ (k = key ∧ w = true).
Proof.
  intros ->. rewrite lookup_insert_is_Some. split.
  - intros [<-|[_ ?]]; [by right|by left].
  - intros [?|[-> _]]; [|by left].
    destruct (decide (key = k)); [by left|by right].
Qed.

Lemma same_key_iff (m : gmap (EvType * string) Z) key k (w : bool) :
  w = false →
  is_Some (m !! k) ↔ is_Some (m !! k) ∨ (k = key ∧ w = true).
Proof. intros ->. split; [by left|]. by intros [?|[_ ?]]. Qed.

(** What the body does to [wrote]: it adds the key of the event, when
    that key is translated, and nothing else. *)
Lemma consume_ev_wrote fr ev fr' :
  consume_ev B c fr ev = Ok fr' →
  ∀ k, is_Some (wrote fr' !! k)
       ↔ is_Some (wrote fr !! k) ∨ (k = ev_key ev ∧ writable c ev = true).
Proof.
  intros H%consume_ev_Ok k.
  destruct H as [ev Hs|code v ax n Hk Hax Hn Hf|code n Hk Hax Hts Hf
                 |code v b Hk Hb Hne Hf|v b t Hk Hb Ht Hf|v a Hk Ha
                 |ev Hk Hw Hne]; simpl.
  - split; [auto|]. intros [?|[-> _]]; done.
  - by eapply insert_key_iff, writable_axis.
  - by eapply insert_key_iff, writable_ts.
  - by eapply insert_key_iff, writable_button.
  - by eapply insert_key_iff, writable_button.
  - by apply same_key_iff.
  - by apply same_key_iff.
Qed.

Lemma consume_loop_wrote evs : ∀ fr fr',
  consume_loop B c fr evs = Ok fr' →
  ∀ k, is_Some (wrote fr' !! k)
       ↔ is_Some (wrote fr !! k)
         ∨ ∃ ev, ev ∈ evs ∧ ev_key ev = k ∧ writable c ev = true.
Proof.
  induction evs as [|ev evs IH]; intros fr fr' H k; simpl in H.
  - simplify_eq. split; [auto|]. intros [?|(ev & Hin & _)]; [done|].
    by apply elem_of_nil in Hin.
  - destruct (consume_ev B c fr ev) as [fr1|e] eqn:H1; simpl in H; [|done].
    rewrite (IH _ _ H k), (consume_ev_wrote _ _ _ H1 k).
    split.
    + intros [[?|[-> Hw]]|(x & Hin & Hx)]; [by left| |].
      * right. exists ev. split; [left|done].
      * right. exists x. split; [by right|done].
    + intros [?|(x & Hin & Hk & Hw)]; [by left; left|].
      apply elem_of_cons in Hin as [->|Hin].
      * left; right. done.
      * right. eauto.
Qed.

(** The body only appends to the calls made on the device; what it
    appends are writes, and writes of C ints. *)
Lemma consume_ev_out fr ev fr' :
  consume_ev B c fr ev = Ok fr' →
  ∃ ops, out fr' = out fr ++ ops
         ∧ forallb is_write ops = true ∧ forallb fits ops = true.
Proof.
  intros H%consume_ev_Ok.
  destruct H as [ev Hs|code v ax n Hk Hax Hn Hf|code n Hk Hax Hts Hf
                 |code v b Hk Hb Hne Hf|v b t Hk Hb Ht Hf|v a Hk Ha
                 |ev Hk Hw Hne]; simpl;
    try (exists []; by rewrite app_nil_r).
  - eexists. split; [done|]. split; [|done]. unfold mirror.
    repeat case_bool_decide; done.
  - eexists. split; [done|]. split; [done|]. cbn [forallb]. by rewrite Hf.
  - eexists. split; [done|]. split; [done|]. cbn [forallb]. by rewrite Hf.
  - eexists. split; [done|]. split; [done|]. done.
Qed.

Lemma consume_loop_out evs : ∀ fr fr',
  consume_loop B c fr evs = Ok fr' →
  ∃ ops, out fr' = out fr ++ ops
         ∧ forallb is_write ops = true ∧ forallb fits ops = true.
Proof.
  induction evs as [|ev evs IH]; intros fr fr' H; simpl in H.
  - simplify_eq. exists []. by rewrite app_nil_r.
  - destruct (consume_ev B c fr ev) as [fr1|e] eqn:H1; simpl in H; [|done].
    destruct (consume_ev_out _ _ _ H1) as (ops1 & E1 & Hw1 & Hf1).
    destruct (IH _ _ H) as (ops2 & E2 & Hw2 & Hf2).
    exists (ops1 ++ ops2). rewrite E2, E1, app_assoc. split; [done|].
    rewrite !forallb_app, Hw1, Hw2, Hf1, Hf2. done.
Qed.

(** [touch_id] moves only on a [touchpad_touch] button event. *)
Lemma consume_ev_tid fr ev fr' :
  consume_ev B c fr ev = Ok fr' →
  ev_key ev ≠ touch_key ∨ is_Some (wrote fr !! touch_key) →
  tid fr' = tid fr.
Proof.
  intros H%consume_ev_Ok Hne.
  destruct H as [ev Hs|code v ax n Hk Hax Hn Hf|code n Hk Hax Hts Hf
                 |code v b Hk Hb Hne' Hf|v b t Hk Hb Ht Hf|v a Hk Ha
                 |ev Hk Hw Hne']; simpl; try done.
  destruct Hne as [Hne|Hin]; [done|]. rewrite Hk in Hin. by destruct Hin.
Qed.

(** [touchpad_aspect] moves only on a [touchpad_aspect_ratio]
    configuration event. *)
Lemma consume_ev_aspect fr ev fr' :
  consume_ev B c fr ev = Ok fr' →
  (∀ v, ev ≠ ConfigurationEvent "touchpad_aspect_ratio" v) →
  aspect fr' = aspect fr.
Proof.
  intros H%consume_ev_Ok Hne.
  destruct H as [ev Hs|code v ax n Hk Hax Hn Hf|code n Hk Hax Hts Hf
                 |code v b Hk Hb Hne' Hf|v b t Hk Hb Ht Hf|v a Hk Ha
                 |ev Hk Hw Hne']; simpl; try done.
  by destruct (Hne v).
Qed.

(** Either the body leaves [wrote] and the device alone, or it adds a
    key and makes at least one write. *)
Lemma consume_ev_progress fr ev fr' :
  consume_ev B c fr ev = Ok fr' →
  (wrote fr' = wrote fr ∧ out fr' = out fr)
  ∨ (∃ v w ws, wrote fr' = <[ev_key ev := v]> (wrote fr)
               ∧ out fr' = out fr ++ w :: ws).
Proof.
  intros H%consume_ev_Ok.
  destruct H as [ev Hs|code v ax n Hk Hax Hn Hf|code n Hk Hax Hts Hf
                 |code v b Hk Hb Hne' Hf|v b t Hk Hb Ht Hf|v a Hk Ha
                 |ev Hk Hw Hne']; simpl; eauto 10.
Qed.

Lemma consume_loop_progress evs : ∀ fr fr',
  (wrote fr = ∅ ↔ out fr = []) →
  consume_loop B c fr evs = Ok fr' →
  (wrote fr' = ∅ ↔ out fr' = []).
Proof.
  induction evs as [|ev evs IH]; intros fr fr' Hi H; simpl in H.
  - by simplify_eq.
  - destruct (consume_ev B c fr ev) as [fr1|e] eqn:H1; simpl in H; [|done].
    apply (IH fr1 fr'); [|done].
    destruct (consume_ev_progress _ _ _ H1)
      as [[-> ->]|(v & w & ws & -> & ->)]; [done|].
    split; intros Hx.
    + by apply insert_non_empty in Hx.
    + by apply app_nil in Hx as [_ ?].
Qed.

End ConsumeStep.

(** ** One call of consume *)

Section ConsumeCall.

Variable B : string -> Z.

(** The statements after the loop, when they return. *)
Lemma consume_end_spec c now fr fr' :
  consume_end B c now fr = Ok fr' →
  out fr' = out fr ++ closing B c now fr
  ∧ aspect fr' = aspect fr
  ∧ tid fr' = tid fr
  ∧ forallb fits (closing B c now fr) = true.
Proof.
  unfold consume_end, closing, any_wrote.
  destruct (negb (bool_decide (wrote fr = ∅))) eqn:Hw; simpl.
  - destruct (output_timestamps c); simpl.
    + destruct (dev_write _ _ _ _) as [fr1|e] eqn:H1; simpl; [|done].
      apply dev_write_Ok in H1 as (n1 & [= <-] & F1 & ->). simpl.
      rewrite Hw. simpl.
      destruct (_ || _); intros [= <-]; simpl;
        rewrite <- ?app_assoc, ?app_nil_r; repeat split; try done;
        by rewrite F1.
    + rewrite Hw. simpl.
      destruct (_ || _); intros [= <-]; simpl;
        rewrite ?app_nil_r; done.
  - rewrite Hw. simpl. intros [= <-]. by rewrite app_nil_r.
Qed.

(** They return when the device accepts the wall-clock timestamp. *)
Lemma consume_end_Ok c now fr :
  forallb fits (closing B c now fr) = true →
  ∃ fr', consume_end B c now fr = Ok fr'.
Proof.
  unfold consume_end, closing, any_wrote.
  destruct (negb (bool_decide (wrote fr = ∅))) eqn:Hw; simpl.
  - destruct (output_timestamps c); simpl.
    + intros Hf. apply andb_true_iff in Hf as [Hf _].
      rewrite dev_write_int by done. simpl. rewrite Hw. simpl.
      destruct (_ || _); eauto.
    + rewrite Hw. simpl. destruct (_ || _); eauto.
  - rewrite Hw. simpl. eauto.
Qed.

(** The frame a call that returns has left the loop with. *)
Lemma consume_inv now self d evs self' :
  dev self = Some d →
  consume B now self evs = Ok self' →
  ∃ fr,
    consume_loop B (conf self) (enter self) (reverse evs) = Ok fr
    ∧ forallb fits (closing B (conf self) now fr) = true
    ∧ self' = {| conf := conf self;
                 dev := Some (dev_emit B d
                          (out fr ++ closing B (conf self) now fr));
                 ofs := ofs self; sys_ofs := sys_ofs self;
                 rumble := rumble self; fd := fd self;
                 input := input self;
                 touchpad_aspect := aspect fr; touch_id := tid fr |}.
Proof.
  intros Hd. unfold consume, consume_frame. rewrite Hd.
  destruct (consume_loop B (conf self) (enter self) (reverse evs))
    as [fr|e]; simpl; [|done].
  destruct (consume_end B (conf self) now fr) as [fr'|e] eqn:He; simpl;
    [|done].
  intros [= <-]. exists fr. split; [done|].
  destruct (consume_end_spec (conf self) now fr fr' He)
    as (-> & -> & -> & Hf).
  done.
Qed.

(** And the call returns when the loop does and the device accepts the
    wall-clock timestamp. *)
Lemma consume_Ok now self d evs fr :
  dev self = Some d →
  consume_loop B (conf self) (enter self) (reverse evs) = Ok fr →
  forallb fits (closing B (conf self) now fr) = true →
  consume B now self evs
  = Ok {| conf := conf self;
          dev := Some (dev_emit B d
                   (out fr ++ closing B (conf self) now fr));
          ofs := ofs self; sys_ofs := sys_ofs self;
          rumble := rumble self; fd := fd self; input := input self;
          touchpad_aspect := aspect fr; touch_id := tid fr |}.
Proof.
  intros Hd Hl Hf.
  destruct (consume_end_Ok (conf self) now fr Hf) as [fr' He].
  unfold consume, consume_frame. rewrite Hd, Hl. simpl. rewrite He. simpl.
  destruct (consume_end_spec (conf self) now fr fr' He)
    as (-> & -> & -> & _).
  done.
Qed.

Lemma consume_loop_fresh c self evs fr k :
  consume_loop B c (enter self) evs = Ok fr →
  (∀ x, x ∈ evs → ev_key x ≠ k) → wrote fr !! k = None.
Proof.
  intros H Hk. apply eq_None_not_Some. intros Hs.
  apply (consume_loop_wrote B c _ _ _ H k) in Hs
    as [Hs|(x & Hin & Hx & _)].
  - simpl in Hs. rewrite lookup_empty in Hs. by destruct Hs.
  - by apply (Hk x).
Qed.

(** A call that returns, split at an event of the batch: the events
    after it are visited first, then the event, then the events before
    it. *)
Lemma consume_split now self d l1 e l2 self' :
  dev self = Some d →
  consume B now self (l1 ++ e :: l2) = Ok self' →
  ∃ fr2 fr3 fr4,
    consume_loop B (conf self) (enter self) (reverse l2) = Ok fr2
    ∧ consume_ev B (conf self) fr2 e = Ok fr3
    ∧ consume_loop B (conf self) fr3 (reverse l1) = Ok fr4
    ∧ forallb fits (closing B (conf self) now fr4) = true
    ∧ self' = {| conf := conf self;
                 dev := Some (dev_emit B d
                          (out fr4 ++ closing B (conf self) now fr4));
                 ofs := ofs self; sys_ofs := sys_ofs self;
                 rumble := rumble self; fd := fd self;
                 input := input self;
                 touchpad_aspect := aspect fr4; touch_id := tid fr4 |}.
Proof.
  intros Hd Hc.
  destruct (consume_inv now self d _ self' Hd Hc) as (fr4 & Hl & Hf & ->).
  rewrite reverse_app, reverse_cons, !consume_loop_app in Hl.
  destruct (consume_loop B (conf self) (enter self) (reverse l2))
    as [fr2|?]; simpl in Hl; [|done].
  destruct (consume_ev B (conf self) fr2 e) as [fr3|?] eqn:H3;
    simpl in Hl; [|done].
  by exists fr2, fr3, fr4.
Qed.

(** The same at the last event of a key, which is not skipped. *)
Lemma consume_at now self d l1 e l2 self' :
  dev self = Some d →
  (∀ x, x ∈ l2 → ev_key x ≠ ev_key e) →
  consume B now self (l1 ++ e :: l2) = Ok self' →
  ∃ fr2 fr3 fr4,
    consume_loop B (conf self) (enter self) (reverse l2) = Ok fr2
    ∧ wrote fr2 !! ev_key e = None
    ∧ consume_ev B (conf self) fr2 e = Ok fr3
    ∧ consume_loop B (conf self) fr3 (reverse l1) = Ok fr4
    ∧ forallb fits (closing B (conf self) now fr4) = true
    ∧ self' = {| conf := conf self;
                 dev := Some (dev_emit B d
                          (out fr4 ++ closing B (conf self) now fr4));
                 ofs := ofs self; sys_ofs := sys_ofs self;
                 rumble := rumble self; fd := fd self;
                 input := input self;
                 touchpad_aspect := aspect fr4; touch_id := tid fr4 |}.
Proof.
  intros Hd Hl2 Hc.
  destruct (consume_split now self d l1 e l2 self' Hd Hc)
    as (fr2 & fr3 & fr4 & H2 & H3 & H4 & Hf & ->).
  exists fr2, fr3, fr4. repeat split; try done.
  eapply consume_loop_fresh; [done|].
  intros x Hx. apply Hl2. by apply elem_of_reverse.
Qed.

End ConsumeCall.

(** ** Axis values *)

Section AxisValue.

Variable B : string -> Z.

(** What the body does with the last event of a mapped axis. *)
Lemma consume_ev_axis c fr code raw ax fr' :
  wrote fr !! (axis, code) = None →
  axis_map c !! code = Some ax →
  consume_ev B c fr (AxisEvent code raw) = Ok fr' →
  ∃ v,
    axis_int (aspect fr) ax code raw = Ok v
    ∧ out fr'
      = out fr
        ++ Write (B "EV_ABS") (ax_id ax) (clamp (bounds ax) v)
        :: mirror B code (clamp (bounds ax) v).
Proof.
  intros Hk Hax H%consume_ev_Ok.
  inversion H as [ev Hs|code' v' ax' n Hk' Hax' Hn Hf|code' n Hk' Hax'
                 | | | |ev Hk' Hw]; subst.
  - unfold ev_key in Hs. simpl in Hs. rewrite Hk in Hs. by destruct Hs.
  - rewrite Hax in Hax'. injection Hax' as <-. by exists n.
  - congruence.
  - by rewrite (writable_axis c code raw ax Hax) in Hw.
Qed.

(** C1, as the code has it.  On an open device, in a call that returns,
    the last event of a mapped axis in the batch is written as
    [clamp (int (scale * raw + offset))], computed as Python does: exactly
    on ints, in floats rounded to nearest as soon as a float takes part,
    [int] truncating toward zero, the clamp applied only when the mapping
    has bounds.  Only for [touchpad_x] is [scale * raw + offset] first
    multiplied by the aspect ratio in force when the event is visited (the
    one the later events of the batch have left); [touchpad_y] is not
    multiplied.  For both touch axes the value written is written again
    on the multi-touch position axis. *)
Theorem consume_axis_value now self d l1 l2 code raw ax self' :
  dev self = Some d →
  axis_map (conf self) !! code = Some ax →
  (∀ x, x ∈ l2 → ev_key x ≠ (axis, code)) →
  consume B now self (l1 ++ AxisEvent code raw :: l2) = Ok self' →
  ∃ fr v d' post,
    consume_loop B (conf self) (enter self) (reverse l2) = Ok fr
    ∧ (if bool_decide (code = "touchpad_x") then
         a ← getattr "touchpad_aspect" (aspect fr);
         x ← py_mul (scale ax) raw;
         y ← py_add x (offset ax);
         z ← py_mul a y;
         py_int z
       else
         x ← py_mul (scale ax) raw;
         y ← py_add x (offset ax);
         py_int y) = Ok v
    ∧ dev self' = Some d'
    ∧ let val := clamp (bounds ax) v in
      written d'
      = written d
        ++ out fr
        ++ Write (B "EV_ABS") (ax_id ax) val
           :: (if bool_decide (code = "touchpad_x") then
                 [Write (B "EV_ABS") (B "ABS_MT_POSITION_X") val]
               else if bool_decide (code = "touchpad_y") then
                 [Write (B "EV_ABS") (B "ABS_MT_POSITION_Y") val]
               else [])
        ++ post.
Proof.
  intros Hd Hax Hl2 Hc.
  destruct (consume_at B now self d l1 (AxisEvent code raw) l2 self'
              Hd Hl2 Hc)
    as (fr2 & fr3 & fr4 & H2 & Hk & H3 & H4 & _ & ->).
  destruct (consume_ev_axis (conf self) fr2 code raw ax fr3 Hk Hax H3)
    as (v & Hv & Hout).
  destruct (consume_loop_out B _ _ _ _ H4) as (ops & Hops & _).
  exists fr2, v, (dev_emit B d (out fr4 ++ closing B (conf self) now fr4)),
    (ops ++ closing B (conf self) now fr4).
  split; [done|]. split; [exact Hv|]. split; [done|].
  simpl. rewrite Hops, Hout. unfold mirror.
  rewrite <- !app_assoc. simpl. done.
Qed.

End AxisValue.

Lemma consume_axis_value_witness :
  ∃ self' d',
    consume Sample.B 0 Sample.plain
      [AxisEvent "touchpad_x" (Sample.decimal 1 2);
       ConfigurationEvent "touchpad_aspect_ratio" 2]
    = Ok self'
    ∧ dev self' = Some d'
    ∧ Write 3 0 1023 ∈ written d'
    ∧ Write 3 53 1023 ∈ written d'.
Proof.
  destruct (consume Sample.B 0 Sample.plain
              [AxisEvent "touchpad_x" (Sample.decimal 1 2);
               ConfigurationEvent "touchpad_aspect_ratio" 2])
    as [self'|e] eqn:Hc; [|vm_compute in Hc; discriminate Hc].
  destruct (consume_axis_value Sample.B 0 Sample.plain (Sample.device [])
              [] [ConfigurationEvent "touchpad_aspect_ratio" 2]
              "touchpad_x" (Sample.decimal 1 2)
              {| ax_id := 0; scale := 1023; offset := 0;
                 bounds := Some (0, 2048) |} self')
    as (fr & v & d' & post & Hfr & Hv & Hd & Hw).
  - reflexivity.
  - reflexivity.
  - intros x Hx. apply list_elem_of_singleton in Hx. subst x. discriminate.
  - exact Hc.
  - vm_compute in Hfr. injection Hfr as <-.
    vm_compute in Hv. injection Hv as <-.
    exists self', d'. split; [reflexivity|]. split; [exact Hd|].
    simpl in Hw. rewrite Hw. split.
    + apply elem_of_cons. left. reflexivity.
    + apply elem_of_cons. right. apply elem_of_cons. left. reflexivity.
Defined.

(** C1 fails as stated: with the aspect ratio at 2, a [touchpad_y] event
    is written as [scale * raw + offset = 1023], not as twice that. *)
Lemma touchpad_y_not_scaled :
  ∃ s1 a s2 d2,
    consume Sample.B 0 Sample.plain
      [ConfigurationEvent "touchpad_aspect_ratio" 2] = Ok s1
    ∧ touchpad_aspect s1 = Attr a
    ∧ a = PyFloat (float_of_Z 2)
    ∧ consume Sample.B 0 s1 [AxisEvent "touchpad_y" 1] = Ok s2
    ∧ dev s2 = Some d2
    ∧ written d2 = [Write 3 1 1023; Write 3 54 1023; Syn]
    ∧ (x ← py_mul 1023 1; y ← py_add x 0; z ← py_mul a y; v ← py_int z;
       Ok (clamp (Some (0, 2048)) v)) = Ok 2046.
Proof.
  do 4 eexists.
  split; [vm_compute; reflexivity|].
  split; [reflexivity|].
  split; [vm_compute; reflexivity|].
  split; [vm_compute; reflexivity|].
  split; [reflexivity|].
  split; [reflexivity|].
  vm_compute. reflexivity.
Qed.

(** ** Tracking ids *)

Section TrackingId.

Variable B : string -> Z.

(** What the body does with the last [touchpad_touch] event. *)
Lemma consume_ev_touch c fr v b t fr' :
  wrote fr !! touch_key = None →
  btn_map c !! "touchpad_touch" = Some b →
  tid fr = Attr t →
  consume_ev B c fr (ButtonEvent "touchpad_touch" v) = Ok fr' →
  is_Some (wrote fr' !! touch_key)
  ∧ tid fr' = Attr (next_touch_id t)
  ∧ out fr' = out fr ++ finger B t v ++ [Write (B "EV_KEY") b (bit v)].
Proof.
  intros Hk Hb Ht H%consume_ev_Ok.
  inversion H as [ev Hs| | |code' v' b' Hk' Hb' Hne
                 |v' b' t' Hk' Hb' Ht' Hf| |ev Hk' Hw]; subst.
  - unfold ev_key in Hs. simpl in Hs. fold touch_key in Hs.
    rewrite Hk in Hs. by destruct Hs.
  - done.
  - rewrite Hb in Hb'. injection Hb' as <-.
    rewrite Ht in Ht'. injection Ht' as <-. simpl.
    rewrite lookup_insert_eq. eauto.
  - by rewrite (writable_button c _ v b Hb) in Hw.
Qed.

Lemma consume_loop_tid_other c evs : ∀ fr fr',
  (∀ x, x ∈ evs → ev_key x ≠ touch_key) →
  consume_loop B c fr evs = Ok fr' → tid fr' = tid fr.
Proof.
  induction evs as [|ev evs IH]; intros fr fr' Hne H; simpl in H.
  - by simplify_eq.
  - destruct (consume_ev B c fr ev) as [fr1|e] eqn:H1; simpl in H; [|done].
    rewrite (IH fr1 fr'); [|intros x Hx; apply Hne; by right|done].
    eapply consume_ev_tid; [done|]. left. apply Hne. by left.
Qed.

Lemma consume_loop_tid_done c evs : ∀ fr fr',
  is_Some (wrote fr !! touch_key) →
  consume_loop B c fr evs = Ok fr' → tid fr' = tid fr.
Proof.
  induction evs as [|ev evs IH]; intros fr fr' Hk H; simpl in H.
  - by simplify_eq.
  - destruct (consume_ev B c fr ev) as [fr1|e] eqn:H1; simpl in H; [|done].
    rewrite (IH fr1 fr'); [| |done].
    + eapply consume_ev_tid; [done|]. by right.
    + apply (consume_ev_wrote B c _ _ _ H1). by left.
Qed.

(** C2, as the code has it.  On an open device whose button map has
    [touchpad_touch], a call that returns and whose batch holds such an
    event has written the tracking id, the tool flag and the button for
    the last one of them: the current [touch_id] on a touch-down, [-1] on
    a lift.  In both cases [touch_id] has then advanced by one, from 500
    to 1. *)
Theorem consume_touch_id now self d t l1 l2 v b self' :
  dev self = Some d →
  touch_id self = Attr t →
  btn_map (conf self) !! "touchpad_touch" = Some b →
  (∀ x, x ∈ l2 → ev_key x ≠ touch_key) →
  consume B now self (l1 ++ ButtonEvent "touchpad_touch" v :: l2)
  = Ok self' →
  ∃ d' pre post,
    dev self' = Some d'
    ∧ written d'
      = written d
        ++ pre
        ++ [Write (B "EV_ABS") (B "ABS_MT_TRACKING_ID")
              (if v then t else -1);
            Write (B "EV_KEY") (B "BTN_TOOL_FINGER") (bit v);
            Write (B "EV_KEY") b (bit v)]
        ++ post
    ∧ touch_id self' = Attr (if 500 <? t + 1 then 1 else t + 1).
Proof.
  intros Hd Ht Hb Hl2 Hc.
  destruct (consume_at B now self d l1
              (ButtonEvent "touchpad_touch" v) l2 self' Hd Hl2 Hc)
    as (fr2 & fr3 & fr4 & H2 & Hk & H3 & H4 & _ & ->).
  assert (tid fr2 = Attr t) as T2.
  { rewrite (consume_loop_tid_other _ _ _ _ (λ x Hx, Hl2 x
               (proj1 (elem_of_reverse _ _) Hx)) H2). exact Ht. }
  destruct (consume_ev_touch (conf self) fr2 v b t fr3 Hk Hb T2 H3)
    as (Hin & T3 & Hout).
  destruct (consume_loop_out B _ _ _ _ H4) as (ops & Hops & _).
  eexists _, (out fr2), (ops ++ closing B (conf self) now fr4).
  split; [done|]. simpl. split.
  - rewrite Hops, Hout. unfold finger. by rewrite <- !app_assoc.
  - rewrite (consume_loop_tid_done _ _ _ _ Hin H4). exact T3.
Qed.

(** A batch without a [touchpad_touch] button event leaves [touch_id]
    as it is. *)
Lemma consume_touch_id_kept now self self' evs :
  (∀ x, x ∈ evs → ev_key x ≠ touch_key) →
  consume B now self evs = Ok self' → touch_id self' = touch_id self.
Proof.
  intros Hne Hc.
  destruct (dev self) as [d|] eqn:Hd.
  - destruct (consume_inv B now self d evs self' Hd Hc) as (fr & Hl & _ & ->).
    simpl.
    apply (consume_loop_tid_other _ _ _ _
             (λ x Hx, Hne x (proj1 (elem_of_reverse _ _) Hx)) Hl).
  - unfold consume in Hc. rewrite Hd in Hc. by injection Hc as <-.
Qed.

End TrackingId.

Lemma consume_touch_id_witness :
  ∃ self',
    consume Sample.B 0 Sample.plain
      [ButtonEvent "touchpad_touch" false; ButtonEvent "touchpad_touch" true;
       ButtonEvent "a" true] = Ok self'
    ∧ touch_id self' = Attr 2.
Proof.
  destruct (consume Sample.B 0 Sample.plain
              [ButtonEvent "touchpad_touch" false;
               ButtonEvent "touchpad_touch" true; ButtonEvent "a" true])
    as [self'|e] eqn:Hc; [|vm_compute in Hc; discriminate Hc].
  destruct (consume_touch_id Sample.B 0 Sample.plain (Sample.device [])
              1 [ButtonEvent "touchpad_touch" false]
              [ButtonEvent "a" true] true 330 self')
    as (d' & pre & post & _ & _ & Ht).
  - reflexivity.
  - reflexivity.
  - reflexivity.
  - intros x Hx. apply list_elem_of_singleton in Hx. subst x. discriminate.
  - exact Hc.
  - exists self'. split; [reflexivity|exact Ht].
Defined.

(** C2 fails as stated: a lift advances [touch_id] as a touch-down does, so
    the second touch-down after [open] is written with id 3, not 2. *)
Lemma lift_advances_touch_id :
  ∃ s1 s2 s3 d3,
    consume Sample.B 0 Sample.plain [ButtonEvent "touchpad_touch" true]
    = Ok s1
    ∧ touch_id s1 = Attr 2
    ∧ consume Sample.B 0 s1 [ButtonEvent "touchpad_touch" false] = Ok s2
    ∧ touch_id s2 = Attr 3
    ∧ consume Sample.B 0 s2 [ButtonEvent "touchpad_touch" true] = Ok s3
    ∧ dev s3 = Some d3
    ∧ tracking_ids Sample.B (written d3) = [1; -1; 3].
Proof.
  do 4 eexists.
  split; [vm_compute; reflexivity|].
  split; [reflexivity|].
  split; [vm_compute; reflexivity|].
  split; [reflexivity|].
  split; [vm_compute; reflexivity|].
  split; [reflexivity|].
  vm_compute. reflexivity.
Qed.

(** ** The synchronization event *)

Section Synchronization.

Variable B : string -> Z.

Lemma syn_not_write ops : forallb is_write ops = true → Syn ∉ ops.
Proof.
  intros H Hin. apply list_elem_of_In in Hin.
  rewrite forallb_forall in H. by apply H in Hin.
Qed.

Lemma timestamps_app ops1 ops2 :
  timestamps B (ops1 ++ ops2) = timestamps B ops1 ++ timestamps B ops2.
Proof. unfold timestamps. apply omap_app. Qed.

Lemma timestamps_stamp v :
  timestamps B [Write (B "EV_MSC") (B "MSC_TIMESTAMP") v] = [v].
Proof.
  unfold timestamps. simpl. by rewrite !bool_decide_eq_true_2.
Qed.

(** While the loop runs, [ts] is the last sensor timestamp written, and 0
    as long as none has been. *)
Lemma consume_ev_ts c fr ev fr' :
  consume_ev B c fr ev = Ok fr' →
  (stamped c fr → ts fr ∈ timestamps B (out fr)) →
  (ts fr ≠ 0 → stamped c fr) →
  (stamped c fr' → ts fr' ∈ timestamps B (out fr'))
  ∧ (ts fr' ≠ 0 → stamped c fr').
Proof.
  intros H%consume_ev_Ok Ha Hb.
  assert (∀ k v, k.1 = button ∨ (∃ ax, axis_map c !! k.2 = Some ax) →
            stamped c {| wrote := <[k := v]> (wrote fr); ts := ts fr;
                         aspect := aspect fr; tid := tid fr;
                         out := out fr |}
            ↔ stamped c fr) as Hother.
  { intros k v Hk. unfold stamped. simpl. split.
    - intros (code & Hs & Hin). exists code. split; [done|].
      apply lookup_insert_is_Some in Hin as [Heq|[_ ?]]; [|done].
      subst k. simpl in Hk. destruct Hk as [?|[ax Hax]]; [done|].
      destruct Hs as [Hn _]. congruence.
    - intros (code & Hs & Hin). exists code. split; [done|].
      apply lookup_insert_is_Some'. by right. }
  destruct H as [ev Hs|code v ax n Hk Hax Hn Hf|code n Hk Hax Hts Hf
                 |code v b Hk Hb' Hne Hf|v b t Hk Hb' Ht Hf|v a Hk Ha'
                 |ev Hk Hw Hne]; simpl; try done.
  - split.
    + intros Hs. rewrite timestamps_app. apply elem_of_app. left.
      apply Ha. apply (Hother (axis, code) (clamp (bounds ax) n)); [|done].
      right. by exists ax.
    + intros Hz. apply (Hother (axis, code) (clamp (bounds ax) n)); [|auto].
      right. by exists ax.
  - split.
    + intros _. rewrite timestamps_app, timestamps_stamp.
      apply elem_of_app. right. by left.
    + intros _. exists code. split; [done|]. simpl.
      rewrite lookup_insert_eq. eauto.
  - split.
    + intros Hs. rewrite timestamps_app. apply elem_of_app. left.
      apply Ha. apply (Hother (button, code) (bit v)); [by left|done].
    + intros Hz. apply (Hother (button, code) (bit v)); [by left|auto].
  - split.
    + intros Hs. rewrite timestamps_app. apply elem_of_app. left.
      apply Ha. apply (Hother touch_key (bit v)); [by left|done].
    + intros Hz. apply (Hother touch_key (bit v)); [by left|auto].
Qed.

Lemma consume_loop_ts c evs : ∀ fr fr',
  consume_loop B c fr evs = Ok fr' →
  (stamped c fr → ts fr ∈ timestamps B (out fr)) →
  (ts fr ≠ 0 → stamped c fr) →
  (stamped c fr' → ts fr' ∈ timestamps B (out fr'))
  ∧ (ts fr' ≠ 0 → stamped c fr').
Proof.
  induction evs as [|ev evs IH]; intros fr fr' H Ha Hb; simpl in H.
  - by simplify_eq.
  - destruct (consume_ev B c fr ev) as [fr1|e] eqn:H1; simpl in H; [|done].
    destruct (consume_ev_ts c fr ev fr1 H1 Ha Hb) as [Ha1 Hb1].
    by apply (IH fr1 fr').
Qed.

(** After the loop of a call, a sensor timestamp is among the keys
    written exactly when the batch held one. *)
Lemma stamped_batch c self evs fr :
  consume_loop B c (enter self) (reverse evs) = Ok fr →
  stamped c fr ↔ ∃ code v, AxisEvent code v ∈ evs ∧ sensor_ts c code.
Proof.
  intros Hl. unfold stamped. split.
  - intros (code & Hs & Hin). exists code.
    apply (consume_loop_wrote B c _ _ _ Hl) in Hin
      as [Hin|(ev & Hev & Hk & _)].
    { simpl in Hin. rewrite lookup_empty in Hin. by destruct Hin. }
    rewrite elem_of_reverse in Hev.
    destruct ev as [code' v| | |]; try discriminate Hk.
    unfold ev_key in Hk. simpl in Hk. injection Hk as Hcode.
    subst code'. by exists v.
  - intros (code & v & Hin & Hs). exists code. split; [done|].
    apply (consume_loop_wrote B c _ _ _ Hl). right.
    exists (AxisEvent code v). split; [by apply elem_of_reverse|].
    split; [done|]. apply writable_ts, Hs.
Qed.

(** C3, as the code has it.  On an open device, take a call that returns
    and in which no timestamp written has the value 0.  It ends with the
    synchronization event exactly when it made a write and
    sensor-timestamp output is off, or the batch held a sensor timestamp,
    or [output_timestamps] is on: the wall-clock timestamp takes the place
    of the sensor timestamp in the condition. *)
Theorem consume_syn now self d evs self' :
  dev self = Some d →
  consume B now self evs = Ok self' →
  ∃ d' ops,
    dev self' = Some d'
    ∧ written d' = written d ++ ops
    ∧ (0 ∉ timestamps B ops →
       (Syn ∈ ops
        ↔ (∃ w, w ∈ ops ∧ is_write w = true)
          ∧ (truthy (output_imu_timestamps (conf self)) = false
             ∨ (∃ code v, AxisEvent code v ∈ evs
                          ∧ sensor_ts (conf self) code)
             ∨ output_timestamps (conf self) = true))).
Proof.
  intros Hd Hc.
  destruct (consume_inv B now self d evs self' Hd Hc) as (fr & Hl & _ & ->).
  destruct (consume_loop_out B _ _ _ _ Hl) as (ws & Hws & Hwr & _).
  simpl in Hws.
  assert (wrote fr = ∅ ↔ out fr = []) as Hpr
    by (eapply consume_loop_progress; [|exact Hl]; done).
  destruct (consume_loop_ts (conf self) _ _ _ Hl) as [Ha Hb].
  { intros (code & _ & Hin). simpl in Hin. rewrite lookup_empty in Hin.
    by destruct Hin. }
  { done. }
  pose proof (stamped_batch (conf self) self evs fr Hl) as Hst.
  eexists _, (out fr ++ closing B (conf self) now fr).
  split; [done|]. split; [done|]. intros Hnz.
  rewrite timestamps_app in Hnz.
  assert (ts fr ≠ 0
          ↔ ∃ code v, AxisEvent code v ∈ evs ∧ sensor_ts (conf self) code)
    as Hts.
  { rewrite <- Hst. split; [done|]. intros Hs Hz.
    apply Hnz. apply elem_of_app. left. rewrite <- Hz. by apply Ha. }
  rewrite Hws in *. clear Hws.
  revert Hnz. unfold closing, any_wrote.
  destruct (bool_decide (wrote fr = ∅)) eqn:Hw; simpl.
  - intros _. apply bool_decide_eq_true in Hw. apply Hpr in Hw. subst ws.
    simpl. split; [by intros ?%elem_of_nil|].
    by intros [(w & ?%elem_of_nil & _) _].
  - apply bool_decide_eq_false in Hw.
    assert (ws ≠ []) as Hne by (intros E; by apply Hw, Hpr).
    assert (∃ w, w ∈ ws ∧ is_write w = true) as (w & Hin & Hisw).
    { destruct ws as [|w ws']; [done|]. exists w. split; [by left|].
      simpl in Hwr. by apply andb_true_iff in Hwr as [? _]. }
    pose proof (syn_not_write ws Hwr) as Hsyn.
    destruct (output_timestamps (conf self)) eqn:Hot; simpl.
    + intros Hnz.
      assert ((now `div` 1000) `mod` 2 ^ 32 ≠ 0) as Hnow.
      { intros Hz. apply Hnz. apply elem_of_app. right.
        unfold timestamps. simpl.
        rewrite !bool_decide_eq_true_2 by done. simpl. rewrite Hz.
        by left. }
      rewrite (bool_decide_eq_false_2 _ Hnow). simpl.
      rewrite orb_true_r. split.
      * intros _. split; [|by right; right].
        exists w. split; [|done]. apply elem_of_app. by left.
      * intros _. rewrite !elem_of_app. right. right. by left.
    + intros _. split.
      * intros Hin'. apply elem_of_app in Hin' as [?|Hin']; [done|].
        split; [exists w; split; [apply elem_of_app; by left|done]|].
        destruct (truthy _); simpl in *; [|by left].
        right; left. apply Hts.
        case_bool_decide as Hz; simpl in Hin'; [|done].
        by apply elem_of_nil in Hin'.
      * intros [_ Hcond]. apply elem_of_app. right.
        destruct (truthy _); simpl; [|by left].
        destruct Hcond as [?|[Hcond|?]]; [done| |done].
        apply Hts in Hcond. rewrite bool_decide_eq_false_2 by done.
        by left.
Qed.

End Synchronization.

Lemma consume_syn_witness :
  ∃ self' d',
    consume Sample.B 5000000
      (Sample.fresh (Sample.config (PyBool true) true) (Sample.device []))
      [AxisEvent "gyro_ts" 1500000; ButtonEvent "a" false] = Ok self'
    ∧ dev self' = Some d'
    ∧ Syn ∈ written d'.
Proof.
  destruct (consume Sample.B 5000000
              (Sample.fresh (Sample.config (PyBool true) true)
                 (Sample.device []))
              [AxisEvent "gyro_ts" 1500000; ButtonEvent "a" false])
    as [self'|e] eqn:Hc; [|vm_compute in Hc; discriminate Hc].
  destruct (consume_syn Sample.B 5000000
              (Sample.fresh (Sample.config (PyBool true) true)
                 (Sample.device []))
              (Sample.device []) _ self' eq_refl Hc)
    as (d' & ops & Hd & Hw & Hsyn).
  exists self', d'. split; [reflexivity|]. split; [exact Hd|].
  rewrite Hw. simpl. apply Hsyn.
  - vm_compute in Hc. injection Hc as <-. injection Hd as <-.
    simpl in Hw. subst ops. vm_compute.
    intros H0. apply elem_of_cons in H0 as [H0|H0]; [discriminate H0|].
    apply list_elem_of_singleton in H0. discriminate H0.
  - split; [|right; right; reflexivity].
    vm_compute in Hc. injection Hc as <-. injection Hd as <-.
    simpl in Hw. subst ops. exists (Write 1 304 0). split; [left|reflexivity].
Defined.

(** C3 fails as stated: with sensor-timestamp output on and no sensor
    timestamp in the batch, the call still ends with a synchronization
    event when [output_timestamps] is on, and does not when it is off. *)
Lemma wall_clock_enables_syn :
  ∃ s1 d1 s2 d2,
    consume Sample.B 5000000
      (Sample.fresh (Sample.config (PyBool true) true) (Sample.device []))
      [ButtonEvent "a" false] = Ok s1
    ∧ dev s1 = Some d1
    ∧ written d1 = [Write 1 304 0; Write 4 5 5000; Syn]
    ∧ consume Sample.B 5000000
        (Sample.fresh (Sample.config (PyBool true) false) (Sample.device []))
        [ButtonEvent "a" false] = Ok s2
    ∧ dev s2 = Some d2
    ∧ written d2 = [Write 1 304 0]
    ∧ truthy (PyBool true) = true.
Proof.
  do 4 eexists.
  split; [vm_compute; reflexivity|].
  split; [reflexivity|].
  split; [reflexivity|].
  split; [vm_compute; reflexivity|].
  split; [reflexivity|].
  split; reflexivity.
Qed.

(** ** Duplicates within a batch *)

Section Duplicates.

Variable B : string -> Z.

(** Once a key is in [wrote], the events of that key change nothing. *)
Lemma consume_loop_drop c k evs : ∀ fr,
  is_Some (wrote fr !! k) →
  consume_loop B c fr evs
  = consume_loop B c fr (filter (λ x, ev_key x ≠ k) evs).
Proof.
  induction evs as [|ev evs IH]; intros fr Hk; [done|].
  destruct (decide (ev_key ev = k)) as [E|E].
  - rewrite filter_cons_False by (intros ?; done). simpl.
    rewrite consume_ev_skip by (by rewrite E). simpl. by apply IH.
  - rewrite filter_cons_True by done. simpl.
    destruct (consume_ev B c fr ev) as [fr1|e] eqn:H1; simpl; [|done].
    apply IH. apply (consume_ev_wrote B c _ _ _ H1). by left.
Qed.

Lemma consume_ev_own c fr e fr' :
  wrote fr !! ev_key e = None →
  writable c e = true →
  consume_ev B c fr e = Ok fr' →
  ∃ step, out fr' = out fr ++ step ∧ own_write B c fr e step.
Proof.
  intros Hk Hw H%consume_ev_Ok.
  destruct H as [ev Hs|code v ax n Hk' Hax Hn Hf|code n Hk' Hax Hts Hf
                 |code v b Hk' Hb Hne Hf|v b t Hk' Hb Ht Hf|v a Hk' Ha
                 |ev Hk' Hw' Hne]; simpl.
  - rewrite Hk in Hs. by destruct Hs.
  - eexists. split; [done|]. rewrite Hax. eauto.
  - eexists. split; [done|]. rewrite Hax. eauto.
  - eexists. split; [done|]. exists b. split; [done|].
    by rewrite bool_decide_eq_false_2.
  - eexists. split; [done|]. exists b. split; [done|].
    simpl. eauto.
  - discriminate Hw.
  - congruence.
Qed.

(** C4.  On an open device, take a key that [consume] translates (a
    mapped axis, a sensor timestamp that is switched on, a mapped button)
    and the last event [e] of that key in the batch of a call that
    returns.  The earlier events of the key are dropped: the call is the
    call on the batch without them.  The event [e] is translated once,
    where the loop reaches it, by the one write that carries its value
    (with the tracking id and the tool flag before it for
    [touchpad_touch], the copy on the multi-touch axis after it for
    [touchpad_x] and [touchpad_y]); everything else the call sends comes
    from the events of other keys and from the end of the call. *)
Theorem consume_keeps_latest now self d l1 e l2 self' :
  dev self = Some d →
  writable (conf self) e = true →
  (∀ x, x ∈ l2 → ev_key x ≠ ev_key e) →
  consume B now self (l1 ++ e :: l2) = Ok self' →
  let others := filter (λ x, ev_key x ≠ ev_key e) l1 in
  consume B now self (others ++ e :: l2) = Ok self'
  ∧ ∃ fr fr' fr'' step d',
      consume_loop B (conf self) (enter self) (reverse l2) = Ok fr
      ∧ consume_ev B (conf self) fr e = Ok fr'
      ∧ out fr' = out fr ++ step
      ∧ own_write B (conf self) fr e step
      ∧ consume_loop B (conf self) fr' (reverse others) = Ok fr''
      ∧ dev self' = Some d'
      ∧ written d'
        = written d ++ out fr'' ++ closing B (conf self) now fr''.
Proof.
  intros Hd Hw Hl2 Hc others.
  destruct (consume_at B now self d l1 e l2 self' Hd Hl2 Hc)
    as (fr2 & fr3 & fr4 & H2 & Hk & H3 & H4 & Hf & ->).
  assert (is_Some (wrote fr3 !! ev_key e)) as Hin.
  { apply (consume_ev_wrote B _ _ _ _ H3). by right. }
  assert (consume_loop B (conf self) fr3 (reverse others) = Ok fr4) as H4'.
  { unfold others. by rewrite <- filter_reverse, <- consume_loop_drop. }
  split.
  - apply (consume_Ok B now self d _ fr4 Hd); [|done].
    rewrite reverse_app, reverse_cons, !consume_loop_app.
    rewrite H2. simpl. rewrite H3. simpl. exact H4'.
  - destruct (consume_ev_own (conf self) fr2 e fr3 Hk Hw H3)
      as (step & Hout & Hown).
    by eexists fr2, fr3, fr4, step, _.
Qed.

End Duplicates.

Lemma consume_keeps_latest_witness :
  ∃ self' d',
    consume Sample.B 0 Sample.plain
      [AxisEvent "left_stick_x" 100; ButtonEvent "a" true;
       AxisEvent "left_stick_x" 200; AxisEvent "left_stick_x" 300;
       ButtonEvent "a" false] = Ok self'
    ∧ consume Sample.B 0 Sample.plain
        [ButtonEvent "a" true; AxisEvent "left_stick_x" 300;
         ButtonEvent "a" false] = Ok self'
    ∧ dev self' = Some d'
    ∧ written d' = [Write 1 304 0; Write 3 0 300; Syn].
Proof.
  destruct (consume Sample.B 0 Sample.plain
              [AxisEvent "left_stick_x" 100; ButtonEvent "a" true;
               AxisEvent "left_stick_x" 200; AxisEvent "left_stick_x" 300;
               ButtonEvent "a" false])
    as [self'|e] eqn:Hc; [|vm_compute in Hc; discriminate Hc].
  destruct (consume_keeps_latest Sample.B 0 Sample.plain (Sample.device [])
              [AxisEvent "left_stick_x" 100; ButtonEvent "a" true;
               AxisEvent "left_stick_x" 200]
              (AxisEvent "left_stick_x" 300) [ButtonEvent "a" false] self')
    as (Heq & fr & fr' & fr'' & step & d' & _ & _ & _ & _ & _ & Hd & _).
  - reflexivity.
  - reflexivity.
  - intros x Hx. apply list_elem_of_singleton in Hx. subst x. discriminate.
  - exact Hc.
  - exists self', d'. split; [reflexivity|].
    split; [exact Heq|]. split; [exact Hd|].
    vm_compute in Hc. injection Hc as <-. injection Hd as <-. reflexivity.
Defined.

(** Events of a code that is in neither map are passed over: a pair of
    them leaves the device untouched. *)
Example unmapped_events_ignored :
  ∃ self' d',
    axis_map (conf Sample.plain) !! "trigger_z" = None
    ∧ consume Sample.B 0 Sample.plain
        [AxisEvent "trigger_z" 1; AxisEvent "trigger_z" 2] = Ok self'
    ∧ dev self' = Some d'
    ∧ written d' = [].
Proof.
  do 2 eexists.
  split; [reflexivity|].
  split; [vm_compute; reflexivity|].
  split; reflexivity.
Qed.

(** ** Sensor timestamps *)

Section SensorTimestamp.

Variable B : string -> Z.

Lemma is_imu_ts_intro c code :
  (output_imu_timestamps c = PyBool true ∧ code ∈ imu_codes)
  ∨ output_imu_timestamps c = PyStr code →
  is_imu_ts c code = true.
Proof.
  unfold is_imu_ts. intros [[-> Hin]| ->]; simpl.
  - by rewrite bool_decide_eq_true_2.
  - by rewrite bool_decide_eq_true_2.
Qed.

(** The body at a sensor timestamp that is not skipped: the timestamp is
    written when the device takes it, and the body raises when not. *)
Lemma consume_ev_sensor_ts c fr code raw :
  wrote fr !! (axis, code) = None →
  axis_map c !! code = None →
  is_imu_ts c code = true →
  consume_ev B c fr (AxisEvent code (PyInt raw))
  = if fits (Write (B "EV_MSC") (B "MSC_TIMESTAMP")
               ((raw `div` 1000) `mod` 2 ^ 32))
    then Ok {| wrote := <[(axis, code) := (raw `div` 1000) `mod` 2 ^ 32]>
                          (wrote fr);
               ts := (raw `div` 1000) `mod` 2 ^ 32;
               aspect := aspect fr; tid := tid fr;
               out := out fr
                      ++ [Write (B "EV_MSC") (B "MSC_TIMESTAMP")
                            ((raw `div` 1000) `mod` 2 ^ 32)] |}
    else Raise OverflowError.
Proof.
  intros Hk Hax Hts. unfold consume_ev. simpl.
  rewrite bool_decide_eq_false_2
    by (unfold ev_key; simpl; rewrite Hk; by intros [? ?]).
  rewrite Hax, Hts.
  destruct (fits _) eqn:Hf.
  - by rewrite dev_write_int.
  - by rewrite dev_write_refused.
Qed.

Lemma fits_c_int etype code v :
  fits (Write etype code v) = true → - 2 ^ 31 ≤ v < 2 ^ 31.
Proof.
  unfold fits, c_int. intros H.
  apply andb_true_iff in H as [_ H]. apply andb_true_iff in H as [H1 H2].
  apply Z.leb_le in H1. apply Z.ltb_lt in H2. done.
Qed.

Lemma unfit_value etype code v :
  2 ^ 31 ≤ v → fits (Write etype code v) = false.
Proof.
  intros H. unfold fits, c_int.
  rewrite (proj2 (Z.ltb_ge v (2 ^ 31)) H). by rewrite !andb_false_r.
Qed.

(** C7, where the code departs from it.  On an open device, take an axis
    event with an int value that is the last of its key in the batch,
    whose code is not in the axis map and is one of [accel_ts], [gyro_ts],
    [imu_ts] while [output_imu_timestamps] is [True], or is the string
    [output_imu_timestamps] holds.  A call that returns has written the
    timestamp [(raw // 1000) mod 2^32], and that timestamp is below 2^31.
    From 2^31 on, the device refuses it: once the later events of the
    batch are through, the call raises [OverflowError].  A batch of that
    event alone, with the raw value 1_500_000, writes 1500 and ends with
    the synchronization event (after the wall-clock timestamp, when
    [output_timestamps] is on and the device takes that one). *)
Theorem consume_sensor_timestamp now self d l1 l2 code raw :
  dev self = Some d →
  axis_map (conf self) !! code = None →
  (output_imu_timestamps (conf self) = PyBool true ∧ code ∈ imu_codes)
  ∨ output_imu_timestamps (conf self) = PyStr code →
  (∀ x, x ∈ l2 → ev_key x ≠ (axis, code)) →
  (∀ self',
     consume B now self (l1 ++ AxisEvent code (PyInt raw) :: l2) = Ok self' →
     (raw `div` 1000) `mod` 2 ^ 32 < 2 ^ 31
     ∧ ∃ d' pre post,
         dev self' = Some d'
         ∧ written d'
           = written d
             ++ pre
             ++ Write (B "EV_MSC") (B "MSC_TIMESTAMP")
                  ((raw `div` 1000) `mod` 2 ^ 32)
                :: post)
  ∧ (2 ^ 31 ≤ (raw `div` 1000) `mod` 2 ^ 32 →
     ∀ fr, consume_loop B (conf self) (enter self) (reverse l2) = Ok fr →
           consume B now self (l1 ++ AxisEvent code (PyInt raw) :: l2)
           = Raise OverflowError)
  ∧ (fits (Write (B "EV_MSC") (B "MSC_TIMESTAMP") 1500) = true →
     (output_timestamps (conf self) = true →
      0 < (now `div` 1000) `mod` 2 ^ 32 < 2 ^ 31) →
     ∃ self' d',
       consume B now self [AxisEvent code (PyInt 1500000)] = Ok self'
       ∧ dev self' = Some d'
       ∧ written d'
         = written d
           ++ [Write (B "EV_MSC") (B "MSC_TIMESTAMP") 1500]
           ++ (if output_timestamps (conf self) then
                 [Write (B "EV_MSC") (B "MSC_TIMESTAMP")
                    ((now `div` 1000) `mod` 2 ^ 32)]
               else [])
           ++ [Syn]).
Proof.
  intros Hd Hax Himu Hl2.
  apply is_imu_ts_intro in Himu.
  split; [|split].
  - intros self' Hc.
    destruct (consume_at B now self d l1
                (AxisEvent code (PyInt raw)) l2 self' Hd Hl2 Hc)
      as (fr2 & fr3 & fr4 & H2 & Hk & H3 & H4 & _ & ->).
    rewrite (consume_ev_sensor_ts (conf self) fr2 code _ Hk Hax Himu)
      in H3.
    destruct (fits _) eqn:Hf; [|done].
    injection H3 as <-.
    split; [by destruct (fits_c_int _ _ _ Hf) as [_ ?]|].
    destruct (consume_loop_out B _ _ _ _ H4) as (ops & Hops & _).
    simpl in Hops.
    eexists _, (out fr2), (ops ++ closing B (conf self) now fr4).
    split; [done|].
    simpl. rewrite Hops. by rewrite <- !app_assoc.
  - intros Hbig fr Hl. unfold consume, consume_frame. rewrite Hd.
    rewrite reverse_app, reverse_cons, !consume_loop_app.
    rewrite Hl. simpl.
    rewrite consume_ev_sensor_ts; [|by eapply consume_loop_fresh;
      [done|intros x Hx; apply Hl2; by apply elem_of_reverse]|done|done].
    by rewrite unfit_value.
  - intros Hf Hnow.
    set (fr := {| wrote := <[(axis, code) := 1500]> ∅; ts := 1500;
                  aspect := touchpad_aspect self; tid := touch_id self;
                  out := [Write (B "EV_MSC") (B "MSC_TIMESTAMP") 1500] |}).
    assert (consume_loop B (conf self) (enter self)
              (reverse [AxisEvent code (PyInt 1500000)]) = Ok fr) as Hl.
    { simpl. rewrite consume_ev_sensor_ts; [|done|done|done].
      change ((1500000 `div` 1000) `mod` 2 ^ 32) with 1500.
      by rewrite Hf. }
    assert (closing B (conf self) now fr
            = (if output_timestamps (conf self) then
                 [Write (B "EV_MSC") (B "MSC_TIMESTAMP")
                    ((now `div` 1000) `mod` 2 ^ 32)]
               else []) ++ [Syn]) as Hcl.
    { unfold closing, any_wrote. simpl.
      rewrite (bool_decide_eq_false_2 (<[_ := _]> ∅ = ∅))
        by apply insert_non_empty.
      simpl. destruct (output_timestamps (conf self)); simpl.
      - rewrite (bool_decide_eq_false_2 ((now `div` 1000) `mod` 2 ^ 32 = 0))
          by (specialize (Hnow eq_refl); lia).
        by rewrite orb_true_r.
      - by rewrite orb_true_r. }
    pose proof (consume_Ok B now self d _ fr Hd Hl) as Hc.
    rewrite Hcl in Hc.
    eexists _, _. split; [apply Hc|split; [done|done]].
    destruct (output_timestamps (conf self)); [|done].
    specialize (Hnow eq_refl). simpl.
    unfold fits, c_int in *.
    apply andb_true_iff in Hf as [-> _]. simpl.
    rewrite (proj2 (Z.leb_le _ _)) by lia.
    by rewrite (proj2 (Z.ltb_lt _ _)) by lia.
Qed.

End SensorTimestamp.

Lemma consume_sensor_timestamp_witness :
  consume Sample.B 5000000
    (Sample.fresh (Sample.config (PyBool true) true) (Sample.device []))
    [AxisEvent "gyro_ts" 3000000000000] = Raise OverflowError
  ∧ ∃ self' d',
      consume Sample.B 5000000
        (Sample.fresh (Sample.config (PyBool true) true) (Sample.device []))
        [AxisEvent "gyro_ts" 1500000] = Ok self'
      ∧ dev self' = Some d'
      ∧ written d' = [Write 4 5 1500; Write 4 5 5000; Syn].
Proof.
  split.
  - destruct (consume_sensor_timestamp Sample.B 5000000
                (Sample.fresh (Sample.config (PyBool true) true)
                   (Sample.device []))
                (Sample.device []) [] [] "gyro_ts" 3000000000000)
      as (_ & Hraise & _).
    + reflexivity.
    + reflexivity.
    + left. split; [reflexivity|]. right. left.
    + intros x Hx. by apply elem_of_nil in Hx.
    + apply (Hraise ltac:(vm_compute; discriminate) _ eq_refl).
  - destruct (consume_sensor_timestamp Sample.B 5000000
                (Sample.fresh (Sample.config (PyBool true) true)
                   (Sample.device []))
                (Sample.device []) [] [] "gyro_ts" 1500000)
      as (_ & _ & Hscenario).
    + reflexivity.
    + reflexivity.
    + left. split; [reflexivity|]. right. left.
    + intros x Hx. by apply elem_of_nil in Hx.
    + destruct Hscenario as (self' & d' & Hc & Hd & Hw).
      * reflexivity.
      * intros _. vm_compute. split; reflexivity.
      * exists self', d'. split; [exact Hc|]. split; [exact Hd|exact Hw].
Defined.

(** ** The aspect ratio *)

Section AspectRatio.

Variable B : string -> Z.

(** No configuration event is recorded in [wrote]. *)
Lemma consume_loop_no_configuration c self evs fr code :
  consume_loop B c (enter self) evs = Ok fr →
  wrote fr !! (configuration, code) = None.
Proof.
  intros H. apply eq_None_not_Some. intros Hs.
  apply (consume_loop_wrote B c _ _ _ H) in Hs
    as [Hs|(x & _ & Hk & Hw)].
  - simpl in Hs. rewrite lookup_empty in Hs. by destruct Hs.
  - unfold writable in Hw. rewrite Hk in Hw. discriminate Hw.
Qed.

Lemma consume_ev_configuration c fr v fr' :
  wrote fr !! aspect_key = None →
  consume_ev B c fr (ConfigurationEvent "touchpad_aspect_ratio" v) = Ok fr' →
  ∃ a, py_float v = Ok a ∧ aspect fr' = Attr (PyFloat a).
Proof.
  intros Hk H%consume_ev_Ok.
  inversion H as [ev Hs| | | | |v' a Hk' Ha|ev Hk' Hw Hne]; subst.
  - unfold ev_key in Hs. simpl in Hs. fold aspect_key in Hs.
    rewrite Hk in Hs. by destruct Hs.
  - by exists a.
  - by destruct (Hne v).
Qed.

Lemma consume_loop_aspect_other c evs : ∀ fr fr',
  (∀ x, x ∈ evs → ev_key x ≠ aspect_key) →
  consume_loop B c fr evs = Ok fr' → aspect fr' = aspect fr.
Proof.
  induction evs as [|ev evs IH]; intros fr fr' Hne H; simpl in H.
  - by simplify_eq.
  - destruct (consume_ev B c fr ev) as [fr1|e] eqn:H1; simpl in H; [|done].
    rewrite (IH fr1 fr'); [|intros x Hx; apply Hne; by right|done].
    eapply consume_ev_aspect; [done|].
    intros v ->.
    by apply (Hne (ConfigurationEvent "touchpad_aspect_ratio" v));
      [left|].
Qed.

(** C10.  On an open device, when the batch of a call that returns holds
    configuration events of code [touchpad_aspect_ratio], the call leaves
    [touchpad_aspect] at the value of the first of them in the batch, as
    a float: the loop runs from the last event to the first and never
    records a configuration event in [wrote], so every one of them is
    applied and the first is applied last. *)
Theorem consume_aspect_earliest now self d l1 l2 v self' :
  dev self = Some d →
  (∀ x, x ∈ l1 → ev_key x ≠ aspect_key) →
  consume B now self
    (l1 ++ ConfigurationEvent "touchpad_aspect_ratio" v :: l2) = Ok self' →
  (∃ a, py_float v = Ok a ∧ touchpad_aspect self' = Attr (PyFloat a))
  ∧ (∀ evs fr code,
       consume_loop B (conf self) (enter self) evs = Ok fr →
       wrote fr !! (configuration, code) = None).
Proof.
  intros Hd Hl1 Hc. split.
  - destruct (consume_split B now self d l1
                (ConfigurationEvent "touchpad_aspect_ratio" v) l2 self'
                Hd Hc)
      as (fr2 & fr3 & fr4 & H2 & H3 & H4 & _ & ->).
    destruct (consume_ev_configuration (conf self) fr2 v fr3) as (a & Ha & A3);
      [by eapply consume_loop_no_configuration|done|].
    exists a. split; [done|]. simpl.
    rewrite (consume_loop_aspect_other _ _ _ _
               (λ x Hx, Hl1 x (proj1 (elem_of_reverse _ _) Hx)) H4).
    done.
  - intros evs fr code. apply consume_loop_no_configuration.
Qed.

End AspectRatio.

Lemma consume_aspect_earliest_witness :
  ∃ self',
    consume Sample.B 0 Sample.plain
      [ButtonEvent "a" true; ConfigurationEvent "touchpad_aspect_ratio" 2;
       ConfigurationEvent "touchpad_aspect_ratio" 3;
       ConfigurationEvent "touchpad_aspect_ratio" 4] = Ok self'
    ∧ touchpad_aspect self' = Attr (PyFloat (float_of_Z 2)).
Proof.
  destruct (consume Sample.B 0 Sample.plain
              [ButtonEvent "a" true;
               ConfigurationEvent "touchpad_aspect_ratio" 2;
               ConfigurationEvent "touchpad_aspect_ratio" 3;
               ConfigurationEvent "touchpad_aspect_ratio" 4])
    as [self'|e] eqn:Hc; [|vm_compute in Hc; discriminate Hc].
  destruct (consume_aspect_earliest Sample.B 0 Sample.plain
              (Sample.device []) [ButtonEvent "a" true]
              [ConfigurationEvent "touchpad_aspect_ratio" 3;
               ConfigurationEvent "touchpad_aspect_ratio" 4] 2 self')
    as ((a & Ha & Hasp) & _).
  - reflexivity.
  - intros x Hx. apply list_elem_of_singleton in Hx. subst x. discriminate.
  - exact Hc.
  - exists self'. split; [reflexivity|]. rewrite Hasp.
    vm_compute in Ha. injection Ha as <-. reflexivity.
Defined.

(** ** produce *)

Section Produce.

Variable B : string -> Z.

Lemma drain_concat d r :
  drain B d r = fold_left (produce_ev B d) (concat (readable d))
                  (drain_start r).
Proof.
  unfold drain. fold (drain_start r).
  generalize (drain_start r). induction (readable d) as [|b bs IH];
    intros st; simpl; [done|].
  by rewrite IH, fold_left_app.
Qed.

(** [produce] on an instance that can be read. *)
Lemma produce_open self fds n d :
  ignore_cmds (conf self) = false →
  fd self = Attr (Some n) → n ≠ 0 → n ∈ fds →
  dev self = Some d →
  produce B self fds
  = Ok ({| conf := conf self;
           dev := Some {| dev_fd := dev_fd d;
                          written := written d
                                     ++ d_ops (drain B d (rumble self));
                          readable := [];
                          ff_requests := ff_requests d;
                          ff_retval := ff_retval d |};
           ofs := ofs self; sys_ofs := sys_ofs self;
           rumble := d_rumble (drain B d (rumble self)); fd := fd self;
           input := input self;
           touchpad_aspect := touchpad_aspect self;
           touch_id := touch_id self |},
        d_out (drain B d (rumble self)),
        d_log (drain B d (rumble self))).
Proof.
  intros Hi Hf Hn Hin Hd. unfold produce. rewrite Hi, Hf. simpl.
  rewrite (bool_decide_eq_false_2 _ Hn), (bool_decide_eq_true_2 _ Hin).
  simpl. by rewrite Hd.
Qed.

(** Reading an event only appends to the events and to the log. *)
Lemma produce_ev_grows d st ev :
  ∃ o g, d_out (produce_ev B d st ev) = d_out st ++ o
         ∧ d_log (produce_ev B d st ev) = d_log st ++ g.
Proof.
  unfold produce_ev.
  repeat case_match; simpl;
    first
      [ by exists [], []; rewrite !app_nil_r
      | eexists _, []; split; [reflexivity|by rewrite app_nil_r]
      | eexists [], _; split; [by rewrite app_nil_r|reflexivity] ].
Qed.

Lemma produce_loop_grows d evs : ∀ st,
  ∃ o g, d_out (fold_left (produce_ev B d) evs st) = d_out st ++ o
         ∧ d_log (fold_left (produce_ev B d) evs st) = d_log st ++ g.
Proof.
  induction evs as [|ev evs IH]; intros st; simpl.
  - exists [], []. by rewrite !app_nil_r.
  - destruct (IH (produce_ev B d st ev)) as (o2 & g2 & -> & ->).
    destruct (produce_ev_grows d st ev) as (o1 & g1 & -> & ->).
    exists (o1 ++ o2), (g1 ++ g2). by rewrite !app_assoc.
Qed.

(** What reading one event does to [self.rumble]. *)
Lemma produce_ev_rumble d st ev :
  d_rumble (produce_ev B d st ev)
  = if is_rumble_upload B d ev then
      Some (uploaded (u_ff_rumble_effect (ff_requests d (ie_value ev))))
    else d_rumble st.
Proof.
  unfold produce_ev, is_rumble_upload.
  repeat (case_match; simpl in *; try done); simplify_eq.
Qed.

(** C8.  When [produce] reads a force-feedback event with a non-zero
    value, and an effect has been uploaded by then, the stored rumble
    event is appended to the events returned and stays stored; when none
    has been uploaded, a warning is logged and no event is appended.
    [produce] returns in both cases. *)
Theorem produce_activation self fds n d pre ev post :
  ignore_cmds (conf self) = false →
  fd self = Attr (Some n) → n ≠ 0 → n ∈ fds →
  dev self = Some d →
  concat (readable d) = pre ++ ev :: post →
  ie_type ev = B "EV_FF" → ie_value ev ≠ 0 →
  B "EV_FF" ≠ B "EV_MSC" → B "EV_FF" ≠ B "EV_UINPUT" →
  let st := fold_left (produce_ev B d) pre (drain_start (rumble self)) in
  let fin := fold_left (produce_ev B d) post (produce_ev B d st ev) in
  (∃ self', produce B self fds = Ok (self', d_out fin, d_log fin))
  ∧ produce_ev B d st ev
    = match d_rumble st with
      | Some r =>
          {| d_rumble := Some r; d_out := d_out st ++ [r];
             d_ops := d_ops st; d_log := d_log st |}
      | None =>
          {| d_rumble := None; d_out := d_out st; d_ops := d_ops st;
             d_log := d_log st ++ [Warn_rumble_not_uploaded ev] |}
      end.
Proof.
  intros Hi Hf Hn Hin Hd Hev Hty Hv Hmsc Hui st fin. split.
  - rewrite (produce_open self fds n d Hi Hf Hn Hin Hd).
    eexists. repeat f_equal;
      rewrite drain_concat, Hev, fold_left_app; reflexivity.
  - unfold produce_ev. rewrite Hty.
    rewrite (bool_decide_eq_false_2 _ Hmsc). simpl.
    rewrite (bool_decide_eq_false_2 _ Hui).
    rewrite (bool_decide_eq_true_2 (B "EV_FF" = B "EV_FF")) by done.
    rewrite (bool_decide_eq_false_2 _ Hv). simpl.
    by destruct (d_rumble st).
Qed.

(** ** Calls without a device *)

Lemma consume_without_device now self evs :
  dev self = None → consume B now self evs = Ok self.
Proof. intros H. unfold consume. by rewrite H. Qed.

(** Once [fd] has been assigned, [produce] returns no event when
    commands are ignored, when there is no descriptor or no device, and
    when the descriptor is not among those that are ready. *)
Lemma produce_returns_empty self fds f :
  fd self = Attr f →
  ignore_cmds (conf self) = true ∨ f = None ∨ dev self = None
  ∨ (∀ n, f = Some n → n ∉ fds) →
  produce B self fds = Ok (self, [], []).
Proof.
  intros Hf H. unfold produce.
  destruct (ignore_cmds (conf self)); [done|].
  rewrite Hf. simpl. destruct f as [n|]; [|done].
  destruct H as [?|[?|[H|H]]]; try done.
  - rewrite H. by destruct (_ || _).
  - rewrite (bool_decide_eq_false_2 (n ∈ fds)) by (by apply H).
    by rewrite orb_true_r.
Qed.

Lemma produce_ignore_cmds self fds :
  ignore_cmds (conf self) = true → produce B self fds = Ok (self, [], []).
Proof. intros H. unfold produce. by rewrite H. Qed.

(** C5, where the code departs from it.  On an instance that [open] has
    never been called on, [consume] returns and changes nothing, but
    [produce] raises unless commands are ignored: it reads [fd] before it
    looks at [dev], and [__init__] has not created [fd]. *)
Theorem produce_before_open c now evs fds :
  ignore_cmds c = false →
  dev (init c) = None
  ∧ consume B now (init c) evs = Ok (init c)
  ∧ produce B (init c) fds = Raise (AttributeError "fd").
Proof.
  intros H. split; [done|]. split; [done|].
  unfold produce. simpl. by rewrite H.
Qed.

End Produce.

Lemma produce_activation_witness :
  ∃ self',
    produce Sample.B
      (Sample.fresh (Sample.config (PyBool false) false)
         (Sample.device
            [[{| ie_type := 21; ie_code := 0; ie_value := 1 |}]]))
      [7]
    = Ok (self', [],
          [Warn_rumble_not_uploaded
             {| ie_type := 21; ie_code := 0; ie_value := 1 |}]).
Proof.
  destruct (produce_activation Sample.B
              (Sample.fresh (Sample.config (PyBool false) false)
                 (Sample.device
                    [[{| ie_type := 21; ie_code := 0; ie_value := 1 |}]]))
              [7] 7
              (Sample.device
                 [[{| ie_type := 21; ie_code := 0; ie_value := 1 |}]])
              [] {| ie_type := 21; ie_code := 0; ie_value := 1 |} [])
    as ((self' & Hp) & _).
  - reflexivity.
  - reflexivity.
  - discriminate.
  - left.
  - reflexivity.
  - reflexivity.
  - reflexivity.
  - discriminate.
  - discriminate.
  - discriminate.
  - exists self'. exact Hp.
Defined.

Lemma produce_before_open_witness :
  dev (init (Sample.config (PyBool false) false)) = None
  ∧ consume Sample.B 0 (init (Sample.config (PyBool false) false))
      [ButtonEvent "a" true]
    = Ok (init (Sample.config (PyBool false) false))
  ∧ produce Sample.B (init (Sample.config (PyBool false) false)) [7]
    = Raise (AttributeError "fd").
Proof. apply (produce_before_open Sample.B). reflexivity. Defined.

(** ** The stored rumble effect *)

Section Rumble.

Variable B : string -> Z.
Variable UInputMonkey : CtorArgs -> option string -> result Device.
Variable UInput : CtorArgs -> result Device.

Lemma produce_loop_rumble d evs : ∀ st,
  d_rumble (fold_left (produce_ev B d) evs st) = d_rumble st
  ∨ ∃ ev, ev ∈ evs ∧ is_rumble_upload B d ev = true
          ∧ d_rumble (fold_left (produce_ev B d) evs st)
            = Some (uploaded
                      (u_ff_rumble_effect (ff_requests d (ie_value ev)))).
Proof.
  induction evs as [|ev evs IH]; intros st; simpl; [by left|].
  destruct (IH (produce_ev B d st ev)) as [->|(x & Hin & Hup & ->)].
  - rewrite produce_ev_rumble.
    destruct (is_rumble_upload B d ev) eqn:Hup; [|by left].
    right. exists ev. split; [by left|done].
  - right. exists x. split; [by right|done].
Qed.

(** C6, as the code has it.  [self.rumble] is left as it is by [close],
    by [open] and by [consume].  [produce] changes it only by reading the
    upload of a rumble effect, which replaces whatever was stored; every
    other event it reads, an activation among them, leaves it in place. *)
Theorem rumble_changes_on_upload_only :
  (∀ self exit, rumble (close self exit).1 = rumble self)
  ∧ (∀ self self' fds log,
       open UInputMonkey UInput self = (Ok (self', fds), log) →
       rumble self' = rumble self)
  ∧ (∀ now self evs self',
       consume B now self evs = Ok self' → rumble self' = rumble self)
  ∧ (∀ self fds self' evs log,
       produce B self fds = Ok (self', evs, log) →
       rumble self' = rumble self
       ∨ ∃ d ev,
           dev self = Some d ∧ ev ∈ concat (readable d)
           ∧ is_rumble_upload B d ev = true
           ∧ rumble self'
             = Some (uploaded
                       (u_ff_rumble_effect
                          (ff_requests d (ie_value ev)))))
  ∧ (∀ d st ev,
       d_rumble (produce_ev B d st ev)
       = if is_rumble_upload B d ev then
           Some (uploaded
                   (u_ff_rumble_effect (ff_requests d (ie_value ev))))
         else d_rumble st).
Proof.
  split; [done|]. split; [|split; [|split]].
  - intros self self' fds log. unfold open, opened.
    repeat case_match; intros [= <- _ _]; done.
  - intros now self evs self'. unfold consume.
    destruct (dev self); [|by intros [= <-]].
    destruct (consume_frame B now self evs); simpl; [|done].
    by intros [= <-].
  - intros self fds self' evs log. unfold produce.
    destruct (ignore_cmds (conf self)); [intros [= <- _ _]; by left|].
    destruct (fd self) as [|[n|]]; simpl; [done| |intros [= <- _ _]; by left].
    destruct (_ || _); [intros [= <- _ _]; by left|].
    destruct (dev self) as [d|] eqn:Hd; [|intros [= <- _ _]; by left].
    intros [= <- _ _]. simpl. rewrite drain_concat.
    destruct (produce_loop_rumble d (concat (readable d))
                (drain_start (rumble self)))
      as [->|(ev & Hin & Hup & ->)]; [by left|].
    right. by exists d, ev.
  - apply produce_ev_rumble.
Qed.

End Rumble.

Lemma rumble_changes_on_upload_only_witness :
  ∃ s1,
    produce Sample.B
      (Sample.fresh (Sample.config (PyBool false) false)
         (Sample.device
            [[{| ie_type := 257; ie_code := 1; ie_value := 0 |};
              {| ie_type := 21; ie_code := 0; ie_value := 1 |}]]))
      [7]
    = Ok (s1,
          [uploaded {| strong_magnitude := 32768;
                       weak_magnitude := 65535 |}], [])
    ∧ rumble s1
      = Some (uploaded {| strong_magnitude := 32768;
                          weak_magnitude := 65535 |}).
Proof.
  eexists. split; [vm_compute; reflexivity|].
  destruct (rumble_changes_on_upload_only Sample.B
              (λ _ _, Raise (OtherException "uinput"))
              (λ _, Raise (OtherException "uinput")))
    as (_ & _ & _ & Hp & _).
  destruct (Hp (Sample.fresh (Sample.config (PyBool false) false)
                  (Sample.device
                     [[{| ie_type := 257; ie_code := 1; ie_value := 0 |};
                       {| ie_type := 21; ie_code := 0; ie_value := 1 |}]]))
              [7] _ _ _ eq_refl)
    as [Hsame|(d & ev & _ & _ & _ & Hr)].
  - discriminate Hsame.
  - reflexivity.
Defined.

(** C6 fails as stated: [close] leaves the stored effect in place. *)
Lemma close_keeps_rumble :
  ∃ s1 evs log,
    produce Sample.B
      (Sample.fresh (Sample.config (PyBool false) false)
         (Sample.device
            [[{| ie_type := 257; ie_code := 1; ie_value := 0 |}]]))
      [7] = Ok (s1, evs, log)
    ∧ dev (close s1 true).1 = None
    ∧ rumble (close s1 true).1
      = Some (uploaded {| strong_magnitude := 32768;
                          weak_magnitude := 65535 |}).
Proof.
  do 3 eexists. split; [vm_compute; reflexivity|]. split; reflexivity.
Qed.

(** ** open *)

Section Open.

Variable UInputMonkey : CtorArgs -> option string -> result Device.
Variable UInput : CtorArgs -> result Device.

(** C9.  [open] first calls the constructor that takes [uniq].  When
    that one returns, its device is used and nothing else is tried.
    When it raises, the exception is logged and the default constructor
    is called with the same arguments without [uniq]; when that one
    returns, [open] returns with its device, and when it raises too, its
    exception is what [open] raises.  So [open] raises exactly when both
    constructors do. *)
Theorem open_falls_back self :
  let primary := UInputMonkey (ctor_args (conf self)) (uniq (conf self)) in
  let default := UInput (ctor_args (conf self)) in
  (∀ d, primary = Ok d →
        open UInputMonkey UInput self
        = (Ok (opened self d), [Info_opening (name (conf self))]))
  ∧ (∀ e d, primary = Raise e → default = Ok d →
            open UInputMonkey UInput self
            = (Ok (opened self d),
               [Info_opening (name (conf self));
                Error_monkey_patch_failed e]))
  ∧ (∀ e e', primary = Raise e → default = Raise e' →
             open UInputMonkey UInput self
             = (Raise e',
                [Info_opening (name (conf self));
                 Error_monkey_patch_failed e]))
  ∧ ((∃ e', (open UInputMonkey UInput self).1 = Raise e')
     ↔ (∃ e, primary = Raise e) ∧ (∃ e', default = Raise e')).
Proof.
  intros primary default. unfold open. fold primary default.
  split; [by intros d ->|]. split; [by intros e d -> ->|].
  split; [by intros e e' -> ->|].
  destruct primary as [d|e]; simpl.
  - split; [by intros [? ?]|]. by intros [[? ?] _].
  - destruct default as [d|e']; simpl.
    + split; [by intros [? ?]|]. by intros [_ [? ?]].
    + split; eauto.
Qed.

(** What a successful [open] leaves on the instance. *)
Lemma opened_state self d :
  dev (opened self d).1 = Some d
  ∧ touchpad_aspect (opened self d).1 = Attr (PyInt 1)
  ∧ touch_id (opened self d).1 = Attr 1
  ∧ fd (opened self d).1 = Attr (Some (dev_fd d))
  ∧ (opened self d).2
    = if ignore_cmds (conf self) then [] else [dev_fd d].
Proof. done. Qed.

End Open.

Lemma open_falls_back_witness :
  open (λ _ _, Raise (OtherException "uniq is not supported"))
    (λ _, Ok (Sample.device []))
    (init (Sample.config (PyBool false) false))
  = (Ok (opened (init (Sample.config (PyBool false) false))
           (Sample.device [])),
     [Info_opening "Handheld Daemon Controller";
      Error_monkey_patch_failed (OtherException "uniq is not supported")]).
Proof.
  destruct (open_falls_back
              (λ _ _, Raise (OtherException "uniq is not supported"))
              (λ _, Ok (Sample.device []))
              (init (Sample.config (PyBool false) false)))
    as (_ & H & _).
  apply (H (OtherException "uniq is not supported") (Sample.device []));
    reflexivity.
Defined.

(** ** The instance between calls *)

Section Ready.

Variable B : string -> Z.
Variable UInputMonkey : CtorArgs -> option string -> result Device.
Variable UInput : CtorArgs -> result Device.

Lemma consume_ev_tid_range c fr ev fr' t :
  tid fr = Attr t → 1 ≤ t ≤ 500 →
  consume_ev B c fr ev = Ok fr' →
  ∃ t', tid fr' = Attr t' ∧ 1 ≤ t' ≤ 500.
Proof.
  intros Ht Hr H%consume_ev_Ok.
  destruct H as [ev Hs|code v ax n Hk Hax Hn Hf|code n Hk Hax Hts Hf
                 |code v b Hk Hb Hne Hf|v b t' Hk Hb Ht' Hf|v a Hk Ha
                 |ev Hk Hw Hne]; simpl; eauto.
  rewrite Ht in Ht'. injection Ht' as <-.
  eexists. split; [done|]. unfold next_touch_id. case_match; lia.
Qed.

Lemma consume_loop_tid_range c evs : ∀ fr fr' t,
  tid fr = Attr t → 1 ≤ t ≤ 500 →
  consume_loop B c fr evs = Ok fr' →
  ∃ t', tid fr' = Attr t' ∧ 1 ≤ t' ≤ 500.
Proof.
  induction evs as [|ev evs IH]; intros fr fr' t Ht Hr H; simpl in H.
  - simplify_eq. eauto.
  - destruct (consume_ev B c fr ev) as [fr1|e] eqn:H1; simpl in H; [|done].
    destruct (consume_ev_tid_range _ _ _ _ _ Ht Hr H1) as (t1 & Ht1 & Hr1).
    by apply (IH fr1 fr' t1).
Qed.

Lemma consume_ev_aspect_set c fr ev fr' a :
  aspect fr = Attr a →
  consume_ev B c fr ev = Ok fr' → ∃ a', aspect fr' = Attr a'.
Proof.
  intros Ha H%consume_ev_Ok.
  destruct H; simpl; eauto.
Qed.

Lemma consume_loop_aspect_set c evs : ∀ fr fr' a,
  aspect fr = Attr a →
  consume_loop B c fr evs = Ok fr' → ∃ a', aspect fr' = Attr a'.
Proof.
  induction evs as [|ev evs IH]; intros fr fr' a Ha H; simpl in H.
  - simplify_eq. eauto.
  - destruct (consume_ev B c fr ev) as [fr1|e] eqn:H1; simpl in H; [|done].
    destruct (consume_ev_aspect_set _ _ _ _ _ Ha H1) as [a1 Ha1].
    by apply (IH fr1 fr' a1).
Qed.

(** [ready] holds of a new instance and every call keeps it. *)
Lemma ready_invariant :
  (∀ c, ready (init c))
  ∧ (∀ self self' fds log,
       open UInputMonkey UInput self = (Ok (self', fds), log) →
       ready self')
  ∧ (∀ self exit, ready (close self exit).1)
  ∧ (∀ now self evs self',
       ready self → consume B now self evs = Ok self' → ready self')
  ∧ (∀ self fds self' evs log,
       ready self → produce B self fds = Ok (self', evs, log) →
       ready self').
Proof.
  split; [by intros c d|]. split; [|split; [by intros self exit d|split]].
  - intros self self' fds log. unfold open, opened.
    repeat case_match; intros [= <- _ _] d' [= <-]; simpl;
      (split; [done|split; [eauto|exists 1; split; [done|lia]]]).
  - intros now self evs self' Hr Hc.
    destruct (dev self) as [d|] eqn:Hd.
    2:{ unfold consume in Hc. rewrite Hd in Hc. by injection Hc as <-. }
    destruct (Hr d Hd) as (Hfd & [a Ha] & t & Ht & Hrange).
    destruct (consume_inv B now self d evs self' Hd Hc) as (fr & Hl & _ & ->).
    intros d' [= <-]. simpl.
    split; [done|]. split.
    + by apply (consume_loop_aspect_set _ _ (enter self) _ a Ha Hl).
    + by apply (consume_loop_tid_range _ _ (enter self) _ t Ht Hrange Hl).
  - intros self fds self' evs log Hr. unfold produce.
    destruct (ignore_cmds (conf self)); [by intros [= <- _ _]|].
    destruct (fd self) as [|[n|]] eqn:Hf; simpl;
      [done| |by intros [= <- _ _]].
    destruct (_ || _); [by intros [= <- _ _]|].
    destruct (dev self) as [d|] eqn:Hd; [|by intros [= <- _ _]].
    destruct (Hr d Hd) as (Hfd & Ha & Ht).
    intros [= <- _ _] d' [= <-]. simpl. split; [congruence|done].
Qed.

End Ready.

(** ** The scenarios of the specification, evaluated *)

(** Scenario A: scale 1, offset 0, bounds (-32767, 32767), raw 40000. *)
Example scenario_A :
  ∃ self' d',
    consume Sample.B 0 Sample.plain [AxisEvent "left_stick_x" 40000]
    = Ok self'
    ∧ dev self' = Some d'
    ∧ written d' = [Write 3 0 32767; Syn].
Proof. do 2 eexists. split; [vm_compute; reflexivity|]. by split. Qed.

(** [int] truncates toward zero: [10 * -0.87 + 5] is the float
    -3.6999999999999993 and is written as -3. *)
Example truncation_toward_zero :
  ∃ self' d',
    consume Sample.B 0 Sample.plain
      [AxisEvent "rs_raw" (Sample.decimal (-87) 100)]
    = Ok self'
    ∧ dev self' = Some d'
    ∧ written d' = [Write 3 2 (-3); Syn].
Proof. do 2 eexists. split; [vm_compute; reflexivity|]. by split. Qed.

(** The arithmetic is that of floats: the float 0.7 is below 7/10, but
    [10 * 0.7] is rounded to 7.0, so [10 * 0.7 + 5] is 12.0 and is written
    as 12. *)
Example float_rounding :
  ∃ self' d',
    consume Sample.B 0 Sample.plain
      [AxisEvent "rs_raw" (Sample.decimal 7 10)] = Ok self'
    ∧ dev self' = Some d'
    ∧ written d' = [Write 3 2 12; Syn].
Proof. do 2 eexists. split; [vm_compute; reflexivity|]. by split. Qed.

(** What cannot be written ends the call: a value that is not a number,
    one beyond the range of a C int, a timestamp given as a float. *)
Example refused_values :
  consume Sample.B 0 Sample.plain [AxisEvent "rs_raw" (PyFloat S754_nan)]
  = Raise ValueError
  ∧ consume Sample.B 0 Sample.plain [AxisEvent "rs_raw" (2 ^ 31)]
    = Raise OverflowError
  ∧ consume Sample.B 0
      (Sample.fresh (Sample.config (PyBool true) false) (Sample.device []))
      [AxisEvent "gyro_ts" (Sample.decimal 3 2)]
    = Raise TypeError.
Proof. split; [|split]; vm_compute; reflexivity. Qed.

(** Scenario C: upload of weak 0xFFFF and strong 0x8000, then activation:
    the magnitudes are the floats 1.0 and 0x8000 / 0xFFFF. *)
Example scenario_C :
  ∃ self' w s,
    produce Sample.B
      (Sample.fresh (Sample.config (PyBool false) false)
         (Sample.device
            [[{| ie_type := 257; ie_code := 1; ie_value := 0 |}];
             [{| ie_type := 21; ie_code := 0; ie_value := 1 |}]]))
      [7]
    = Ok (self', [RumbleEvent "main" (PyFloat w) (PyFloat s)], [])
    ∧ w = float_of_Z 1
    ∧ s = S754_finite false 4503668347895824 (-53).
Proof.
  do 3 eexists. split; [vm_compute; reflexivity|]. by split.
Qed.

(** Scenario D: with [ignore_cmds] set, [open] returns no descriptor and
    [produce] returns no event, whatever descriptors are ready. *)
Example scenario_D c d fds :
  ignore_cmds c = true →
  (opened (init c) d).2 = []
  ∧ produce Sample.B (opened (init c) d).1 fds
    = Ok ((opened (init c) d).1, [], []).
Proof.
  intros H. split.
  - unfold opened. simpl. by rewrite H.
  - by apply produce_ignore_cmds.
Qed.

(** ** Further properties of consume *)

Section ConsumeMore.

Variable B : string -> Z.

(** An event of a key that is not translated leaves the locals and the
    device alone; only [touchpad_aspect] can change, and the body raises
    only when a new aspect ratio is no float. *)
Lemma consume_ev_unwritable c fr ev :
  writable c ev = false →
  (∀ v, ev = ConfigurationEvent "touchpad_aspect_ratio" v →
        ∃ a, py_float v = Ok a) →
  ∃ a, consume_ev B c fr ev
       = Ok {| wrote := wrote fr; ts := ts fr; aspect := a; tid := tid fr;
               out := out fr |}.
Proof.
  intros Hw Hfl. unfold consume_ev.
  case_bool_decide; [exists (aspect fr); by destruct fr|].
  destruct ev as [code v|code v|code v|code w s]; simpl.
  - destruct (axis_map c !! code) as [ax|] eqn:Hax.
    + by rewrite (writable_axis c code v ax Hax) in Hw.
    + destruct (is_imu_ts c code) eqn:Hts.
      * by rewrite (writable_ts c code v Hts) in Hw.
      * exists (aspect fr). by destruct fr.
  - destruct (btn_map c !! code) as [b|] eqn:Hb.
    + by rewrite (writable_button c code v b Hb) in Hw.
    + exists (aspect fr). by destruct fr.
  - case_bool_decide as Hc.
    + subst code. destruct (Hfl v eq_refl) as [a ->]. simpl. by eexists.
    + exists (aspect fr). by destruct fr.
  - exists (aspect fr). by destruct fr.
Qed.

Lemma consume_loop_unwritable c evs : ∀ fr,
  (∀ e, e ∈ evs → writable c e = false) →
  (∀ v, ConfigurationEvent "touchpad_aspect_ratio" v ∈ evs →
        ∃ a, py_float v = Ok a) →
  ∃ a, consume_loop B c fr evs
       = Ok {| wrote := wrote fr; ts := ts fr; aspect := a; tid := tid fr;
               out := out fr |}.
Proof.
  induction evs as [|ev evs IH]; intros fr Hw Hfl; simpl.
  - exists (aspect fr). by destruct fr.
  - destruct (consume_ev_unwritable c fr ev) as [a ->].
    { apply Hw. by left. }
    { intros v ->. apply Hfl. by left. }
    simpl. apply (IH {| wrote := wrote fr; ts := ts fr; aspect := a;
                        tid := tid fr; out := out fr |}).
    + intros e He. apply Hw. by right.
    + intros v Hv. apply Hfl. by right.
Qed.

(** A batch without an event of a translated key (the empty batch, unmapped
    codes, configuration and rumble events), whose aspect ratios are
    numbers a float can hold, makes no call on the device, neither write
    nor synchronization, leaves [touch_id] and what the device holds for
    reading alone and does not raise, whatever the attributes of the
    instance are. *)
Theorem consume_untranslated now self d evs :
  dev self = Some d →
  (∀ e, e ∈ evs → writable (conf self) e = false) →
  (∀ v, ConfigurationEvent "touchpad_aspect_ratio" v ∈ evs →
        ∃ a, py_float v = Ok a) →
  ∃ self' d',
    consume B now self evs = Ok self'
    ∧ dev self' = Some d'
    ∧ written d' = written d
    ∧ readable d' = readable d
    ∧ touch_id self' = touch_id self.
Proof.
  intros Hd Hw Hfl.
  destruct (consume_loop_unwritable (conf self) (reverse evs) (enter self))
    as [a Hl].
  { intros e He. apply Hw. by apply elem_of_reverse. }
  { intros v Hv. apply Hfl. by apply elem_of_reverse. }
  simpl in Hl.
  assert (closing B (conf self) now
            {| wrote := ∅; ts := 0; aspect := a; tid := touch_id self;
               out := [] |} = []) as Hcl.
  { unfold closing, any_wrote. simpl.
    by rewrite bool_decide_eq_true_2. }
  eexists _, _. split.
  { apply (consume_Ok B now self d evs _ Hd Hl). by rewrite Hcl. }
  split; [done|]. rewrite Hcl. simpl. by rewrite !app_nil_r.
Qed.

Lemma consume_ev_button c fr code v b fr' :
  wrote fr !! (button, code) = None →
  btn_map c !! code = Some b →
  code ≠ "touchpad_touch" →
  consume_ev B c fr (ButtonEvent code v) = Ok fr' →
  out fr' = out fr ++ [Write (B "EV_KEY") b (bit v)].
Proof.
  intros Hk Hb Hne H%consume_ev_Ok.
  inversion H as [ev Hs| | |code' v' b' Hk' Hb' Hne' Hf
                 |v' b' t' Hk' Hb' Ht' Hf| |ev Hk' Hw]; subst.
  - unfold ev_key in Hs. simpl in Hs. rewrite Hk in Hs. by destruct Hs.
  - rewrite Hb in Hb'. by injection Hb' as <-.
  - done.
  - by rewrite (writable_button c code v b Hb) in Hw.
Qed.

(** On an open device, in a call that returns, the last event of a mapped
    button other than [touchpad_touch] is written once, on the key
    category, under the number the button map gives, as 1 when pressed
    and 0 when released. *)
Theorem consume_button_value now self d l1 l2 code v b self' :
  dev self = Some d →
  btn_map (conf self) !! code = Some b →
  code ≠ "touchpad_touch" →
  (∀ x, x ∈ l2 → ev_key x ≠ (button, code)) →
  consume B now self (l1 ++ ButtonEvent code v :: l2) = Ok self' →
  ∃ fr d' post,
    consume_loop B (conf self) (enter self) (reverse l2) = Ok fr
    ∧ dev self' = Some d'
    ∧ written d'
      = written d ++ out fr
        ++ Write (B "EV_KEY") b (if v then 1 else 0) :: post.
Proof.
  intros Hd Hb Hne Hl2 Hc.
  destruct (consume_at B now self d l1 (ButtonEvent code v) l2 self'
              Hd Hl2 Hc)
    as (fr2 & fr3 & fr4 & H2 & Hk & H3 & H4 & _ & ->).
  pose proof (consume_ev_button (conf self) fr2 code v b fr3 Hk Hb Hne H3)
    as Hout.
  destruct (consume_loop_out B _ _ _ _ H4) as (ops & Hops & _).
  eexists fr2, _, (ops ++ closing B (conf self) now fr4).
  split; [done|]. split; [done|].
  simpl. rewrite Hops, Hout. unfold bit. rewrite <- ?app_assoc. done.
Qed.

(** On an open device, in a call that returns, the value written for the
    last event of an axis whose mapping has bounds [(lo, hi)] with
    [lo <= hi] lies between them, whatever the raw value, the scale, the
    offset and the aspect ratio. *)
Theorem consume_axis_bounded now self d l1 l2 code raw ax lo hi self' :
  dev self = Some d →
  axis_map (conf self) !! code = Some ax →
  bounds ax = Some (lo, hi) → lo ≤ hi →
  (∀ x, x ∈ l2 → ev_key x ≠ (axis, code)) →
  consume B now self (l1 ++ AxisEvent code raw :: l2) = Ok self' →
  ∃ d' pre val post,
    dev self' = Some d'
    ∧ written d'
      = written d ++ pre
        ++ Write (B "EV_ABS") (ax_id ax) val :: mirror B code val ++ post
    ∧ lo ≤ val ≤ hi.
Proof.
  intros Hd Hax Hb Hle Hl2 Hc.
  destruct (consume_at B now self d l1 (AxisEvent code raw) l2 self'
              Hd Hl2 Hc)
    as (fr2 & fr3 & fr4 & H2 & Hk & H3 & H4 & _ & ->).
  destruct (consume_ev_axis B (conf self) fr2 code raw ax fr3 Hk Hax H3)
    as (v & Hv & Hout).
  destruct (consume_loop_out B _ _ _ _ H4) as (ops & Hops & _).
  eexists _, (out fr2), _, (ops ++ closing B (conf self) now fr4).
  split; [done|]. split.
  - simpl. rewrite Hops, Hout. rewrite <- ?app_assoc. simpl.
    rewrite <- ?app_assoc. done.
  - rewrite Hb. simpl. lia.
Qed.

End ConsumeMore.

Lemma consume_untranslated_witness :
  ∃ self' d',
    consume Sample.B 0 Sample.plain
      [AxisEvent "trigger_z" 1; ButtonEvent "share" true;
       ConfigurationEvent "touchpad_aspect_ratio" 2;
       RumbleEvent "main" 1 1] = Ok self'
    ∧ dev self' = Some d'
    ∧ written d' = written (Sample.device [])
    ∧ readable d' = readable (Sample.device [])
    ∧ touch_id self' = touch_id Sample.plain.
Proof.
  apply (consume_untranslated Sample.B 0 Sample.plain (Sample.device [])).
  - reflexivity.
  - intros e He. repeat (apply elem_of_cons in He as [->|He]; [reflexivity|]).
    by apply elem_of_nil in He.
  - intros v Hv.
    apply elem_of_cons in Hv as [Hv|Hv]; [discriminate Hv|].
    apply elem_of_cons in Hv as [Hv|Hv]; [discriminate Hv|].
    apply elem_of_cons in Hv as [Hv|Hv].
    + injection Hv as ->. eexists. vm_compute. reflexivity.
    + apply list_elem_of_singleton in Hv. discriminate Hv.
Defined.

Lemma consume_button_value_witness :
  ∃ self' d',
    consume Sample.B 0 Sample.plain
      [ButtonEvent "a" false; ButtonEvent "a" true] = Ok self'
    ∧ dev self' = Some d'
    ∧ Write 1 304 1 ∈ written d'.
Proof.
  destruct (consume Sample.B 0 Sample.plain
              [ButtonEvent "a" false; ButtonEvent "a" true])
    as [self'|e] eqn:Hc; [|vm_compute in Hc; discriminate Hc].
  destruct (consume_button_value Sample.B 0 Sample.plain (Sample.device [])
              [ButtonEvent "a" false] [] "a" true 304 self')
    as (fr & d' & post & Hfr & Hd & Hw).
  - reflexivity.
  - reflexivity.
  - discriminate.
  - intros x Hx. by apply elem_of_nil in Hx.
  - exact Hc.
  - exists self', d'. split; [reflexivity|]. split; [exact Hd|].
    rewrite Hw. injection Hfr as <-. simpl. left.
Defined.

Lemma consume_axis_bounded_witness :
  ∃ self' d' val,
    consume Sample.B 0 Sample.plain [AxisEvent "left_stick_x" (-99999)]
    = Ok self'
    ∧ dev self' = Some d'
    ∧ Write 3 0 val ∈ written d'
    ∧ -32767 ≤ val ≤ 32767.
Proof.
  destruct (consume Sample.B 0 Sample.plain
              [AxisEvent "left_stick_x" (-99999)])
    as [self'|e] eqn:Hc; [|vm_compute in Hc; discriminate Hc].
  destruct (consume_axis_bounded Sample.B 0 Sample.plain (Sample.device [])
              [] [] "left_stick_x" (-99999)
              {| ax_id := 0; scale := 1; offset := 0;
                 bounds := Some (-32767, 32767) |} (-32767) 32767 self')
    as (d' & pre & val & post & Hd & Hw & Hr).
  - reflexivity.
  - reflexivity.
  - reflexivity.
  - discriminate.
  - intros x Hx. by apply elem_of_nil in Hx.
  - exact Hc.
  - exists self', d', val. split; [reflexivity|]. split; [exact Hd|].
    split; [|exact Hr]. rewrite Hw.
    apply elem_of_app. right. apply elem_of_app. right. left.
Defined.

(** ** What a call of consume sends to the device *)

Section ConsumeShape.

Variable B : string -> Z.

Lemma microseconds_range n : 0 ≤ microseconds n < 2 ^ 32.
Proof. unfold microseconds. by apply Z.mod_pos_bound. Qed.

Lemma consume_ev_ops c fr ev fr' :
  consume_ev B c fr ev = Ok fr' →
  ∃ ops, out fr' = out fr ++ ops ∧ Forall (consume_op B) ops.
Proof.
  intros H%consume_ev_Ok.
  assert (∀ code v, consume_op B (Write (B "EV_ABS") code v)) as Habs
    by (intros; by left).
  assert (∀ code v, consume_op B (Write (B "EV_KEY") code v)) as Hkey
    by (intros; by right; left).
  destruct H as [ev Hs|code v ax n Hk Hax Hn Hf|code n Hk Hax Hts Hf
                 |code v b Hk Hb Hne Hf|v b t Hk Hb Ht Hf|v a Hk Ha
                 |ev Hk Hw Hne]; simpl;
    try (exists []; by rewrite app_nil_r).
  - eexists. split; [done|]. apply Forall_cons_2; [done|].
    unfold mirror. repeat case_bool_decide; by repeat apply Forall_cons_2.
  - eexists. split; [done|]. apply Forall_cons_2; [|done].
    right; right. split; [done|]. split; [done|]. apply microseconds_range.
  - eexists. split; [done|]. by apply Forall_cons_2.
  - eexists. split; [done|]. by repeat apply Forall_cons_2.
Qed.

Lemma consume_loop_ops c evs : ∀ fr fr',
  consume_loop B c fr evs = Ok fr' →
  ∃ ops, out fr' = out fr ++ ops ∧ Forall (consume_op B) ops.
Proof.
  induction evs as [|ev evs IH]; intros fr fr' H; simpl in H.
  - simplify_eq. exists []. by rewrite app_nil_r.
  - destruct (consume_ev B c fr ev) as [fr1|e] eqn:H1; simpl in H; [|done].
    destruct (consume_ev_ops _ _ _ _ H1) as (ops1 & E1 & F1).
    destruct (IH _ _ H) as (ops2 & E2 & F2).
    exists (ops1 ++ ops2). rewrite E2, E1, app_assoc. split; [done|].
    by apply Forall_app.
Qed.

Lemma closing_ops c now fr : Forall (consume_op B) (closing B c now fr).
Proof.
  unfold closing. apply Forall_app. split.
  - destruct (any_wrote fr && output_timestamps c); [|done].
    apply Forall_cons_2; [|done].
    right; right. split; [done|]. split; [done|]. by apply Z.mod_pos_bound.
  - destruct (_ && _); [|done]. by apply Forall_cons_2.
Qed.

(** What a call of [consume] sends is made of writes on the absolute and
    key categories, timestamps and at most the synchronization, never an
    acknowledgement of an upload or an erase.  When the number of [EV_MSC]
    is neither that of [EV_ABS] nor that of [EV_KEY], every write on
    [EV_MSC] is a timestamp and its value is within 32 bits. *)
Theorem consume_ops_kinds now self d evs self' :
  dev self = Some d →
  consume B now self evs = Ok self' →
  ∃ d' ops,
    dev self' = Some d'
    ∧ written d' = written d ++ ops
    ∧ Forall (consume_op B) ops
    ∧ (B "EV_MSC" ≠ B "EV_ABS" → B "EV_MSC" ≠ B "EV_KEY" →
       ∀ code v, Write (B "EV_MSC") code v ∈ ops →
                 code = B "MSC_TIMESTAMP" ∧ 0 ≤ v < 2 ^ 32).
Proof.
  intros Hd Hc.
  destruct (consume_inv B now self d evs self' Hd Hc) as (fr & Hl & _ & ->).
  destruct (consume_loop_ops _ _ _ _ Hl) as (ws & Hws & Fws).
  simpl in Hws.
  assert (Forall (consume_op B) (out fr ++ closing B (conf self) now fr))
    as Hall.
  { apply Forall_app. split; [by rewrite Hws|apply closing_ops]. }
  eexists _, _. split; [done|]. split; [done|]. split; [exact Hall|].
  intros Habs Hkey code v Hin.
  rewrite Forall_forall in Hall. apply Hall in Hin. simpl in Hin.
  destruct Hin as [?|[?|(_ & ? & ?)]]; done.
Qed.



Lemma consume_ev_ts_zero c fr ev fr' :
  ts fr = 0 →
  (∀ code n, ev = AxisEvent code (PyInt n) → sensor_ts c code →
             (n `div` 1000) `mod` 2 ^ 32 = 0) →
  consume_ev B c fr ev = Ok fr' → ts fr' = 0.
Proof.
  intros Hz Hev H%consume_ev_Ok.
  destruct H as [ev Hs|code v ax n Hk Hax Hn Hf|code n Hk Hax Hts Hf
                 |code v b Hk Hb Hne Hf|v b t Hk Hb Ht Hf|v a Hk Ha
                 |ev Hk Hw Hne]; simpl; try done.
  by apply (Hev code n).
Qed.

Lemma consume_loop_ts_zero c evs : ∀ fr fr',
  ts fr = 0 →
  (∀ code n, AxisEvent code (PyInt n) ∈ evs → sensor_ts c code →
             (n `div` 1000) `mod` 2 ^ 32 = 0) →
  consume_loop B c fr evs = Ok fr' → ts fr' = 0.
Proof.
  induction evs as [|ev evs IH]; intros fr fr' Hz Hev H; simpl in H.
  - by simplify_eq.
  - destruct (consume_ev B c fr ev) as [fr1|e] eqn:H1; simpl in H; [|done].
    apply (IH fr1 fr'); [|intros code v Hin; apply Hev; by right|done].
    eapply consume_ev_ts_zero; [done| |done].
    intros code v ->. apply Hev. by left.
Qed.

(** With sensor-timestamp output on and [output_timestamps] off, a call
    that returns and whose batch holds no sensor timestamp, or only sensor
    timestamps below a microsecond (modulo 2^32), makes its writes and no
    synchronization: the test [or ts] takes the timestamp 0 for no
    timestamp. *)
Theorem consume_holds_sync now self d evs self' :
  dev self = Some d →
  consume B now self evs = Ok self' →
  truthy (output_imu_timestamps (conf self)) = true →
  output_timestamps (conf self) = false →
  (∀ code n, AxisEvent code (PyInt n) ∈ evs → sensor_ts (conf self) code →
             (n `div` 1000) `mod` 2 ^ 32 = 0) →
  ∃ d' ops,
    dev self' = Some d'
    ∧ written d' = written d ++ ops
    ∧ forallb is_write ops = true
    ∧ Syn ∉ ops.
Proof.
  intros Hd Hc Himu Hot Hz.
  destruct (consume_inv B now self d evs self' Hd Hc) as (fr & Hl & _ & ->).
  destruct (consume_loop_out B _ _ _ _ Hl) as (ws & Hws & Hwr & _).
  simpl in Hws.
  assert (ts fr = 0) as Hts.
  { apply (consume_loop_ts_zero (conf self) (reverse evs) (enter self) fr);
      [done| |exact Hl].
    intros code v Hin. apply Hz. by apply elem_of_reverse. }
  assert (forallb is_write (out fr ++ closing B (conf self) now fr) = true)
    as Hall.
  { rewrite forallb_app, Hws, Hwr. unfold closing.
    rewrite Hot, Himu, Hts, andb_false_r. simpl.
    by rewrite andb_false_r. }
  eexists _, _. split; [done|]. split; [done|]. split; [exact Hall|].
  by apply syn_not_write.
Qed.

(** ** What a call of consume can raise *)

Lemma bind_Raise {A C} (m : result A) (k : A → result C) e :
  (x ← m; k x) = Raise e → m = Raise e ∨ ∃ a, m = Ok a ∧ k a = Raise e.
Proof. destruct m as [a|e']; simpl; [eauto|]. intros [= ->]. by left. Qed.

Lemma py_float_Raise x e : py_float x = Raise e → e = OverflowError.
Proof.
  destruct x as [n|f]; simpl; [|done].
  destruct (float_of_Z n); by intros [= <-].
Qed.

Lemma py_mul_Raise x y e : py_mul x y = Raise e → e = OverflowError.
Proof.
  unfold py_mul. destruct x as [a|f], y as [b|g]; try done;
    intros [H|(u & _ & [H|(w & _ & H)]%bind_Raise)]%bind_Raise;
    try done; by apply py_float_Raise in H.
Qed.

Lemma py_add_Raise x y e : py_add x y = Raise e → e = OverflowError.
Proof.
  unfold py_add. destruct x as [a|f], y as [b|g]; try done;
    intros [H|(u & _ & [H|(w & _ & H)]%bind_Raise)]%bind_Raise;
    try done; by apply py_float_Raise in H.
Qed.

Lemma py_int_Raise x e : py_int x = Raise e → numeric e.
Proof.
  unfold numeric. destruct x as [n|[s|s| |s m ex]]; simpl; try done;
    intros [= <-]; auto.
Qed.

Lemma dev_write_Raise etype code v fr e :
  dev_write etype code v fr = Raise e → numeric e.
Proof.
  unfold dev_write, numeric.
  destruct (c_int etype && c_int code); simpl; [|intros [= <-]; auto].
  destruct v as [n|f]; [|intros [= <-]; auto].
  destruct (c_int n); [done|intros [= <-]; auto].
Qed.

Lemma axis_int_Raise a ax code v e :
  axis_int (Attr a) ax code v = Raise e → numeric e.
Proof.
  unfold axis_int. case_bool_decide as Hx; simpl.
  - intros [H|(x & _ & [H|(y & _ & [H|(z & _ & H)]%bind_Raise)]%bind_Raise)
            ]%bind_Raise.
    + apply py_mul_Raise in H. by left.
    + apply py_add_Raise in H. by left.
    + apply py_mul_Raise in H. by left.
    + by apply py_int_Raise in H.
  - intros [H|(x & _ & [H|(y & _ & H)]%bind_Raise)]%bind_Raise.
    + apply py_mul_Raise in H. by left.
    + apply py_add_Raise in H. by left.
    + by apply py_int_Raise in H.
Qed.

Lemma consume_ev_Raise c fr ev a t e :
  aspect fr = Attr a → tid fr = Attr t →
  consume_ev B c fr ev = Raise e → numeric e.
Proof.
  intros Ha Ht. unfold consume_ev. case_bool_decide as Hk; [done|].
  destruct ev as [code v|code v|code v|code w s]; simpl; [| | |done].
  - destruct (axis_map c !! code) as [ax|].
    + rewrite Ha.
      intros [H|(n & _ & [H|(fr1 & _ & H)]%bind_Raise)]%bind_Raise.
      * by apply axis_int_Raise in H.
      * by apply dev_write_Raise in H.
      * case_bool_decide as Hx; [by apply dev_write_Raise in H|].
        case_bool_decide as Hy; [by apply dev_write_Raise in H|done].
    + destruct (is_imu_ts c code); [|done].
      destruct v as [n|f].
      * intros [H|(fr1 & _ & H)]%bind_Raise; [|done].
        by apply dev_write_Raise in H.
      * apply dev_write_Raise.
  - destruct (btn_map c !! code) as [b|]; [|done].
    intros [H|(fr1 & _ & [H|(fr2 & _ & H)]%bind_Raise)]%bind_Raise;
      [|by apply dev_write_Raise in H|done].
    case_bool_decide as Hc; [|done]. rewrite Ht in H.
    apply bind_Raise in H as [H|(id & _ & H)]; [by destruct v|].
    apply bind_Raise in H as [H|(f1 & H1 & H)];
      [by apply dev_write_Raise in H|].
    apply bind_Raise in H as [H|(f2 & H2 & H)];
      [by apply dev_write_Raise in H|].
    apply dev_write_Ok in H1 as (? & _ & _ & ->).
    apply dev_write_Ok in H2 as (? & _ & _ & ->).
    simpl in H. by rewrite Ht in H.
  - case_bool_decide as Hc; [|done].
    intros [H|(x & _ & H)]%bind_Raise; [|done].
    apply py_float_Raise in H. by left.
Qed.

Lemma consume_loop_Raise c evs : ∀ fr a t e,
  aspect fr = Attr a → tid fr = Attr t →
  consume_loop B c fr evs = Raise e → numeric e.
Proof.
  induction evs as [|ev evs IH]; intros fr a t e Ha Ht; simpl; [done|].
  intros [H|(fr1 & H1 & H)]%bind_Raise.
  - by apply (consume_ev_Raise c fr ev a t).
  - destruct (consume_ev_aspect_set B c fr ev fr1 a Ha H1) as [a1 Ha1].
    assert (∃ t1, tid fr1 = Attr t1) as [t1 Ht1].
    { apply consume_ev_Ok in H1. destruct H1; simpl; eauto. }
    by apply (IH fr1 a1 t1).
Qed.

(** On an instance as the calls leave it, [consume] never fails for want
    of an attribute: whatever it raises is the exception of a number that
    cannot be converted ([float] or [int] of a value out of range or not
    a number) or that the device does not take (a value outside the C
    ints, a float). *)
Theorem consume_raises_numeric now self evs e :
  ready self →
  consume B now self evs = Raise e →
  e = OverflowError ∨ e = TypeError ∨ e = ValueError.
Proof.
  intros Hr. unfold consume, consume_frame.
  destruct (dev self) as [d|] eqn:Hd; [|done].
  destruct (Hr d Hd) as (_ & [a Ha] & t & Ht & _).
  intros [[H|(fr & _ & H)]%bind_Raise|(fr & _ & H)]%bind_Raise; [| |done].
  - by apply (consume_loop_Raise (conf self) (reverse evs) (enter self) a t).
  - unfold consume_end in H.
    apply bind_Raise in H as [H|(fr1 & _ & H)].
    + destruct (_ && _); [|done]. by apply dev_write_Raise in H.
    + by destruct (_ && _).
Qed.

End ConsumeShape.

Lemma consume_ops_kinds_witness :
  ∃ self' d' ops,
    consume Sample.B 5000000
      (Sample.fresh (Sample.config (PyBool true) true) (Sample.device []))
      [AxisEvent "gyro_ts" 1500000; ButtonEvent "touchpad_touch" true]
    = Ok self'
    ∧ dev self' = Some d'
    ∧ written d' = ops
    ∧ Forall (consume_op Sample.B) ops.
Proof.
  destruct (consume Sample.B 5000000
              (Sample.fresh (Sample.config (PyBool true) true)
                 (Sample.device []))
              [AxisEvent "gyro_ts" 1500000;
               ButtonEvent "touchpad_touch" true])
    as [self'|e] eqn:Hc; [|vm_compute in Hc; discriminate Hc].
  destruct (consume_ops_kinds Sample.B 5000000
              (Sample.fresh (Sample.config (PyBool true) true)
                 (Sample.device []))
              (Sample.device []) _ self' eq_refl Hc)
    as (d' & ops & Hd & Hw & Hall & _).
  exists self', d', ops. split; [reflexivity|]. split; [exact Hd|].
  split; [exact Hw|exact Hall].
Defined.


Lemma consume_holds_sync_witness :
  ∃ self' d',
    consume Sample.B 0
      (Sample.fresh (Sample.config (PyBool true) false) (Sample.device []))
      [AxisEvent "gyro_ts" 999; ButtonEvent "a" true] = Ok self'
    ∧ dev self' = Some d'
    ∧ Syn ∉ written d'.
Proof.
  destruct (consume Sample.B 0
              (Sample.fresh (Sample.config (PyBool true) false)
                 (Sample.device []))
              [AxisEvent "gyro_ts" 999; ButtonEvent "a" true])
    as [self'|e] eqn:Hc; [|vm_compute in Hc; discriminate Hc].
  destruct (consume_holds_sync Sample.B 0
              (Sample.fresh (Sample.config (PyBool true) false)
                 (Sample.device []))
              (Sample.device []) _ self' eq_refl Hc)
    as (d' & ops & Hd & Hw & _ & Hsyn).
  - reflexivity.
  - reflexivity.
  - intros code v Hin _.
    apply elem_of_cons in Hin as [[= -> ->]|Hin]; [reflexivity|].
    apply list_elem_of_singleton in Hin. discriminate Hin.
  - exists self', d'. split; [reflexivity|]. split; [exact Hd|].
    rewrite Hw. exact Hsyn.
Defined.

Lemma consume_raises_numeric_witness :
  consume Sample.B 0
    (Sample.fresh (Sample.config (PyBool true) false) (Sample.device []))
    [ButtonEvent "a" true; AxisEvent "gyro_ts" 3000000000000]
  = Raise OverflowError.
Proof.
  destruct (consume Sample.B 0
              (Sample.fresh (Sample.config (PyBool true) false)
                 (Sample.device []))
              [ButtonEvent "a" true; AxisEvent "gyro_ts" 3000000000000])
    as [self'|e] eqn:Hc; [vm_compute in Hc; discriminate Hc|].
  assert (ready (Sample.fresh (Sample.config (PyBool true) false)
                   (Sample.device []))) as Hr.
  { intros d [= <-]. split; [reflexivity|]. split; [by eexists|].
    exists 1. split; [reflexivity|]. split; discriminate. }
  destruct (consume_raises_numeric Sample.B 0 _ _ e Hr Hc)
    as [-> | [-> | ->]].
  - reflexivity.
  - vm_compute in Hc. discriminate Hc.
  - vm_compute in Hc. discriminate Hc.
Defined.

(** ** Further properties of produce *)

Section ProduceMore.

Variable B : string -> Z.

(** What one event adds to the calls made on the device. *)
Lemma produce_ev_ops d st ev :
  d_ops (produce_ev B d st ev) = d_ops st ++ option_list (ack B d ev).
Proof.
  unfold produce_ev, ack, is_echo.
  repeat case_match; simpl; by rewrite ?app_nil_r.
Qed.

Lemma produce_loop_ops d evs : ∀ st,
  d_ops (fold_left (produce_ev B d) evs st)
  = d_ops st ++ omap (ack B d) evs.
Proof.
  induction evs as [|ev evs IH]; intros st; simpl; [by rewrite app_nil_r|].
  rewrite IH, produce_ev_ops.
  destruct (ack B d ev); simpl; by rewrite <- ?app_assoc, ?app_nil_r.
Qed.

(** On an instance that can be read, [produce] empties what the device
    holds and answers every upload and every erase request it has read, in
    the order read: an upload, whatever the type of its effect, with the
    object [begin_upload] returned, its result as the device filled it
    in; an erase with the result 0, which [produce] sets.  It makes no
    other call on the device: no write and no synchronization. *)
Theorem produce_acknowledges self fds n d :
  ignore_cmds (conf self) = false →
  fd self = Attr (Some n) → n ≠ 0 → n ∈ fds →
  dev self = Some d →
  ∃ self' evs log d',
    produce B self fds = Ok (self', evs, log)
    ∧ dev self' = Some d'
    ∧ readable d' = []
    ∧ written d' = written d ++ omap (ack B d) (concat (readable d)).
Proof.
  intros Hi Hf Hn Hin Hd.
  rewrite (produce_open B self fds n d Hi Hf Hn Hin Hd).
  eexists _, _, _, _. split; [done|]. split; [done|]. split; [done|].
  simpl. by rewrite drain_concat, produce_loop_ops.
Qed.

Lemma produce_ev_echo d st ev :
  is_echo B ev = true → produce_ev B d st ev = st.
Proof. unfold produce_ev, is_echo. by intros ->. Qed.

Lemma produce_loop_echo d evs : ∀ st,
  fold_left (produce_ev B d) (filter (λ ev, is_echo B ev = false) evs) st
  = fold_left (produce_ev B d) evs st.
Proof.
  induction evs as [|ev evs IH]; intros st; [done|].
  destruct (is_echo B ev) eqn:He.
  - rewrite filter_cons_False by (by rewrite He). simpl.
    by rewrite produce_ev_echo.
  - rewrite filter_cons_True by done. simpl. apply IH.
Qed.

Lemma concat_map_filter {A} (P : A → Prop) `{!∀ x, Decision (P x)}
    (ls : list (list A)) :
  concat (map (filter P) ls) = filter P (concat ls).
Proof.
  induction ls as [|l ls IH]; [done|]. simpl. by rewrite filter_app, IH.
Qed.

(** On an instance that can be read, the timestamps the device echoes back
    count for nothing: [produce] returns the same instance, events and log
    as if they were not among what the device holds. *)
Theorem produce_drops_echoes self fds n d :
  ignore_cmds (conf self) = false →
  fd self = Attr (Some n) → n ≠ 0 → n ∈ fds →
  dev self = Some d →
  produce B
    (with_dev self
       (with_readable d
          (map (filter (λ ev, is_echo B ev = false)) (readable d))))
    fds
  = produce B self fds.
Proof.
  intros Hi Hf Hn Hin Hd.
  rewrite (produce_open B self fds n d Hi Hf Hn Hin Hd).
  rewrite (produce_open B (with_dev self _) fds n _ Hi Hf Hn Hin eq_refl).
  assert (∀ r, drain B (with_readable d
                          (map (filter (λ ev, is_echo B ev = false))
                             (readable d))) r
               = drain B d r) as Hdr.
  { intros r. rewrite !drain_concat. simpl.
    rewrite concat_map_filter.
    exact (produce_loop_echo d (concat (readable d)) (drain_start r)). }
  simpl. by rewrite !Hdr.
Qed.

(** What one event adds to the events returned, when it is not a
    force-feedback event. *)
Lemma produce_ev_no_ff d st ev :
  ie_type ev ≠ B "EV_FF" → d_out (produce_ev B d st ev) = d_out st.
Proof.
  intros Hne. unfold produce_ev.
  rewrite !(bool_decide_eq_false_2 (ie_type ev = B "EV_FF")) by done.
  repeat case_match; done.
Qed.

(** [produce] returns events only for the force-feedback events it reads:
    when the device holds none, it returns none. *)
Theorem produce_without_ff self fds self' evs log :
  (∀ d ev, dev self = Some d → ev ∈ concat (readable d) →
           ie_type ev ≠ B "EV_FF") →
  produce B self fds = Ok (self', evs, log) →
  evs = [].
Proof.
  intros Hno. unfold produce.
  destruct (ignore_cmds (conf self)); [by intros [= _ <- _]|].
  destruct (fd self) as [|[n|]]; simpl; [done| |by intros [= _ <- _]].
  destruct (_ || _); [by intros [= _ <- _]|].
  destruct (dev self) as [d|] eqn:Hd; [|by intros [= _ <- _]].
  intros [= _ <- _]. rewrite drain_concat.
  specialize (Hno d).
  assert (∀ l st, (∀ ev, ev ∈ l → ie_type ev ≠ B "EV_FF") →
            d_out (fold_left (produce_ev B d) l st) = d_out st) as Hl.
  { induction l as [|ev l IH]; intros st Hl; [done|]. simpl.
    rewrite IH by (intros x Hx; apply Hl; by right).
    apply produce_ev_no_ff, Hl. by left. }
  rewrite Hl; [done|]. intros ev Hev. by apply Hno.
Qed.

(** Reading a force-feedback event of value 0 appends the rumble event of
    magnitudes 0, whether or not an effect is stored, and leaves the stored
    effect in place. *)
Theorem produce_deactivation self fds n d pre ev post :
  ignore_cmds (conf self) = false →
  fd self = Attr (Some n) → n ≠ 0 → n ∈ fds →
  dev self = Some d →
  concat (readable d) = pre ++ ev :: post →
  ie_type ev = B "EV_FF" → ie_value ev = 0 →
  B "EV_FF" ≠ B "EV_MSC" → B "EV_FF" ≠ B "EV_UINPUT" →
  let st := fold_left (produce_ev B d) pre (drain_start (rumble self)) in
  let fin := fold_left (produce_ev B d) post (produce_ev B d st ev) in
  (∃ self', produce B self fds = Ok (self', d_out fin, d_log fin))
  ∧ produce_ev B d st ev
    = {| d_rumble := d_rumble st;
         d_out := d_out st ++ [RumbleEvent "main" 0 0];
         d_ops := d_ops st; d_log := d_log st |}.
Proof.
  intros Hi Hf Hn Hin Hd Hev Hty Hv Hmsc Hui st fin. split.
  - rewrite (produce_open B self fds n d Hi Hf Hn Hin Hd).
    eexists. repeat f_equal;
      rewrite drain_concat, Hev, fold_left_app; reflexivity.
  - unfold produce_ev. rewrite Hty, Hv.
    rewrite (bool_decide_eq_false_2 _ Hmsc). simpl.
    rewrite (bool_decide_eq_false_2 _ Hui).
    by rewrite (bool_decide_eq_true_2 (B "EV_FF" = B "EV_FF")) by done.
Qed.

(** A second [produce] right after one that returned changes nothing and
    returns neither event nor log record. *)
Theorem produce_twice self fds self' evs log :
  produce B self fds = Ok (self', evs, log) →
  produce B self' fds = Ok (self', [], []).
Proof.
  unfold produce at 1.
  destruct (ignore_cmds (conf self)) eqn:Hi.
  { intros [= <- _ _]. unfold produce. by rewrite Hi. }
  destruct (fd self) as [|[n|]] eqn:Hf; simpl; [done| |].
  2:{ intros [= <- _ _]. unfold produce. by rewrite Hi, Hf. }
  destruct (bool_decide (n = 0) || negb (bool_decide (n ∈ fds))) eqn:Hn.
  { intros [= <- _ _]. unfold produce. rewrite Hi, Hf. simpl. by rewrite Hn. }
  destruct (dev self) as [d|] eqn:Hd.
  2:{ intros [= <- _ _]. unfold produce. rewrite Hi, Hf. simpl.
      by rewrite Hn, Hd. }
  intros [= <- _ _]. unfold produce. simpl. rewrite Hi. simpl.
  rewrite Hn. unfold drain. simpl. by rewrite app_nil_r.
Qed.

(** The timestamps a call of [consume] has fed back add nothing to what
    [produce] reads. *)
Lemma produce_loop_echoes d vs : ∀ st,
  fold_left (produce_ev B d) (map (echo B) vs) st = st.
Proof.
  induction vs as [|v vs IH]; intros st; [done|]. simpl.
  rewrite produce_ev_echo; [apply IH|].
  unfold is_echo, echo. simpl. by rewrite !bool_decide_eq_true_2.
Qed.

Lemma drain_emit d ops r :
  drain B (dev_emit B d ops) r = drain B d r.
Proof.
  rewrite !drain_concat. simpl.
  rewrite concat_app, fold_left_app.
  induction ops as [|op ops IH]; [done|]. simpl.
  destruct (feedback B op) as [evs|] eqn:Hf; [|exact IH].
  simpl. rewrite fold_left_app.
  destruct op as [t code v| | |]; try discriminate Hf. simpl in Hf.
  destruct (bool_decide (t = B "EV_MSC")) eqn:Ht; [|discriminate Hf].
  destruct (bool_decide (code = B "MSC_TIMESTAMP")) eqn:Hc;
    [|discriminate Hf].
  injection Hf as <-. simpl.
  rewrite produce_ev_echo; [exact IH|].
  unfold is_echo. simpl. by rewrite Ht, Hc.
Qed.

(** Calls of [consume] do not change what [produce] returns: the events
    and the log are those it would have returned before them, and the
    effect it leaves stored is the same.  The timestamps [consume] wrote
    come back to be read, and [produce] passes them over. *)
Theorem produce_after_consume now self evs s1 fds s2 out log :
  consume B now self evs = Ok s1 →
  produce B self fds = Ok (s2, out, log) →
  ∃ s3, produce B s1 fds = Ok (s3, out, log) ∧ rumble s3 = rumble s2.
Proof.
  unfold consume.
  destruct (dev self) as [d|] eqn:Hd; [|intros [= <-]; eauto].
  destruct (consume_frame B now self evs) as [fr|e]; simpl; [|done].
  intros [= <-]. unfold produce. simpl.
  destruct (ignore_cmds (conf self)); [intros [= <- <- <-]; eauto|].
  destruct (fd self) as [|[n|]]; simpl; [done| |intros [= <- <- <-]; eauto].
  destruct (_ || _); [intros [= <- <- <-]; eauto|].
  rewrite Hd. intros [= <- <- <-]. rewrite !drain_emit. eauto.
Qed.

End ProduceMore.

(** ** open and close *)

Section Lifecycle.

Variable B : string -> Z.
Variable UInputMonkey : CtorArgs -> option string -> result Device.
Variable UInput : CtorArgs -> result Device.

(** [close] returns [True] from every state, leaves the instance without
    device and descriptor, and a second [close] changes nothing more. *)
Theorem close_twice self exit exit' :
  (close self exit).2 = true
  ∧ dev (close self exit).1 = None
  ∧ fd (close self exit).1 = Attr None
  ∧ close (close self exit).1 exit' = close self exit.
Proof. done. Qed.

(** After [close], whatever the instance was before, even one that [open]
    was never called on, [consume] changes nothing and [produce] returns no
    event; neither raises. *)
Theorem after_close self exit now evs fds :
  consume B now (close self exit).1 evs = Ok (close self exit).1
  ∧ produce B (close self exit).1 fds = Ok ((close self exit).1, [], []).
Proof.
  split; [done|]. unfold produce. simpl.
  by destruct (ignore_cmds (conf self)).
Qed.

(** What [open] leaves when it returns, by whichever constructor: the
    device one of them has made, its descriptor in [fd], the aspect ratio
    and [touch_id] both at 1, the configuration and the stored effect as
    they were; it returns that descriptor alone, or nothing when commands
    are ignored. *)
Theorem open_returns self self' fds log :
  open UInputMonkey UInput self = (Ok (self', fds), log) →
  ∃ d,
    (UInputMonkey (ctor_args (conf self)) (uniq (conf self)) = Ok d
     ∨ UInput (ctor_args (conf self)) = Ok d)
    ∧ dev self' = Some d
    ∧ fd self' = Attr (Some (dev_fd d))
    ∧ touchpad_aspect self' = Attr (PyInt 1)
    ∧ touch_id self' = Attr 1
    ∧ conf self' = conf self
    ∧ rumble self' = rumble self
    ∧ fds = (if ignore_cmds (conf self) then [] else [dev_fd d]).
Proof.
  unfold open, opened.
  destruct (UInputMonkey _ _) as [d|e] eqn:H1.
  - intros [= <- <- _]. exists d. simpl. auto 10.
  - destruct (UInput _) as [d|e'] eqn:H2; [|done].
    intros [= <- <- _]. exists d. simpl. auto 10.
Qed.

(** With [ignore_cmds] set, [open] returns no descriptor to poll, and from
    then on [produce] reads nothing: it returns no event, whatever
    descriptors are said to be ready, and what the device holds stays. *)
Theorem open_ignoring_commands self self' fds log ready_fds :
  ignore_cmds (conf self) = true →
  open UInputMonkey UInput self = (Ok (self', fds), log) →
  fds = [] ∧ produce B self' ready_fds = Ok (self', [], []).
Proof.
  intros Hi Ho.
  destruct (open_returns self self' fds log Ho)
    as (d & _ & _ & _ & _ & _ & Hc & _ & ->).
  rewrite Hi. split; [done|].
  apply produce_ignore_cmds. by rewrite Hc.
Qed.

End Lifecycle.

(** ** The tracking id over many calls *)

Section TouchSequence.

Variable B : string -> Z.

(** The last event of a key in a batch that has one. *)
Lemma last_of_key k evs :
  (∀ x, x ∈ evs → ev_key x ≠ k)
  ∨ ∃ l1 e l2, evs = l1 ++ e :: l2 ∧ ev_key e = k
               ∧ ∀ x, x ∈ l2 → ev_key x ≠ k.
Proof.
  induction evs as [|x evs [IH|(l1 & e & l2 & -> & He & Hl2)]].
  - left. by intros x ?%elem_of_nil.
  - destruct (decide (ev_key x = k)) as [Hx|Hx].
    + right. by exists [], x, evs.
    + left. intros y Hy. apply elem_of_cons in Hy as [->|Hy].
      * done.
      * by apply IH.
  - right. by exists (x :: l1), e, l2.
Qed.

(** One call that returns and whose batch holds a [touchpad_touch]
    button event. *)
Lemma consume_touch_step now self d evs t b self' :
  dev self = Some d →
  touch_id self = Attr t →
  btn_map (conf self) !! "touchpad_touch" = Some b →
  (∃ x, x ∈ evs ∧ ev_key x = touch_key) →
  consume B now self evs = Ok self' →
  ∃ d',
    dev self' = Some d'
    ∧ conf self' = conf self
    ∧ touch_id self' = Attr (if 500 <? t + 1 then 1 else t + 1).
Proof.
  intros Hd Ht Hb (x & Hx & Hkx) Hc.
  destruct (last_of_key touch_key evs)
    as [Hno|(l1 & e & l2 & -> & He & Hl2)]; [by destruct (Hno x Hx)|].
  destruct e as [code v|code v|code v|code w s]; try discriminate He.
  injection He as ->. fold touch_key in Hl2.
  destruct (consume_touch_id B now self d t l1 l2 v b self' Hd Ht Hb Hl2 Hc)
    as (d' & _ & _ & Hd' & _ & Ht').
  exists d'. split; [done|]. split; [|done].
  by destruct (consume_inv B now self d _ self' Hd Hc) as (fr & _ & _ & ->).
Qed.

(** From an instance with a device whose button map has
    [touchpad_touch], after any number [n] of calls that return and whose
    batches each hold a [touchpad_touch] button event, touch-down or lift,
    [touch_id] has moved [n] places round the cycle 1, 2, ..., 500, 1,
    ... *)
Theorem touch_id_after_calls calls : ∀ self d t b self',
  ready self → dev self = Some d →
  touch_id self = Attr t →
  btn_map (conf self) !! "touchpad_touch" = Some b →
  (∀ call, call ∈ calls → ∃ x, x ∈ call.2 ∧ ev_key x = touch_key) →
  consume_calls B self calls = Ok self' →
  touch_id self' = Attr ((t - 1 + Z.of_nat (length calls)) `mod` 500 + 1).
Proof.
  induction calls as [|[now evs] calls IH];
    intros self d t b self' Hr Hd Ht Hb Hall Hcs.
  - simpl in Hcs. injection Hcs as <-. simpl.
    destruct (Hr d Hd) as (_ & _ & t' & Ht' & Hrange).
    rewrite Ht in Ht'. injection Ht' as <-.
    rewrite Ht, Z.add_0_r, Z.mod_small by lia. f_equal. lia.
  - destruct (Hr d Hd) as (_ & _ & t' & Ht' & Hrange).
    rewrite Ht in Ht'. injection Ht' as <-.
    simpl in Hcs.
    destruct (consume B now self evs) as [s1|e] eqn:Hc; simpl in Hcs;
      [|done].
    destruct (consume_touch_step now self d evs t b s1 Hd Ht Hb)
      as (d1 & Hd1 & Hconf & Ht1); [|done|].
    { apply (Hall (now, evs)). by left. }
    assert (ready s1) as Hr1.
    { destruct (ready_invariant B (λ _ _, Raise (OtherException "none"))
                  (λ _, Raise (OtherException "none")))
        as (_ & _ & _ & Hk & _).
      by apply (Hk now self evs s1). }
    rewrite (IH s1 d1 _ b self' Hr1 Hd1 Ht1); [|by rewrite Hconf| |done].
    2:{ intros call Hcall. apply Hall. by right. }
    f_equal. simpl length. rewrite Nat2Z.inj_succ.
    destruct (500 <? t + 1) eqn:Hlt.
    + apply Z.ltb_lt in Hlt. assert (t = 500) as -> by lia.
      replace (500 - 1 + Z.succ (Z.of_nat (length calls)))
        with (Z.of_nat (length calls) + 1 * 500) by lia.
      rewrite Z.mod_add by lia. f_equal; lia.
    + f_equal. f_equal. lia.
Qed.

End TouchSequence.

Lemma touch_id_after_calls_witness :
  ∃ self',
    consume_calls Sample.B Sample.plain
      [(0, [ButtonEvent "touchpad_touch" true]);
       (0, [ButtonEvent "a" true; ButtonEvent "touchpad_touch" false]);
       (0, [ButtonEvent "touchpad_touch" true])] = Ok self'
    ∧ touch_id self' = Attr 4.
Proof.
  destruct (consume_calls Sample.B Sample.plain
              [(0, [ButtonEvent "touchpad_touch" true]);
               (0, [ButtonEvent "a" true;
                    ButtonEvent "touchpad_touch" false]);
               (0, [ButtonEvent "touchpad_touch" true])])
    as [self'|e] eqn:Hcs; [|vm_compute in Hcs; discriminate Hcs].
  exists self'. split; [reflexivity|].
  apply (touch_id_after_calls Sample.B
           [(0, [ButtonEvent "touchpad_touch" true]);
            (0, [ButtonEvent "a" true; ButtonEvent "touchpad_touch" false]);
            (0, [ButtonEvent "touchpad_touch" true])]
           Sample.plain (Sample.device []) 1 330 self').
  - intros d [= <-]. split; [reflexivity|]. split; [by eexists|].
    exists 1. split; [reflexivity|]. split; discriminate.
  - reflexivity.
  - reflexivity.
  - reflexivity.
  - intros call Hcall.
    apply elem_of_cons in Hcall as [->|Hcall];
      [eexists; split; [left|reflexivity]|].
    apply elem_of_cons in Hcall as [->|Hcall];
      [eexists; split; [right; left|reflexivity]|].
    apply list_elem_of_singleton in Hcall. subst call.
    eexists; split; [left|reflexivity].
  - exact Hcs.
Defined.

(** ** The further properties at the sample device *)

Lemma produce_acknowledges_witness :
  ∃ self' evs log d',
    produce Sample.B
      (Sample.fresh (Sample.config (PyBool false) false)
         (Sample.answering (λ _, -1)
            [[{| ie_type := 257; ie_code := 1; ie_value := 3 |};
              {| ie_type := 4; ie_code := 5; ie_value := 9 |}];
             [{| ie_type := 257; ie_code := 2; ie_value := 3 |}]]))
      [7] = Ok (self', evs, log)
    ∧ dev self' = Some d'
    ∧ readable d' = []
    ∧ written d' = [EndUpload 3 (-1); EndErase 3 0].
Proof.
  destruct (produce_acknowledges Sample.B
              (Sample.fresh (Sample.config (PyBool false) false)
                 (Sample.answering (λ _, -1)
                    [[{| ie_type := 257; ie_code := 1; ie_value := 3 |};
                      {| ie_type := 4; ie_code := 5; ie_value := 9 |}];
                     [{| ie_type := 257; ie_code := 2; ie_value := 3 |}]]))
              [7] 7
              (Sample.answering (λ _, -1)
                 [[{| ie_type := 257; ie_code := 1; ie_value := 3 |};
                   {| ie_type := 4; ie_code := 5; ie_value := 9 |}];
                  [{| ie_type := 257; ie_code := 2; ie_value := 3 |}]]))
    as (self' & evs & log & d' & Hp & Hd & Hr & Hw).
  - reflexivity.
  - reflexivity.
  - discriminate.
  - left.
  - reflexivity.
  - exists self', evs, log, d'. split; [exact Hp|]. split; [exact Hd|].
    split; [exact Hr|exact Hw].
Defined.

Lemma produce_drops_echoes_witness :
  produce Sample.B
    (Sample.fresh (Sample.config (PyBool false) false)
       (Sample.device [[{| ie_type := 21; ie_code := 0; ie_value := 0 |}]]))
    [7]
  = produce Sample.B
      (Sample.fresh (Sample.config (PyBool false) false)
         (Sample.device
            [[{| ie_type := 4; ie_code := 5; ie_value := 9 |};
              {| ie_type := 21; ie_code := 0; ie_value := 0 |}]]))
      [7].
Proof.
  apply (produce_drops_echoes Sample.B
           (Sample.fresh (Sample.config (PyBool false) false)
              (Sample.device
                 [[{| ie_type := 4; ie_code := 5; ie_value := 9 |};
                   {| ie_type := 21; ie_code := 0; ie_value := 0 |}]]))
           [7] 7
           (Sample.device
              [[{| ie_type := 4; ie_code := 5; ie_value := 9 |};
                {| ie_type := 21; ie_code := 0; ie_value := 0 |}]])).
  - reflexivity.
  - reflexivity.
  - discriminate.
  - left.
  - reflexivity.
Defined.

Lemma produce_without_ff_witness :
  ∃ self' log,
    produce Sample.B
      (Sample.fresh (Sample.config (PyBool false) false)
         (Sample.device [[{| ie_type := 1; ie_code := 304; ie_value := 1 |}]]))
      [7] = Ok (self', [], log).
Proof.
  destruct (produce Sample.B
              (Sample.fresh (Sample.config (PyBool false) false)
                 (Sample.device
                    [[{| ie_type := 1; ie_code := 304; ie_value := 1 |}]]))
              [7]) as [[[self' evs] log]|e] eqn:Hp;
    [|vm_compute in Hp; discriminate Hp].
  exists self', log. f_equal. f_equal. f_equal.
  apply (produce_without_ff Sample.B
           (reading [[{| ie_type := 1; ie_code := 304; ie_value := 1 |}]])
           [7] self' evs log); [|exact Hp].
  intros d ev [= <-] Hev. apply list_elem_of_singleton in Hev. subst ev.
  discriminate.
Defined.

Lemma produce_deactivation_witness :
  ∃ self',
    produce Sample.B
      (Sample.fresh (Sample.config (PyBool false) false)
         (Sample.device
            [[{| ie_type := 21; ie_code := 0; ie_value := 0 |}]]))
      [7]
    = Ok (self', [RumbleEvent "main" 0 0], []).
Proof.
  destruct (produce_deactivation Sample.B
              (Sample.fresh (Sample.config (PyBool false) false)
                 (Sample.device
                    [[{| ie_type := 21; ie_code := 0; ie_value := 0 |}]]))
              [7] 7
              (Sample.device
                 [[{| ie_type := 21; ie_code := 0; ie_value := 0 |}]])
              [] {| ie_type := 21; ie_code := 0; ie_value := 0 |} [])
    as ((self' & Hp) & _).
  - reflexivity.
  - reflexivity.
  - discriminate.
  - left.
  - reflexivity.
  - reflexivity.
  - reflexivity.
  - reflexivity.
  - discriminate.
  - discriminate.
  - exists self'. exact Hp.
Defined.

Lemma produce_twice_witness :
  ∃ self' evs,
    produce Sample.B
      (Sample.fresh (Sample.config (PyBool false) false)
         (Sample.device
            [[{| ie_type := 21; ie_code := 0; ie_value := 0 |}]]))
      [7] = Ok (self', evs, [])
    ∧ evs ≠ []
    ∧ produce Sample.B self' [7] = Ok (self', [], []).
Proof.
  destruct (produce Sample.B
              (Sample.fresh (Sample.config (PyBool false) false)
                 (Sample.device
                    [[{| ie_type := 21; ie_code := 0; ie_value := 0 |}]]))
              [7]) as [[[self' evs] log]|e] eqn:Hp;
    [|vm_compute in Hp; discriminate Hp].
  pose proof (produce_twice Sample.B
                (reading [[{| ie_type := 21; ie_code := 0; ie_value := 0 |}]])
                [7] self' evs log Hp) as H2.
  vm_compute in Hp. injection Hp as <- <- <-.
  eexists _, _. split; [reflexivity|]. split; [discriminate|exact H2].
Defined.

Lemma produce_after_consume_witness :
  ∃ s1 s3,
    consume Sample.B 0
      (Sample.fresh (Sample.config (PyBool false) false)
         (Sample.device
            [[{| ie_type := 21; ie_code := 0; ie_value := 0 |}]]))
      [ButtonEvent "a" true] = Ok s1
    ∧ produce Sample.B s1 [7] = Ok (s3, [RumbleEvent "main" 0 0], []).
Proof.
  destruct (consume Sample.B 0
              (Sample.fresh (Sample.config (PyBool false) false)
                 (Sample.device
                    [[{| ie_type := 21; ie_code := 0; ie_value := 0 |}]]))
              [ButtonEvent "a" true]) as [s1|e] eqn:Hc;
    [|vm_compute in Hc; discriminate Hc].
  destruct (produce_after_consume Sample.B 0
              (reading [[{| ie_type := 21; ie_code := 0; ie_value := 0 |}]])
              [ButtonEvent "a" true] s1 [7] _ _ _ Hc eq_refl)
    as (s3 & Hp & _).
  exists s1, s3. split; [reflexivity|exact Hp].
Defined.

Lemma open_returns_witness :
  ∃ self' d,
    open (λ _ _, Raise (OtherException "uniq is not supported"))
      (λ _, Ok (Sample.device []))
      (init (Sample.config (PyBool false) false))
    = (Ok (self', [7]),
       [Info_opening "Handheld Daemon Controller";
        Error_monkey_patch_failed (OtherException "uniq is not supported")])
    ∧ dev self' = Some d
    ∧ touch_id self' = Attr 1.
Proof.
  destruct (open_returns
              (λ _ _, Raise (OtherException "uniq is not supported"))
              (λ _, Ok (Sample.device []))
              (init (Sample.config (PyBool false) false))
              _ _ _ eq_refl)
    as (d & _ & Hd & _ & _ & Ht & _).
  eexists _, d. split; [reflexivity|]. split; [exact Hd|exact Ht].
Defined.

Lemma open_ignoring_commands_witness :
  ∃ self',
    open (λ _ _, Ok (Sample.device [[]])) (λ _, Ok (Sample.device []))
      (init {| capabilities := []; btn_map := Sample.buttons;
               axis_map := Sample.axes; vid := 0; pid := 0; bus := 3;
               name := "Handheld Daemon Controller (ignoring)";
               phys := "phys-hhd-gamepad";
               output_imu_timestamps := PyBool false;
               output_timestamps := true; input_props := [];
               ignore_cmds := true; uniq := Some "hhd" |})
    = (Ok (self', []),
       [Info_opening "Handheld Daemon Controller (ignoring)"])
    ∧ produce Sample.B self' [7] = Ok (self', [], []).
Proof.
  destruct (open_ignoring_commands Sample.B
              (λ _ _, Ok (Sample.device [[]])) (λ _, Ok (Sample.device []))
              (init {| capabilities := []; btn_map := Sample.buttons;
                       axis_map := Sample.axes; vid := 0; pid := 0;
                       bus := 3;
                       name := "Handheld Daemon Controller (ignoring)";
                       phys := "phys-hhd-gamepad";
                       output_imu_timestamps := PyBool false;
                       output_timestamps := true; input_props := [];
                       ignore_cmds := true; uniq := Some "hhd" |})
              _ _ _ [7] eq_refl eq_refl)
    as [_ Hp].
  eexists. split; [reflexivity|exact Hp].
Defined.

(** ** hhd.plugins.bootc: get_branch *)

Section GetBranch.

Import Bootc.

Lemma starts_with_spec sub : ∀ s,
  starts_with sub s = true ↔ ∃ post, s = sub +:+ post.
Proof.
  induction sub as [|a sub IH]; intros s; simpl.
  - split; [by exists s|done].
  - destruct s as [|b s]; simpl.
    + split; [done|]. by intros (post & ?).
    + rewrite andb_true_iff, bool_decide_eq_true, IH. split.
      * intros (-> & post & ->). by exists post.
      * intros (post & [= -> ->]). split; [done|]. by exists post.
Qed.

Lemma str_in_spec sub : ∀ s,
  str_in sub s = true ↔ ∃ pre post, s = pre +:+ sub +:+ post.
Proof.
  induction s as [|a s IH]; simpl.
  - rewrite orb_false_r, starts_with_spec. split.
    + intros (post & ->). by exists EmptyString, post.
    + intros (pre & post & H). destruct pre; [by exists post|done].
  - rewrite orb_true_iff, starts_with_spec, IH. split.
    + intros [(post & ->)|(pre & post & ->)].
      * by exists EmptyString, post.
      * by exists (String a pre), post.
    + intros (pre & post & H). destruct pre as [|b pre]; simpl in H.
      * left. by exists post.
      * right. injection H as -> ->. by exists pre, post.
Qed.

Lemma append_assoc (a b c : string) : (a +:+ b) +:+ c = a +:+ b +:+ c.
Proof.
  induction a as [|x a IH]; [done|].
  change (String x ((a +:+ b) +:+ c) = String x (a +:+ b +:+ c)).
  by f_equal.
Qed.

Lemma str_in_trans a b c :
  str_in a b = true → str_in b c = true → str_in a c = true.
Proof.
  rewrite !str_in_spec. intros (p1 & q1 & ->) (p2 & q2 & ->).
  exists (p2 +:+ p1), (q1 +:+ q2). by rewrite !append_assoc.
Qed.

Lemma rindex_found c : ∀ s,
  str_in (String c EmptyString) s = true → ∃ i, rindex c s = Ok i.
Proof.
  induction s as [|a s IH]; simpl; [done|].
  rewrite orb_true_iff. intros [H|H].
  - destruct (rindex c s); [eauto|].
    destruct s; simpl in H; rewrite andb_true_r in H;
      apply bool_decide_eq_true in H; subst;
      rewrite bool_decide_eq_true_2 by done; eauto.
  - destruct (IH H) as [i ->]. eauto.
Qed.

Lemma rindex_absent c : ∀ s,
  str_in (String c EmptyString) s = false → ∃ e, rindex c s = Raise e.
Proof.
  induction s as [|a s IH]; simpl; [eauto|].
  rewrite orb_false_iff. intros [H1 H2].
  destruct (IH H2) as [e ->].
  rewrite bool_decide_eq_false_2; [eauto|].
  intros ->. destruct s; simpl in H1;
    by rewrite bool_decide_eq_true_2 in H1.
Qed.

(** The tag is what follows the last colon. *)
Lemma rindex_last c pre tag :
  str_in (String c EmptyString) tag = false →
  rindex c (pre +:+ String c tag) = Ok (String.length pre)
  ∧ slice_from (String.length pre + 1) (pre +:+ String c tag) = tag.
Proof.
  intros Htag. induction pre as [|a pre [IH1 IH2]]; simpl.
  - destruct (rindex_absent c tag Htag) as [e ->].
    by rewrite bool_decide_eq_true_2.
  - by rewrite IH1.
Qed.

Lemma first_branch_head branches k :
  first_branch branches = Ok (Some k) ↔ head branches.*1 = Some k.
Proof.
  destruct branches as [|[k' v] rest]; simpl; [done|]. split; by intros [= ->].
Qed.

(** With a dict that is not empty [get_branch] returns; what it returns is
    a key of the dict, or [None], and [None] only when [fallback] is off.
    With an empty dict and [fallback] on it raises [StopIteration]. *)
Theorem get_branch_returns ref branches fallback :
  (branches ≠ [] →
   ∃ r, get_branch ref branches fallback = Ok r
        ∧ (∀ b, r = Some b → b ∈ branches.*1)
        ∧ (r = None → fallback = false))
  ∧ (branches = [] → fallback = true →
     get_branch ref branches fallback
     = Raise (OtherException "StopIteration")).
Proof.
  unfold get_branch. split.
  - intros Hne.
    assert (∃ k, first_branch branches = Ok (Some k) ∧ k ∈ branches.*1)
      as (k & Hk & Hin).
    { destruct branches as [|[k v] rest]; [done|]. exists k. split; [done|].
      simpl. left. }
    destruct (str_in ":" ref) eqn:Hc; simpl.
    2:{ rewrite Hk. exists (Some k). split; [done|].
        split; [by intros b [= <-]|done]. }
    destruct (rindex_found _ _ Hc) as [i ->]. simpl.
    destruct (find _ _) as [b|] eqn:Hf.
    + exists (Some b). split; [done|]. split; [|done].
      intros b' [= <-]. apply find_some in Hf as [Hf _].
      by apply list_elem_of_In.
    + destruct fallback; simpl.
      * rewrite Hk. exists (Some k). split; [done|].
        split; [by intros b [= <-]|done].
      * exists None. by split.
  - intros -> ->. destruct (str_in ":" ref) eqn:Hc; simpl; [|done].
    by destruct (rindex_found _ _ Hc) as [i ->].
Qed.

(** Only what follows the last colon of the reference counts: the branch
    returned is the first key of the dict, in its order, that occurs in
    that tag as a substring, and without one the first key of the dict,
    or [None] when [fallback] is off. *)
Theorem get_branch_by_tag pre tag branches fallback :
  str_in ":" tag = false →
  get_branch (pre +:+ ":" +:+ tag) branches fallback
  = match find (λ branch, str_in branch tag) branches.*1 with
    | Some branch => Ok (Some branch)
    | None => if fallback then first_branch branches else Ok None
    end.
Proof.
  intros Htag. unfold get_branch.
  assert (str_in ":" (pre +:+ ":" +:+ tag) = true) as ->
    by (apply str_in_spec; by exists pre, tag).
  simpl. change (pre +:+ ":" +:+ tag) with (pre +:+ String ":"%char tag).
  destruct (rindex_last ":"%char pre tag Htag) as [E1 E2].
  rewrite E1. simpl. rewrite E2.
  destruct (find _ _); [done|]. by destruct fallback.
Qed.

Lemma find_before {A} (P : A → bool) l1 x rest :
  P x = true → ∃ y, find P (l1 ++ x :: rest) = Some y ∧ y ∈ l1 ++ [x].
Proof.
  intros Hx. induction l1 as [|a l1 (y & Hy & Hin)]; simpl.
  - rewrite Hx. exists x. split; [done|left].
  - destruct (P a); [exists a; split; [done|left]|].
    exists y. split; [done|by right].
Qed.

(** A key of the dict that has an earlier key as a substring is never
    returned, whatever the reference: a tag that holds the later key holds
    the earlier one, which the loop meets first. *)
Theorem get_branch_shadowed ref branches fallback l1 b1 l2 b2 l3 :
  branches.*1 = l1 ++ b1 :: l2 ++ b2 :: l3 →
  b2 ∉ l1 ++ [b1] →
  str_in b1 b2 = true →
  get_branch ref branches fallback ≠ Ok (Some b2).
Proof.
  intros Hkeys Hnotin Hsub Hres. unfold get_branch in Hres.
  assert (first_branch branches = Ok (Some b2) → False) as Hfirst.
  { rewrite first_branch_head, Hkeys. intros Hh. apply Hnotin.
    destruct l1 as [|a l1]; simpl in Hh; injection Hh as ->; left. }
  destruct (str_in ":" ref); simpl in Hres; [|done].
  destruct (rindex ":" ref) as [i|e]; simpl in Hres; [|done].
  destruct (find _ _) as [b|] eqn:Hf.
  - injection Hres as ->.
    assert (str_in b2 (slice_from (i + 1) ref) = true) as H2.
    { apply find_some in Hf. apply Hf. }
    pose proof (str_in_trans _ _ _ Hsub H2) as H1.
    rewrite Hkeys in Hf.
    destruct (find_before (λ branch, str_in branch (slice_from (i + 1) ref))
                l1 b1 (l2 ++ b2 :: l3) H1) as (y & Hy & Hin).
    rewrite Hf in Hy. injection Hy as <-. done.
  - destruct fallback; simpl in Hres; done.
Qed.

End GetBranch.

Lemma get_branch_returns_witness :
  ∃ r, Bootc.get_branch "ghcr.io/org/os:testing-41" Bootc.default_branches
         true = Ok r
       ∧ (∀ b, r = Some b → b ∈ Bootc.default_branches.*1).
Proof.
  destruct (get_branch_returns "ghcr.io/org/os:testing-41"
              Bootc.default_branches true) as [H _].
  destruct H as (r & Hr & Hin & _); [discriminate|].
  exists r. split; [exact Hr|exact Hin].
Defined.

Lemma get_branch_by_tag_witness :
  Bootc.get_branch "localhost:5000/os:testing-41" Bootc.default_branches
    false = Ok (Some "testing").
Proof.
  apply (get_branch_by_tag "localhost:5000/os" "testing-41"
           Bootc.default_branches false).
  reflexivity.
Defined.

Lemma get_branch_shadowed_witness :
  Bootc.get_branch "ghcr.io/org/os:unstable" Bootc.default_branches true
  ≠ Ok (Some "unstable")
  ∧ Bootc.get_branch "ghcr.io/org/os:unstable" Bootc.default_branches true
    = Ok (Some "stable").
Proof.
  split; [|reflexivity].
  apply (get_branch_shadowed "ghcr.io/org/os:unstable"
           Bootc.default_branches true [] "stable" ["testing"] "unstable" []).
  - reflexivity.
  - intros Hin. apply list_elem_of_singleton in Hin. discriminate Hin.
  - reflexivity.
Defined.

(** ** hhd.plugins.settings: strip_defaults *)

Ltac refold_fmap :=
  repeat match goal with
         | |- context [list_fmap ?A ?B ?f ?l] =>
             change (list_fmap A B f l) with (f <$> l)
         | H : context [list_fmap ?A ?B ?f ?l] |- _ =>
             change (list_fmap A B f l) with (f <$> l) in H
         end.

Section StripDefaults.

Import Settings.

Lemma value_induction (P : value → Prop)
    (HNone : P VNone) (HBool : ∀ b, P (VBool b)) (HInt : ∀ z, P (VInt z))
    (HFloat : ∀ q, P (VFloat q)) (HStr : ∀ s, P (VStr s))
    (HList : ∀ l, P (VList l))
    (HMap : ∀ items, Forall (λ kv, P kv.2) items → P (VMap items))
  : ∀ v, P v.
Proof.
  exact
    (fix go (v : value) : P v :=
       match v with
       | VNone => HNone
       | VBool b => HBool b
       | VInt z => HInt z
       | VFloat q => HFloat q
       | VStr s => HStr s
       | VList l => HList l
       | VMap items =>
           HMap items
             ((fix all (items : list (string * value))
                 : Forall (λ kv, P kv.2) items :=
                 match items with
                 | [] => @List.Forall_nil _ (λ kv, P kv.2)
                 | kv :: rest =>
                     @List.Forall_cons _ (λ kv, P kv.2) kv rest (go kv.2)
                       (all rest)
                 end) items)
       end).
Qed.

Lemma dict_like_map items :
  dict_like (VMap items)
  ↔ NoDup items.*1 ∧ Forall (λ kv, dict_like kv.2) items.
Proof.
  simpl. apply and_iff_compat_l.
  induction items as [|[k v] rest IH]; [by split|].
  rewrite Forall_cons, IH. done.
Qed.

Lemma clean_map items :
  clean (VMap items) = true
  ↔ items ≠ [] ∧ Forall (λ kv, clean kv.2 = true) items.
Proof.
  simpl. destruct items as [|kv rest]; [by split; [|intros [? _]]|].
  rewrite forallb_forall, Forall_forall. split.
  - intros H. split; [done|]. intros [k v] Hin.
    apply list_elem_of_In in Hin. by apply (H (k, v)).
  - intros [_ H] [k v] Hin. apply list_elem_of_In in Hin. by apply (H (k, v)).
Qed.

Lemma dict_set_fresh k v d :
  k ∉ d.*1 → dict_set k v d = d ++ [(k, v)].
Proof.
  induction d as [|[k' v'] d IH]; simpl; [done|]. intros Hk.
  rewrite bool_decide_eq_false_2 by (intros ->; apply Hk; left).
  rewrite IH; [done|]. intros Hin. apply Hk. by right.
Qed.

Lemma dict_set_keys k v d :
  (dict_set k v d).*1 = if bool_decide (k ∈ d.*1) then d.*1 else d.*1 ++ [k].
Proof.
  induction d as [|[k' v'] d IH]; simpl; [done|].
  destruct (decide (k = k')) as [->|Hne].
  - rewrite !bool_decide_eq_true_2; [done|left|done].
  - rewrite (bool_decide_eq_false_2 (k = k')) by done. simpl. refold_fmap.
    rewrite IH.
    destruct (decide (k ∈ d.*1)) as [Hin|Hin].
    + rewrite !bool_decide_eq_true_2; [done|by right|done].
    + rewrite !bool_decide_eq_false_2; [done| |done].
      intros [?|?]%elem_of_cons; done.
Qed.

Lemma dict_set_NoDup k v d : NoDup d.*1 → NoDup (dict_set k v d).*1.
Proof.
  intros Hd. rewrite dict_set_keys. case_bool_decide; [done|].
  apply NoDup_app. split; [done|]. split; [|apply NoDup_singleton].
  intros x Hx ->%list_elem_of_singleton. done.
Qed.

Lemma dict_set_Forall (Q : string * value → Prop) k v d :
  Q (k, v) → Forall Q d → Forall Q (dict_set k v d).
Proof.
  intros Hkv. induction d as [|[k' v'] d IH]; simpl; intros Hd.
  - by apply Forall_cons_2.
  - apply Forall_cons in Hd as [H1 H2]. case_bool_decide.
    + by apply Forall_cons_2.
    + apply Forall_cons_2; [done|by apply IH].
Qed.

Lemma collect_spec (Q : string * value → Prop) pairs : ∀ out,
  NoDup out.*1 → Forall Q out →
  Forall (λ kl, is_none kl.2 = false → Q kl) pairs →
  NoDup (collect pairs out).*1 ∧ Forall Q (collect pairs out).
Proof.
  unfold collect.
  induction pairs as [|[k l] pairs IH]; intros out Hnd Hout Hp; simpl;
    [done|].
  apply Forall_cons in Hp as [Hkl Hp].
  destruct (is_none l) eqn:Hl; simpl; [by apply IH|].
  apply IH; [by apply dict_set_NoDup| |done].
  apply dict_set_Forall; [by apply Hkl|done].
Qed.

Lemma collect_all pairs : ∀ out,
  NoDup (out.*1 ++ pairs.*1) →
  Forall (λ kl, is_none kl.2 = false) pairs →
  collect pairs out = out ++ pairs.
Proof.
  unfold collect.
  induction pairs as [|[k l] pairs IH]; intros out Hnd Hp; simpl.
  - by rewrite app_nil_r.
  - apply Forall_cons in Hp as [Hl Hp]. simpl in Hl. rewrite Hl.
    rewrite fmap_cons in Hnd. simpl in Hnd.
    pose proof Hnd as (Ho & Hdis & Hps)%NoDup_app.
    rewrite dict_set_fresh by (intros Hin; apply (Hdis k Hin); left).
    rewrite IH; [by rewrite <- app_assoc| |done].
    by rewrite fmap_app, <- app_assoc.
Qed.

Lemma clean_not_none v : clean v = true → is_none v = false.
Proof. by destruct v. Qed.

(** What [strip_defaults] returns is [None] or free of placeholders: no
    [None], no ["default"] and no ["unset"] is left as the value of a key,
    and no dict is left empty, at any depth of nested dicts; and its dicts
    have distinct keys. *)
Theorem strip_defaults_clean c :
  (strip_defaults c = VNone ∨ clean (strip_defaults c) = true)
  ∧ dict_like (strip_defaults c).
Proof.
  induction c as [|b|z|q|s|l|items IH] using value_induction;
    try (split; [by right|done]); [by split; [left|]| |].
  - simpl. destruct (_ || _) eqn:Hs; [by split; [left|]|].
    split; [right; simpl; by rewrite Hs|done].
  - simpl.
    destruct (collect_spec
                (λ kl, clean kl.2 = true ∧ dict_like kl.2)
                (map (λ '(k, v), (k, strip_defaults v)) items) [])
      as [Hnd Hall]; [apply NoDup_nil_2|done| |].
    { apply Forall_fmap. eapply Forall_impl; [exact IH|].
      intros [k v] [[Hn|Hc] Hd]; unfold compose; simpl in *; intros Hnone;
        [|done].
      by rewrite Hn in Hnone. }
    destruct (collect _ _) as [|kv out] eqn:Hout; [by split; [left|]|].
    split.
    + right. apply clean_map. split; [done|].
      eapply Forall_impl; [exact Hall|]. by intros ? [? _].
    + apply dict_like_map. split; [done|].
      eapply Forall_impl; [exact Hall|]. by intros ? [_ ?].
Qed.

(** [strip_defaults] leaves alone a value that is free of placeholders and
    whose dicts have distinct keys. *)
Theorem strip_defaults_fixed c :
  dict_like c → clean c = true → strip_defaults c = c.
Proof.
  induction c as [|b|z|q|s|l|items IH] using value_induction;
    try done.
  - simpl. intros _ Hs. by destruct (_ || _).
  - intros [Hnd Hd]%dict_like_map [Hne Hc]%clean_map.
    assert (map (λ '(k, v), (k, strip_defaults v)) items = items) as Hmap.
    { clear Hnd Hne. induction items as [|[k v] items IHi]; [done|].
      apply Forall_cons in IH as [IH1 IH2].
      apply Forall_cons in Hd as [Hd1 Hd2].
      apply Forall_cons in Hc as [Hc1 Hc2].
      simpl. rewrite IHi by done. simpl in *. by rewrite IH1. }
    simpl. rewrite Hmap, collect_all; simpl.
    + by destruct items.
    + done.
    + eapply Forall_impl; [exact Hc|]. intros kv. apply clean_not_none.
Qed.

(** Stripping twice is stripping once. *)
Theorem strip_defaults_idempotent c :
  strip_defaults (strip_defaults c) = strip_defaults c.
Proof.
  destruct (strip_defaults_clean c) as [[->|Hc] Hd]; [done|].
  by apply strip_defaults_fixed.
Qed.

End StripDefaults.

Lemma strip_defaults_fixed_witness :
  Settings.strip_defaults
    (Settings.VMap
       [("hhd", Settings.VMap [("http", Settings.VMap
                                  [("enable", Settings.VBool true);
                                   ("port", Settings.VInt 5335)])]);
        ("version", Settings.VStr "a1b2c3d4")])
  = Settings.VMap
      [("hhd", Settings.VMap [("http", Settings.VMap
                                 [("enable", Settings.VBool true);
                                  ("port", Settings.VInt 5335)])]);
       ("version", Settings.VStr "a1b2c3d4")].
Proof.
  apply strip_defaults_fixed.
  - simpl. repeat split; repeat constructor;
      rewrite ?elem_of_cons, ?elem_of_nil; intros H;
      repeat destruct H as [H|H]; discriminate || done.
  - reflexivity.
Defined.

(** ** hhd.plugins.settings: merge_dicts *)

Section MergeDicts.

Import Settings SettingsMerge.

Lemma dict_get_None k d : dict_get k d = None ↔ k ∉ d.*1.
Proof.
  induction d as [|[k' v] d IH]; simpl; [by split; [intros _ ?%elem_of_nil|]|].
  refold_fmap. case_bool_decide as Hk.
  - subst. split; [done|]. intros H. destruct H. left.
  - rewrite IH. split.
    + intros H [?|?]%elem_of_cons; done.
    + intros H Hin. apply H. by right.
Qed.

Lemma dict_get_set k k' v d :
  dict_get k (dict_set k' v d)
  = if bool_decide (k = k') then Some v else dict_get k d.
Proof.
  induction d as [|[k0 v0] d IH]; simpl.
  - by case_bool_decide.
  - destruct (decide (k' = k0)) as [->|Hne].
    + rewrite (bool_decide_eq_true_2 (k0 = k0)) by done. simpl.
      by case_bool_decide.
    + rewrite (bool_decide_eq_false_2 (k' = k0)) by done. simpl.
      rewrite IH. repeat case_bool_decide; congruence.
Qed.

Lemma dict_del_keys k d x : x ∈ (dict_del k d).*1 → x ∈ d.*1.
Proof.
  induction d as [|[k0 v0] d IH]; simpl; [done|]. refold_fmap.
  case_bool_decide; [by right|]. simpl. refold_fmap.
  intros [->|?]%elem_of_cons; [left|right; by apply IH].
Qed.

Lemma dict_del_NoDup k d : NoDup d.*1 → NoDup (dict_del k d).*1.
Proof.
  induction d as [|[k0 v0] d IH]; simpl; [done|]. refold_fmap.
  intros [Hk0 Hd]%NoDup_cons. case_bool_decide; [done|]. simpl. refold_fmap.
  apply NoDup_cons. split; [|by apply IH].
  intros Hin. by apply Hk0, (dict_del_keys k).
Qed.

Lemma dict_get_del k k' d :
  NoDup d.*1 →
  dict_get k (dict_del k' d)
  = if bool_decide (k = k') then None else dict_get k d.
Proof.
  induction d as [|[k0 v0] d IH]; simpl; [by case_bool_decide|]. refold_fmap.
  intros [Hk0 Hd]%NoDup_cons.
  destruct (decide (k' = k0)) as [->|Hne].
  - rewrite (bool_decide_eq_true_2 (k0 = k0)) by done.
    case_bool_decide; [|done]. subst. by apply dict_get_None.
  - rewrite (bool_decide_eq_false_2 (k' = k0)) by done. simpl.
    rewrite IH by done. repeat case_bool_decide; congruence.
Qed.

Lemma entry_entry (x : option value) : (x ≫= entry) ≫= entry = x ≫= entry.
Proof. destruct x as [[]|]; done. Qed.

Lemma prune_loop ks : ∀ out,
  NoDup out.*1 →
  NoDup (fold_left
           (λ out k,
              match dict_get k out with
              | Some VNone => dict_del k out
              | _ => out
              end) ks out).*1
  ∧ ∀ k,
      dict_get k
        (fold_left
           (λ out k,
              match dict_get k out with
              | Some VNone => dict_del k out
              | _ => out
              end) ks out)
      = if bool_decide (k ∈ ks) then dict_get k out ≫= entry
        else dict_get k out.
Proof.
  induction ks as [|k0 ks IH]; intros out Hnd; simpl.
  - split; [done|]. intros k.
    destruct (bool_decide (k ∈ [])) eqn:E; [|done].
    by apply bool_decide_eq_true, elem_of_nil in E.
  - set (out1 := match dict_get k0 out with
                 | Some VNone => dict_del k0 out
                 | _ => out
                 end).
    assert (NoDup out1.*1) as Hnd1.
    { unfold out1. destruct (dict_get k0 out) as [[]|];
        by try apply dict_del_NoDup. }
    assert (∀ k, dict_get k out1
                 = if bool_decide (k = k0) then dict_get k out ≫= entry
                   else dict_get k out) as Hget1.
    { intros k. unfold out1.
      destruct (dict_get k0 out) as [v0|] eqn:H0.
      - destruct (is_none v0) eqn:Hn.
        + destruct v0; try discriminate Hn.
          rewrite dict_get_del by done.
          case_bool_decide; [subst; by rewrite H0|done].
        + assert (match v0 with VNone => dict_del k0 out | _ => out end
                  = out) as -> by (by destruct v0).
          case_bool_decide; [|done]. subst. rewrite H0. simpl.
          unfold entry. by rewrite Hn.
      - case_bool_decide; [|done]. subst. by rewrite H0. }
    destruct (IH out1 Hnd1) as [Hnd' Hget']. split; [done|].
    intros k. rewrite Hget', Hget1.
    destruct (decide (k = k0)) as [->|Hne].
    + rewrite (bool_decide_eq_true_2 (k0 = k0)) by done.
      rewrite (bool_decide_eq_true_2 (k0 ∈ k0 :: ks)) by left.
      case_bool_decide; [apply entry_entry|done].
    + rewrite (bool_decide_eq_false_2 (k = k0)) by done.
      destruct (decide (k ∈ ks)) as [Hin|Hin].
      * rewrite !bool_decide_eq_true_2; [done|by right|done].
      * rewrite !bool_decide_eq_false_2; [done| |done].
        intros [?|?]%elem_of_cons; done.
Qed.

Lemma prune_spec d :
  NoDup d.*1 →
  NoDup (prune d).*1 ∧ ∀ k, dict_get k (prune d) = dict_get k d ≫= entry.
Proof.
  intros Hnd. destruct (prune_loop d.*1 d Hnd) as [H1 H2].
  split; [exact H1|]. intros k. unfold prune. rewrite H2.
  case_bool_decide as Hin; [done|].
  apply dict_get_None in Hin. by rewrite Hin.
Qed.

Lemma merge_loop (f : option value → value → value) bi : ∀ out,
  NoDup bi.*1 → NoDup out.*1 →
  NoDup (fold_left (λ out '(k, v), dict_set k (f (dict_get k out) v) out)
           bi out).*1
  ∧ ∀ k,
      dict_get k
        (fold_left (λ out '(k, v), dict_set k (f (dict_get k out) v) out)
           bi out)
      = match dict_get k bi with
        | Some v => Some (f (dict_get k out) v)
        | None => dict_get k out
        end.
Proof.
  induction bi as [|[k0 v0] bi IH]; intros out Hb Ho; simpl; [done|].
  refold_fmap. rewrite fmap_cons in Hb. simpl in Hb.
  apply NoDup_cons in Hb as [Hk0 Hb].
  destruct (IH (dict_set k0 (f (dict_get k0 out) v0) out) Hb)
    as [Hnd Hget]; [by apply dict_set_NoDup|].
  split; [done|]. intros k. rewrite Hget, !dict_get_set.
  destruct (decide (k = k0)) as [->|Hne].
  - rewrite !(bool_decide_eq_true_2 (k0 = k0)) by done.
    apply dict_get_None in Hk0. by rewrite Hk0.
  - rewrite !(bool_decide_eq_false_2 (k = k0)) by done.
    by destruct (dict_get k bi).
Qed.

(** What is laid over: the dict before the loop of [merge_dicts]. *)
Lemma merge_dicts_out a bi :
  NoDup bi.*1 → (∀ ai, a = VMap ai → NoDup ai.*1) →
  ∃ out,
    merge_dicts a (VMap bi)
    = match prune out with [] => VNone | out' => VMap out' end
    ∧ NoDup out.*1
    ∧ ∀ k, dict_get k out
           = match dict_get k bi with
             | Some v => Some (merge_dicts (default VNone (lookup k a)) v)
             | None => lookup k a
             end.
Proof.
  intros Hb Ha. destruct a as [| | | | | |ai]; simpl.
  7:{ destruct (merge_loop (λ o v, merge_dicts (default VNone o) v) bi ai
                  Hb (Ha ai eq_refl)) as [Hnd Hget].
      eexists. split; [done|]. by split. }
  all: destruct (merge_loop (λ _ v, merge_dicts VNone v) bi [] Hb
                   (NoDup_nil_2 (A:=string))) as [Hnd Hget];
    eexists; (split; [done|]); (split; [exact Hnd|]);
    intros k; rewrite Hget; by destruct (dict_get k bi).
Qed.

(** Key by key, for dicts with distinct keys: a key of [b] holds the merge
    of what [a] holds under it with what [b] holds, and is absent when that
    merge is [None]; a key of [a] alone holds what it held, and is absent
    when it held [None]. *)
Theorem merge_dicts_lookup a bi k :
  NoDup bi.*1 → (∀ ai, a = VMap ai → NoDup ai.*1) →
  lookup k (merge_dicts a (VMap bi))
  = match dict_get k bi with
    | Some v => entry (merge_dicts (default VNone (lookup k a)) v)
    | None => lookup k a ≫= entry
    end.
Proof.
  intros Hb Ha.
  destruct (merge_dicts_out a bi Hb Ha) as (out & -> & Hnd & Hget).
  destruct (prune_spec out Hnd) as [_ Hp].
  assert (lookup k (match prune out with [] => VNone | o => VMap o end)
          = dict_get k (prune out)) as -> by (by destruct (prune out)).
  rewrite Hp, Hget. by destruct (dict_get k bi).
Qed.

(** What [merge_dicts] returns for a dict [b]: [None], or a dict that is
    not empty, has distinct keys and holds no [None]; never an empty dict
    and never anything else. *)
Theorem merge_dicts_no_none a bi :
  NoDup bi.*1 → (∀ ai, a = VMap ai → NoDup ai.*1) →
  merge_dicts a (VMap bi) = VNone
  ∨ ∃ items,
      merge_dicts a (VMap bi) = VMap items
      ∧ items ≠ [] ∧ NoDup items.*1
      ∧ ∀ k, dict_get k items ≠ Some VNone.
Proof.
  intros Hb Ha.
  destruct (merge_dicts_out a bi Hb Ha) as (out & -> & Hnd & _).
  destruct (prune_spec out Hnd) as [Hnd' Hp].
  destruct (prune out) as [|kv rest] eqn:Hpr; [by left|].
  right. eexists. split; [done|]. split; [done|]. split; [done|].
  intros k. rewrite Hp. by destruct (dict_get k out) as [[]|].
Qed.

End MergeDicts.

(** ** hhd.plugins.settings: standard_validator *)

Section StandardValidator.

Import Settings SettingsValidate.

(** [standard_validator] never returns [True]: it returns [False], or
    reaches its end and returns [None], so [validate_config] accepts a
    custom value on the word of the other validator alone.  For a
    progress value that is a dict with neither [max] nor [value] it
    raises [KeyError]. *)
Theorem standard_validator_never_accepts tags config v :
  standard_validator tags config v ≠ Ok (Some true)
  ∧ (∀ items,
       "progress" ∈ tags → v = VMap items → items ≠ [] →
       dict_get "max" items = None → dict_get "value" items = None →
       standard_validator tags config v
       = Raise (OtherException "KeyError")).
Proof.
  unfold standard_validator. split.
  - repeat case_match; discriminate.
  - intros items Hp -> Hne Hmax Hval.
    rewrite bool_decide_eq_true_2 by done. simpl.
    rewrite (bool_decide_eq_false_2 (items.*1 = []))
      by (by destruct items).
    simpl. by rewrite Hval, Hmax.
Qed.

End StandardValidator.

Lemma standard_validator_never_accepts_witness :
  SettingsValidate.standard_validator ["progress"] Settings.VNone
    (Settings.VMap [("text", Settings.VStr "Downloading")])
  = Raise (OtherException "KeyError")
  ∧ SettingsValidate.standard_validator ["progress"] Settings.VNone
      (Settings.VMap [("value", Settings.VInt 3); ("max", Settings.VInt 10)])
    = Ok None.
Proof.
  split; [|reflexivity].
  destruct (standard_validator_never_accepts ["progress"] Settings.VNone
              (Settings.VMap [("text", Settings.VStr "Downloading")]))
    as [_ H].
  apply (H [("text", Settings.VStr "Downloading")]).
  - left.
  - reflexivity.
  - discriminate.
  - reflexivity.
  - reflexivity.
Defined.

Lemma merge_dicts_lookup_witness :
  SettingsMerge.lookup "tdp"
    (SettingsMerge.merge_dicts
       (Settings.VMap [("version", Settings.VNone);
                       ("tdp", Settings.VInt 15);
                       ("rgb", Settings.VStr "red")])
       (Settings.VMap [("tdp", Settings.VInt 25);
                       ("rgb", Settings.VNone)]))
  = Some (Settings.VInt 25)
  ∧ SettingsMerge.merge_dicts
      (Settings.VMap [("version", Settings.VNone);
                      ("tdp", Settings.VInt 15);
                      ("rgb", Settings.VStr "red")])
      (Settings.VMap [("tdp", Settings.VInt 25); ("rgb", Settings.VNone)])
    = Settings.VMap [("tdp", Settings.VInt 25)].
Proof.
  split; [|reflexivity].
  apply (merge_dicts_lookup
           (Settings.VMap [("version", Settings.VNone);
                           ("tdp", Settings.VInt 15);
                           ("rgb", Settings.VStr "red")])
           [("tdp", Settings.VInt 25); ("rgb", Settings.VNone)] "tdp").
  - repeat constructor; rewrite ?elem_of_cons, ?elem_of_nil; intros H;
      repeat destruct H as [H|H]; discriminate || done.
  - intros ai [= <-].
    repeat constructor; rewrite ?elem_of_cons, ?elem_of_nil; intros H;
      repeat destruct H as [H|H]; discriminate || done.
Defined.

Lemma merge_dicts_no_none_witness :
  ∃ items,
    SettingsMerge.merge_dicts
      (Settings.VMap [("version", Settings.VNone);
                      ("tdp", Settings.VInt 15)])
      (Settings.VMap [("tdp", Settings.VInt 25)])
    = Settings.VMap items
    ∧ items ≠ []
    ∧ ∀ k, Settings.dict_get k items ≠ Some Settings.VNone.
Proof.
  destruct (merge_dicts_no_none
              (Settings.VMap [("version", Settings.VNone);
                              ("tdp", Settings.VInt 15)])
              [("tdp", Settings.VInt 25)])
    as [Hnone|(items & Heq & Hne & _ & Hno)].
  - repeat constructor; rewrite ?elem_of_cons, ?elem_of_nil; intros H;
      repeat destruct H as [H|H]; discriminate || done.
  - intros ai [= <-].
    repeat constructor; rewrite ?elem_of_cons, ?elem_of_nil; intros H;
      repeat destruct H as [H|H]; discriminate || done.
  - vm_compute in Hnone. discriminate Hnone.
  - exists items. split; [exact Heq|]. split; [exact Hne|exact Hno].
Defined.
